(** * SAP license recommendation tool: the recommendation engine of main.py

    A shallow embedding of the engine in [main.py]: the normaliser
    [normalize_license], the priority table [LICENSE_PRIORITY], the selection
    [get_highest_license], the classifier [determine_status] and the
    processing script that joins the two uploaded sheets and builds the
    manual and the bulk report. *)

From Stdlib Require Import String Ascii List NArith ZArith Bool Lia.
From Stdlib Require Import Permutation Sorted DecimalString.
Import ListNotations.

(** ** Python values and text *)

Module Py.

Local Open Scope N_scope.

(** A Python [str] is a sequence of Unicode code points. *)
Definition char := N.
Definition str := list char.

(** Text written in the source as an ASCII literal. *)
Definition lit (s : string) : str := map N_of_ascii (list_ascii_of_string s).

Definition str_eqb (s t : str) : bool :=
  if list_eq_dec N.eq_dec s t then true else false.

(** [ch.isspace()]: the complete list of code points Python treats as
    white space, the ones [str.strip()] removes. *)
Definition is_space (c : char) : bool :=
  ((0x09 <=? c) && (c <=? 0x0D)) || ((0x1C <=? c) && (c <=? 0x20))
  || (c =? 0x85) || (c =? 0xA0) || (c =? 0x1680)
  || ((0x2000 <=? c) && (c <=? 0x200A))
  || (c =? 0x2028) || (c =? 0x2029) || (c =? 0x202F) || (c =? 0x205F)
  || (c =? 0x3000).

Definition is_ascii (c : char) : bool := c <? 128.
Definition is_ascii_upper (c : char) : bool := (65 <=? c) && (c <=? 90).
Definition is_ascii_lower (c : char) : bool := (97 <=? c) && (c <=? 122).

(** The case tables of the Unicode character database, restricted to the
    code points this development uses: the ASCII range, U+0130 (capital I
    with dot above) and U+0307 (combining dot above).  Any other code point
    is carried through unchanged and counted as uncased, so the statements
    below that depend on casing are made for ASCII text, and the one
    evaluation outside ASCII stays within the two listed code points. *)
Definition is_cased (c : char) : bool :=
  is_ascii_upper c || is_ascii_lower c || (c =? 0x130).

Definition to_lower_full (c : char) : list char :=
  if is_ascii_upper c then [c + 32]
  else if c =? 0x130 then [0x69; 0x307]
  else [c].

Definition to_title_full (c : char) : list char :=
  if is_ascii_lower c then [c - 32] else [c].

Definition to_upper_full (c : char) : list char :=
  if is_ascii_lower c then [c - 32] else [c].

Fixpoint lstrip (s : str) : str :=
  match s with
  | [] => []
  | c :: s' => if is_space c then lstrip s' else s
  end.

Definition rstrip (s : str) : str := rev (lstrip (rev s)).

(** [s.strip()] *)
Definition strip (s : str) : str := rstrip (lstrip s).

(** [s.title()]: a code point is title-cased when the code point before it
    is not cased, and lower-cased when it is. *)
Fixpoint do_title (previous_is_cased : bool) (s : str) : str :=
  match s with
  | [] => []
  | c :: s' =>
      (if previous_is_cased then to_lower_full c else to_title_full c)
        ++ do_title (is_cased c) s'
  end.

Definition title (s : str) : str := do_title false s.

(** [s.upper()] *)
Definition upper (s : str) : str := flat_map to_upper_full s.

(** The values the engine's functions are called with: [None], a float
    NaN (an empty spreadsheet cell), a string, an integer. *)
Inductive value : Type :=
| PNone
| PNaN
| PStr (s : str)
| PInt (z : Z).

(** [pd.isna(v)] on a scalar *)
Definition isna (v : value) : bool :=
  match v with
  | PNone | PNaN => true
  | PStr _ | PInt _ => false
  end.

(** [bool(v)], the test of [if lic] *)
Definition truthy (v : value) : bool :=
  match v with
  | PNone => false
  | PNaN => true
  | PStr s => match s with [] => false | _ :: _ => true end
  | PInt z => negb (z =? 0)%Z
  end.

(** [str(v)] *)
Definition str_of (v : value) : str :=
  match v with
  | PNone => lit "None"
  | PNaN => lit "nan"
  | PStr s => s
  | PInt z => lit (NilZero.string_of_int (Z.to_int z))
  end.

(** [a == b] *)
Definition eqb (a b : value) : bool :=
  match a, b with
  | PNone, PNone => true
  | PStr s, PStr t => str_eqb s t
  | PInt x, PInt y => (x =? y)%Z
  | _, _ => false
  end.

(** A [dict] with integer values, in insertion order. *)
Definition dict := list (str * Z).

Fixpoint lookup (d : dict) (k : str) : option Z :=
  match d with
  | [] => None
  | (k', v) :: d' => if str_eqb k' k then Some v else lookup d' k
  end.

(** The keys of the dictionaries here are strings, so only a string can be
    found in one. *)
Definition find (d : dict) (k : value) : option Z :=
  match k with
  | PStr s => lookup d s
  | _ => None
  end.

(** [k in d] *)
Definition contains (d : dict) (k : value) : bool :=
  match find d k with Some _ => true | None => false end.

(** [d.get(k, default)] *)
Definition get (d : dict) (k : value) (default : Z) : Z :=
  match find d k with Some v => v | None => default end.

End Py.

Import Py.

Local Open Scope N_scope.

(** ** What a run of the script can end in *)

Inductive outcome (A : Type) : Type :=
| Ok (a : A)
| KeyError (key : str)          (* an uncaught [KeyError] *)
| IndexError                    (* an uncaught [IndexError] *)
| Stopped (message : str)       (* [st.error(message)] then [st.stop()] *)
| AttributeError                (* an uncaught [AttributeError] *)
| MergeError.                   (* an uncaught [pandas.errors.MergeError] *)

Arguments Ok {A} a.
Arguments KeyError {A} key.
Arguments IndexError {A}.
Arguments Stopped {A} message.
Arguments AttributeError {A}.
Arguments MergeError {A}.

Definition bind {A B : Type} (m : outcome A) (k : A -> outcome B) : outcome B :=
  match m with
  | Ok a => k a
  | KeyError key => KeyError key
  | IndexError => IndexError
  | Stopped message => Stopped message
  | AttributeError => AttributeError
  | MergeError => MergeError
  end.

Notation "x <- m ;; k" := (bind m (fun x => k))
  (at level 61, m at next level, right associativity).

(** [d[k]] *)
Definition getitem (d : dict) (k : value) : outcome Z :=
  match find d k with
  | Some v => Ok v
  | None => KeyError (str_of k)
  end.

(** ** LICENSE PRIORITY LOGIC *)

Definition LICENSE_PRIORITY : dict :=
  [ (lit "Professional", 3%Z); (lit "Functional", 2%Z); (lit "Productivity", 1%Z) ].

Definition NO_DATA : str := lit "No Data".
Definition NOT_ASSIGNED : str := lit "Not Assigned".

(** The four status texts; each starts with its pictograph. *)
Definition OPTIMIZED : str := [0x2705; 0x20] ++ lit "Optimized".
Definition OVER_LICENSED : str := [0x1F53B; 0x20] ++ lit "Over-Licensed".
Definition UNDER_LICENSED : str := [0x26A0; 0xFE0F; 0x20] ++ lit "Under-Licensed".
Definition REVIEW : str := [0x2699; 0xFE0F; 0x20] ++ lit "Review".

Definition normalize_license (license_name : value) : value :=
  if isna license_name then PNone
  else PStr (title (strip (str_of license_name))).

(** [max(first :: rest, key=key)]: the first element whose key is the
    largest. *)
Fixpoint max_by {A : Type} (key : A -> outcome Z) (best : A) (kbest : Z)
    (rest : list A) : outcome A :=
  match rest with
  | [] => Ok best
  | x :: rest' =>
      k <- key x ;;
      if (kbest <? k)%Z then max_by key x k rest' else max_by key best kbest rest'
  end.

Definition py_max {A : Type} (key : A -> outcome Z) (first : A) (rest : list A)
    : outcome A :=
  k <- key first ;; max_by key first k rest.

Definition get_highest_license (license_list : list value) : outcome value :=
  let license_list := map normalize_license (filter truthy license_list) in
  let valid_licenses := filter (contains LICENSE_PRIORITY) license_list in
  match valid_licenses with
  | [] => Ok (PStr NO_DATA)
  | first :: rest => py_max (getitem LICENSE_PRIORITY) first rest
  end.

Definition determine_status (current recommended : value) : str :=
  let current := normalize_license current in
  let recommended := normalize_license recommended in
  if Py.eqb current recommended then OPTIMIZED
  else if (get LICENSE_PRIORITY recommended 0 <? get LICENSE_PRIORITY current 0)%Z
  then OVER_LICENSED
  else if (get LICENSE_PRIORITY current 0 <? get LICENSE_PRIORITY recommended 0)%Z
  then UNDER_LICENSED
  else REVIEW.

(** ** The pandas operations the script uses *)

Module Pd.

(** A cell of a sheet read by [pd.read_excel]: text, or [None] for an empty
    cell (NaN).  The sheets are taken to hold text; cells of other types
    (numbers, dates) are outside this model. *)
Definition cell := option str.

(** A frame: its column labels and its rows, in order.  A label is looked
    up at its first position, which is what pandas does when the labels of
    the frame are pairwise distinct; where the script reads a column
    through [.str] the case of a repeated label is modelled by
    [assign_cleaned], and the statements about the later reads are made
    for frames with distinct labels. *)
Record DataFrame : Type := {
  columns : list str;
  rows : list (list cell)
}.

Definition cell_eqb (a b : cell) : bool :=
  match a, b with
  | Some s, Some t => str_eqb s t
  | None, None => true
  | _, _ => false
  end.

Definition to_value (c : cell) : value :=
  match c with Some s => PStr s | None => PNaN end.

Fixpoint position (c : str) (cols : list str) : option nat :=
  match cols with
  | [] => None
  | c' :: cols' =>
      if str_eqb c' c then Some O
      else match position c cols' with Some i => Some (S i) | None => None end
  end.

(** [c in df.columns] *)
Definition has_column (df : DataFrame) (c : str) : bool :=
  match position c (columns df) with Some _ => true | None => false end.

(** [df[c]] for a label that occurs once or not at all.  With the label
    twice pandas gives a frame where the script expects a column; the
    statements below read the columns of frames whose labels are pairwise
    distinct. *)
Definition column (df : DataFrame) (c : str) : outcome (list cell) :=
  match position c (columns df) with
  | Some i => Ok (map (fun r : list cell => nth i r None) (rows df))
  | None => KeyError c
  end.

(** [df.columns = df.columns.str.strip()] *)
Definition strip_columns (df : DataFrame) : DataFrame :=
  {| columns := map strip (columns df); rows := rows df |}.

Fixpoint update_at {A : Type} (i : nat) (f : A -> A) (l : list A) : list A :=
  match l, i with
  | [], _ => []
  | x :: l', O => f x :: l'
  | x :: l', S i' => x :: update_at i' f l'
  end.

(** [df[c] = f(df[c])] for a column that exists once, cell by cell; see
    [assign_cleaned] for the assignment as the script does it. *)
Definition map_column (c : str) (f : cell -> cell) (df : DataFrame) : DataFrame :=
  match position c (columns df) with
  | Some i => {| columns := columns df; rows := map (update_at i f) (rows df) |}
  | None => df
  end.

(** How often a label occurs among the labels of a frame. *)
Definition count_label (c : str) (cols : list str) : nat :=
  length (filter (str_eqb c) cols).

(** [df[c] = f(df[c])] where [f] goes through [.astype(str).str]: with the
    label twice [df[c]] is a frame, which has no [.str]. *)
Definition assign_cleaned (c : str) (f : cell -> cell) (df : DataFrame)
    : outcome DataFrame :=
  match count_label c (columns df) with
  | O => KeyError c
  | S O => Ok (map_column c f df)
  | S (S _) => AttributeError
  end.

(** [.astype(str)] on a cell: text stays as it is; an empty cell becomes
    the text [nan], as in pandas before version 3, which keeps it empty.
    The statements that depend on the keys of the join are made for
    sheets without empty code cells, where the versions agree. *)
Definition astype_str (c : cell) : str := str_of (to_value c).

(** [.dropna()] on a column, as the list of what is left *)
Fixpoint dropna (l : list cell) : list str :=
  match l with
  | [] => []
  | Some s :: l' => s :: dropna l'
  | None :: l' => dropna l'
  end.

(** [.unique()]: the distinct values in order of first appearance *)
Fixpoint unique (l : list str) : list str :=
  match l with
  | [] => []
  | x :: l' => x :: filter (fun y => negb (str_eqb x y)) (unique l')
  end.

(** The order of Python's [<] on text: code point by code point. *)
Fixpoint str_ltb (s t : str) : bool :=
  match s, t with
  | _, [] => false
  | [], _ :: _ => true
  | a :: s', b :: t' => (a <? b) || ((a =? b) && str_ltb s' t')
  end.

Definition str_leb (s t : str) : bool := negb (str_ltb t s).

Fixpoint insert_sorted (x : str) (l : list str) : list str :=
  match l with
  | [] => [x]
  | y :: l' => if str_leb x y then x :: l else y :: insert_sorted x l'
  end.

Definition sort (l : list str) : list str := fold_right insert_sorted [] l.

Definition occurrences (v : str) (l : list str) : nat :=
  length (filter (str_eqb v) l).

(** [.mode()]: the values that occur most often among the cells that are
    not empty, in ascending order. *)
Definition mode (l : list cell) : list str :=
  let values := dropna l in
  let distinct := unique values in
  let top := fold_right Nat.max O (map (fun v => occurrences v values) distinct) in
  sort (filter (fun v => Nat.eqb (occurrences v values) top) distinct).

Definition remove_at {A : Type} (i : nat) (l : list A) : list A :=
  firstn i l ++ skipn (S i) l.

(** The label of a column of either side in the merged frame: a label
    that both sides have, the key apart, takes the side's suffix. *)
Definition suffixed (left right : DataFrame) (on suffix c : str) : str :=
  if negb (str_eqb c on) && has_column left c && has_column right c
  then c ++ suffix else c.

(** The rows one left row [l] contributes to a left join: one per right
    row with the same key, in the right frame's order, or [l] once with
    the right side's columns empty when there is none. *)
Definition join_row (i j width : nat) (right_rows : list (list cell))
    (l : list cell) : list (list cell) :=
  match filter (fun r : list cell => cell_eqb (nth i l None) (nth j r None)) right_rows with
  | [] => [l ++ repeat None width]
  | matches => map (fun r : list cell => l ++ remove_at j r) matches
  end.

(** The check of [pd.merge] on the labels of one side: a label that,
    after suffixing, repeats an earlier label of the side although before
    suffixing it did not. *)
Fixpoint new_duplicates (seen_before seen_after before after : list str) : bool :=
  match before, after with
  | b :: before', a :: after' =>
      (existsb (str_eqb a) seen_after && negb (existsb (str_eqb b) seen_before))
      || new_duplicates (b :: seen_before) (a :: seen_after) before' after'
  | _, _ => false
  end.

Definition suffix_collision (before after : list str) : bool :=
  new_duplicates [] [] before after.

(** [pd.merge(left, right, on=on, how="left")]: the left rows in their
    order, each with its block of [join_row]; equal keys match, two empty
    keys included.  The labels are those of the left frame, then those of
    the right frame without the key, suffixed where they clash; a side
    whose suffixed labels collide is refused with a [MergeError]. *)
Definition merge_left (left right : DataFrame) (on : str) : outcome DataFrame :=
  match position on (columns left), position on (columns right) with
  | Some i, Some j =>
      let rcols := remove_at j (columns right) in
      let llabels := map (suffixed left right on (lit "_x")) (columns left) in
      let rlabels := map (suffixed left right on (lit "_y")) rcols in
      if suffix_collision (columns left) llabels || suffix_collision rcols rlabels
      then MergeError
      else Ok {| columns := llabels ++ rlabels;
                 rows := flat_map (join_row i j (length rcols) (rows right)) (rows left) |}
  | _, _ => KeyError on
  end.

(** [df[df[c] == v]]: an empty cell equals nothing, and nothing equals
    [None]. *)
Definition cell_is (v : option str) (x : cell) : bool :=
  match v, x with
  | Some s, Some t => str_eqb t s
  | _, _ => false
  end.

Definition select_rows (df : DataFrame) (i : nat) (v : option str) : DataFrame :=
  {| columns := columns df;
     rows := filter (fun r : list cell => cell_is v (nth i r None)) (rows df) |}.

Definition where_eq (df : DataFrame) (c : str) (v : option str) : outcome DataFrame :=
  match position c (columns df) with
  | Some i => Ok (select_rows df i v)
  | None => KeyError c
  end.

(** [df.groupby(c)]: one group per distinct key that is not empty, the keys
    in ascending order, each group keeping its rows in the frame's order. *)
Definition groupby (df : DataFrame) (c : str) : outcome (list (str * DataFrame)) :=
  match position c (columns df) with
  | Some i =>
      let keys := sort (unique (dropna (map (fun r : list cell => nth i r None) (rows df)))) in
      Ok (map (fun k => (k, select_rows df i (Some k))) keys)
  | None => KeyError c
  end.

End Pd.

Import Pd.

(** ** PROCESSING *)

Definition TCODE : str := lit "Tcode".
Definition LICENSE_TYPE : str := lit "License Type".
Definition USER_NAME : str := lit "User Name".
Definition USER_ID : str := lit "User ID".
Definition LICENSE : str := lit "License".

Definition TCODE_MISSING : str :=
  [0x274C; 0x20] ++ lit "'Tcode' column missing in one of the files.".
Definition LICENSE_TYPE_MISSING : str :=
  [0x274C; 0x20] ++ lit "'License Type' column missing in License Master file.".

(** [.astype(str).str.strip().str.upper()] *)
Definition clean_tcode (c : cell) : cell := Some (upper (strip (astype_str c))).

(** [.astype(str).str.strip().str.title()] *)
Definition clean_license_type (c : cell) : cell := Some (title (strip (astype_str c))).

(** From the two sheets to the frame [merged]: the labels are stripped, the
    required columns are checked, the join key and the tier are cleaned and
    the sheets are joined. *)
Definition merged (df_users df_license_master : DataFrame) : outcome DataFrame :=
  let df_users := strip_columns df_users in
  let df_license_master := strip_columns df_license_master in
  if negb (has_column df_users TCODE) || negb (has_column df_license_master TCODE)
  then Stopped TCODE_MISSING
  else
    df_users <- assign_cleaned TCODE clean_tcode df_users ;;
    df_license_master <- assign_cleaned TCODE clean_tcode df_license_master ;;
    if has_column df_license_master LICENSE_TYPE then
      df_license_master <-
        assign_cleaned LICENSE_TYPE clean_license_type df_license_master ;;
      merge_left df_users df_license_master TCODE
    else Stopped LICENSE_TYPE_MISSING.

(** "Safe current license extraction", the same in both modes. *)
Definition current_license (user_data : DataFrame) : outcome str :=
  if has_column user_data LICENSE then
    licenses <- column user_data LICENSE ;;
    match dropna licenses with
    | _ :: _ =>
        match mode licenses with
        | first :: _ => Ok first
        | [] => Ok NOT_ASSIGNED
        end
    | [] => Ok NOT_ASSIGNED
    end
  else Ok NOT_ASSIGNED.

(** "Determine recommendation", the same in both modes. *)
Definition recommended_license (user_data : DataFrame) : outcome value :=
  tiers <- column user_data LICENSE_TYPE ;;
  get_highest_license (map (fun x => normalize_license (PStr x)) (dropna tiers)).

Record UserAssessment : Type := {
  a_user : option str;
  a_current : str;
  a_recommended : value;
  a_status : str
}.

(** The choice of [st.selectbox]: one of the options, [None] when there is
    none. *)
Definition selectbox (options : list str) (choice : nat) : option str :=
  match options with
  | [] => None
  | first :: _ => Some (nth choice options first)
  end.

(** The manual mode, up to the assessment it shows; the chart and the table
    after it read [License Type] again and otherwise only columns they
    have tested for. *)
Definition manual_mode (merged : DataFrame) (choice : nat) : outcome UserAssessment :=
  names <- column merged USER_NAME ;;
  let users := unique (dropna names) in
  let selected_user := selectbox users choice in
  user_data <- where_eq merged USER_NAME selected_user ;;
  current <- current_license user_data ;;
  recommended <- recommended_license user_data ;;
  let status := determine_status (PStr current) recommended in
  Ok {| a_user := selected_user; a_current := current;
        a_recommended := recommended; a_status := status |}.

Record ReportRow : Type := {
  r_user_name : str;
  r_user_id : cell;
  r_current : str;
  r_recommended : value;
  r_status : str
}.

(** [group["User ID"].iloc[0] if "User ID" in group.columns else "N/A"] *)
Definition first_user_id (group : DataFrame) : outcome cell :=
  if has_column group USER_ID then
    ids <- column group USER_ID ;;
    match ids with
    | first :: _ => Ok first
    | [] => IndexError
    end
  else Ok (Some (lit "N/A")).

Definition report_row (user : str) (group : DataFrame) : outcome ReportRow :=
  recommended <- recommended_license group ;;
  current <- current_license group ;;
  let status := determine_status (PStr current) recommended in
  uid <- first_user_id group ;;
  Ok {| r_user_name := user; r_user_id := uid; r_current := current;
        r_recommended := recommended; r_status := status |}.

Fixpoint for_each {A B : Type} (f : A -> outcome B) (l : list A) : outcome (list B) :=
  match l with
  | [] => Ok []
  | x :: l' => y <- f x ;; ys <- for_each f l' ;; Ok (y :: ys)
  end.

(** The loop of the bulk mode: the list [user_results], one entry per
    group, from which the frame [df_result] is made. *)
Definition user_results (merged : DataFrame) : outcome (list ReportRow) :=
  groups <- groupby merged USER_NAME ;;
  for_each (fun ug => report_row (fst ug) (snd ug)) groups.

(** [df_result[label]]: a frame made from an empty list has no columns. *)
Definition result_column {A : Type} (label : str) (field : ReportRow -> A)
    (df_result : list ReportRow) : outcome (list A) :=
  match df_result with
  | [] => KeyError label
  | _ :: _ => Ok (map field df_result)
  end.

(** The bulk mode: the report, then the two distributions for the charts;
    the download offers the report as it is. *)
Definition bulk_mode (merged : DataFrame) : outcome (list ReportRow) :=
  df_result <- user_results merged ;;
  license_dist <- result_column (lit "Recommended License") r_recommended df_result ;;
  status_dist <- result_column (lit "Status") r_status df_result ;;
  Ok df_result.

(** One run of the script with both sheets uploaded: the manual view for
    the selected user, then the bulk report. *)
Definition run (df_users df_license_master : DataFrame) (choice : nat)
    : outcome (UserAssessment * list ReportRow) :=
  m <- merged df_users df_license_master ;;
  manual <- manual_mode m choice ;;
  report <- bulk_mode m ;;
  Ok (manual, report).

(** The whole script: nothing is processed until both sheets are there. *)
Definition main (user_file license_master_file : option DataFrame) (choice : nat)
    : outcome (option (UserAssessment * list ReportRow)) :=
  match user_file, license_master_file with
  | Some df_users, Some df_license_master =>
      r <- run df_users df_license_master choice ;; Ok (Some r)
  | _, _ => Ok None
  end.

(** ** The reference definitions of the specification *)

(** [rank_of]: the rank of a tier, 0 for anything that is not one. *)
Definition rank_of (t : value) : Z :=
  match t with
  | PStr s =>
      if str_eqb s (lit "Productivity") then 1
      else if str_eqb s (lit "Functional") then 2
      else if str_eqb s (lit "Professional") then 3
      else 0
  | _ => 0
  end%Z.

(** [classify], case by case as the specification words it. *)
Definition classify (current recommended : value) : str :=
  let c := normalize_license current in
  let r := normalize_license recommended in
  match c, r with
  | PNone, PNone => OPTIMIZED
  | PStr s, PStr t =>
      if list_eq_dec N.eq_dec s t then OPTIMIZED
      else match (rank_of c ?= rank_of r)%Z with
           | Gt => OVER_LICENSED
           | Lt => UNDER_LICENSED
           | Eq => REVIEW
           end
  | _, _ =>
      match (rank_of c ?= rank_of r)%Z with
      | Gt => OVER_LICENSED
      | Lt => UNDER_LICENSED
      | Eq => REVIEW
      end
  end.

Definition STATUSES : list str := [OPTIMIZED; OVER_LICENSED; UNDER_LICENSED; REVIEW].

Definition TIERS : list value :=
  [PStr (lit "Productivity"); PStr (lit "Functional"); PStr (lit "Professional")].

(** ** What the statements below are about *)

(** The list [valid_licenses] of the source. *)
Definition valid_licenses (license_list : list value) : list value :=
  filter (contains LICENSE_PRIORITY) (map normalize_license (filter truthy license_list)).

(** Text within the ASCII range. *)
Definition ascii_text (s : str) : Prop := Forall (fun c => c < 128) s.

(** What [strip] leaves: text that neither starts nor ends with white
    space. *)
Definition starts_clean (s : str) : bool :=
  match s with
  | [] => true
  | c :: _ => negb (is_space c)
  end.

(** The facts about one ASCII code point that the proof uses, as one
    test: both case mappings give one code point, of the same white-space
    and cased class, which the same mapping leaves alone. *)
Definition case_stable (c : char) : bool :=
  match to_lower_full c, to_title_full c with
  | [l], [t] =>
      Bool.eqb (is_space l) (is_space c) && Bool.eqb (is_space t) (is_space c)
      && Bool.eqb (is_cased l) (is_cased c) && Bool.eqb (is_cased t) (is_cased c)
      && str_eqb (to_lower_full l) [l] && str_eqb (to_title_full t) [t]
  | _, _ => false
  end.

(** Every row of a frame has one cell per label. *)
Definition rectangular (df : DataFrame) : Prop :=
  Forall (fun r => length r = length (columns df)) (rows df).

(** The users sheet and the master sheet as they enter the join. *)
Definition cleaned_users (df_users : DataFrame) : DataFrame :=
  map_column TCODE clean_tcode (strip_columns df_users).

Definition cleaned_master (df_license_master : DataFrame) : DataFrame :=
  map_column LICENSE_TYPE clean_license_type
    (map_column TCODE clean_tcode (strip_columns df_license_master)).

(** The key of a row, and the rows of the right frame that match a left
    row. *)
Definition key_of (df : DataFrame) (on : str) (r : list cell) : cell :=
  match position on (columns df) with
  | Some i => nth i r None
  | None => None
  end.

Definition matching (left right : DataFrame) (on : str) (l : list cell)
    : list (list cell) :=
  filter (fun r => cell_eqb (key_of left on l) (key_of right on r)) (rows right).

(** The frame that [merge_left left right TCODE] returns when the key is
    at position [i] on the left and [j] on the right. *)
Definition joined (left right : DataFrame) (i j : nat) : DataFrame :=
  {| columns := map (suffixed left right TCODE (lit "_x")) (columns left)
                ++ map (suffixed left right TCODE (lit "_y")) (remove_at j (columns right));
     rows := flat_map (join_row i j (length (remove_at j (columns right))) (rows right))
               (rows left) |}.

(** The number of joined rows a left row contributes. *)
Definition copies (right : DataFrame) (i j : nat) (l : list cell) : nat :=
  length (join_row i j (length (remove_at j (columns right))) (rows right) l).

(** [t.endswith(suffix)] *)
Definition ends_with (suffix t : str) : bool :=
  str_eqb (skipn (length t - length suffix) t) suffix.

(** A list of texts in ascending order. *)
Definition ascending (l : list str) : Prop :=
  StronglySorted (fun a b => str_leb a b = true) l.

(** What the first value of [mode] is: a most frequent value among the
    cells that are not empty, the least such value in the order of text. *)
Definition most_frequent (cells : list cell) (v : str) : Prop :=
  In (Some v) cells
  /\ (forall w, occurrences w (dropna cells) <= occurrences v (dropna cells))%nat
  /\ (forall w, occurrences w (dropna cells) = occurrences v (dropna cells) ->
                str_leb v w = true).

(** What the specification asks of the current license, for the cells of
    the [License] field of one user's records. *)
Definition current_spec (cells : list cell) (v : str) : Prop :=
  (dropna cells = [] /\ v = NOT_ASSIGNED) \/ most_frequent cells v.

(** The [License] cells of the records of [user] in the users sheet,
    before the join; none when the sheet has no such column. *)
Definition user_licenses (df_users : DataFrame) (user : option str) : list cell :=
  let sheet := strip_columns df_users in
  match position USER_NAME (columns sheet), position LICENSE (columns sheet) with
  | Some pu, Some q =>
      map (fun r : list cell => nth q r None)
          (filter (fun r : list cell => cell_is user (nth pu r None)) (rows sheet))
  | _, _ => []
  end.

(** The run gets as far as the manual view [manual] and the list
    [report] of the bulk mode. *)
Definition builds (df_users df_license_master : DataFrame) (choice : nat)
    (manual : UserAssessment) (report : list ReportRow) : Prop :=
  exists m, merged df_users df_license_master = Ok m
            /\ manual_mode m choice = Ok manual
            /\ user_results m = Ok report.

(** Two ASCII texts that differ at most in the case of their letters. *)
Definition same_letters (s t : str) : Prop :=
  Forall2 (fun a b => a < 128 /\ b < 128 /\ to_lower_full a = to_lower_full b) s t.

(** The facts about two ASCII code points with the same lower case that
    the proofs use, as one test: they are white space together, cased
    together, and have the same title case and upper case. *)
Definition case_pair (a b : char) : bool :=
  if str_eqb (to_lower_full a) (to_lower_full b) then
    Bool.eqb (is_space a) (is_space b) && Bool.eqb (is_cased a) (is_cased b)
    && str_eqb (to_title_full a) (to_title_full b)
    && str_eqb (to_upper_full a) (to_upper_full b)
  else true.

(** The largest rank among the entries of a list that normalise to a
    tier, 0 when there is none, and the name that goes with a rank. *)
Definition highest_rank (license_list : list value) : Z :=
  fold_right Z.max 0%Z (map rank_of (valid_licenses license_list)).

Definition tier_of_rank (rank : Z) : value :=
  if (rank =? 3)%Z then PStr (lit "Professional")
  else if (rank =? 2)%Z then PStr (lit "Functional")
  else if (rank =? 1)%Z then PStr (lit "Productivity")
  else PStr NO_DATA.

(** The [User ID] cells of the records of [user] in the users sheet, in
    the order of the sheet; none when the sheet has no such column. *)
Definition user_ids (df_users : DataFrame) (user : option str) : list cell :=
  let sheet := strip_columns df_users in
  match position USER_NAME (columns sheet), position USER_ID (columns sheet) with
  | Some pu, Some q =>
      map (fun r : list cell => nth q r None)
          (filter (fun r : list cell => cell_is user (nth pu r None)) (rows sheet))
  | _, _ => []
  end.

(** The cleaned [License Type] cells of the master rows whose code
    matches a record of [user], record by record in the order of the users
    sheet. *)
Definition matched_tiers (df_users df_license_master : DataFrame) (user : option str)
    : list cell :=
  let activity := cleaned_users df_users in
  let catalog := cleaned_master df_license_master in
  match position USER_NAME (columns activity) with
  | Some pu =>
      flat_map (fun l : list cell =>
                  map (key_of catalog LICENSE_TYPE) (matching activity catalog TCODE l))
               (filter (fun l : list cell => cell_is user (nth pu l None)) (rows activity))
  | None => []
  end.

(** The number of rows a record has in the joined frame: one per master
    row with its cleaned code, one if there is none. *)
Definition match_weight (df_users df_license_master : DataFrame) (l : list cell) : nat :=
  Nat.max 1 (length (matching (cleaned_users df_users)
                       (cleaned_master df_license_master) TCODE l)).

(** The [License] cells of the records of [user], each as often as its
    record has rows in the joined frame. *)
Definition weighted_licenses (df_users df_license_master : DataFrame) (user : option str)
    : list cell :=
  let activity := cleaned_users df_users in
  match position USER_NAME (columns activity), position LICENSE (columns activity) with
  | Some pu, Some q =>
      flat_map (fun l : list cell =>
                  repeat (nth q l None) (match_weight df_users df_license_master l))
               (filter (fun l : list cell => cell_is user (nth pu l None)) (rows activity))
  | _, _ => []
  end.

(** The labels of the frame [merged]. *)
Definition merged_labels (df_users df_license_master : DataFrame) : list str :=
  match position TCODE (columns (cleaned_master df_license_master)) with
  | Some j =>
      columns (joined (cleaned_users df_users) (cleaned_master df_license_master) O j)
  | None => []
  end.

(** Sheets whose labels, once stripped, are pairwise distinct, and whose
    merged frame has pairwise distinct labels: no label of one sheet,
    suffixed, is another label. *)
Definition well_labelled (df_users df_license_master : DataFrame) : Prop :=
  NoDup (columns (strip_columns df_users))
  /\ NoDup (columns (strip_columns df_license_master))
  /\ NoDup (merged_labels df_users df_license_master).

(** A test for pairwise distinct labels. *)
Fixpoint distinct (l : list str) : bool :=
  match l with
  | [] => true
  | x :: l' => negb (existsb (str_eqb x) l') && distinct l'
  end.

(** Every cell of column [c] of a sheet holds ASCII text; none is empty. *)
Definition ascii_cells (df : DataFrame) (c : str) : Prop :=
  forall r, In r (rows df) ->
    exists s, key_of (strip_columns df) c r = Some s /\ ascii_text s.

(** The cells of a row other than its key. *)
Definition without_key (df : DataFrame) (on : str) (r : list cell) : list cell :=
  match position on (columns df) with
  | Some j => remove_at j r
  | None => r
  end.

(** ** Sheets used as examples *)

Definition ex_users : DataFrame :=
  {| columns := [lit "User Name"; lit "Tcode "; lit "License"];
     rows := [ [Some (lit "Bob"); Some (lit "zz01"); None];
               [Some (lit "Alice"); Some (lit " su01"); Some (lit "Professional")];
               [Some (lit "Alice"); Some (lit "va01"); Some (lit "Professional")];
               [None; Some (lit "va01"); Some (lit "Professional")];
               [Some (lit "Carol"); Some (lit "VA01"); Some (lit "functional")] ] |}.

Definition ex_master : DataFrame :=
  {| columns := [lit "Tcode"; lit "License Type"; lit "Description"];
     rows := [ [Some (lit "SU01"); Some (lit "productivity"); None];
               [Some (lit "VA01"); Some (lit "FUNCTIONAL"); Some (lit "x")] ] |}.

(** A users sheet and a master sheet that lists one transaction code three
    times. *)
Definition dup_users : DataFrame :=
  {| columns := [lit "User Name"; lit "Tcode"; lit "License"];
     rows := [ [Some (lit "Dana"); Some (lit "SU01"); Some (lit "Functional")];
               [Some (lit "Dana"); Some (lit "VA01"); Some (lit "Professional")];
               [Some (lit "Dana"); Some (lit "VA02"); Some (lit "Professional")] ] |}.

Definition dup_master : DataFrame :=
  {| columns := [lit "Tcode"; lit "License Type"];
     rows := [ [Some (lit "SU01"); Some (lit "Productivity")];
               [Some (lit "SU01"); Some (lit "Functional")];
               [Some (lit "SU01"); Some (lit "Professional")] ] |}.

(** A users sheet without the [User Name] column. *)
Definition users_without_name : DataFrame :=
  {| columns := [lit "Tcode"; lit "License"];
     rows := [ [Some (lit "SU01"); Some (lit "Functional")] ] |}.

(** A users sheet with user ids, a users sheet with a [License Type]
    column of its own, and master sheets that repeat a label of the users
    sheet. *)
Definition ex_users_ids : DataFrame :=
  {| columns := [lit "User ID"; lit "User Name"; lit "Tcode"; lit "License"];
     rows := [ [Some (lit "U2"); Some (lit "Bob"); Some (lit "va01"); None];
               [Some (lit "U1"); Some (lit "Alice"); Some (lit "su01"); Some (lit "Functional")];
               [None; Some (lit "Bob"); Some (lit "su01"); None];
               [Some (lit "U9"); Some (lit "Alice"); Some (lit "zz99"); Some (lit "Functional")] ] |}.

Definition ex_users_tier : DataFrame :=
  {| columns := [lit "User Name"; lit "Tcode"; lit "License Type"];
     rows := [ [Some (lit "Alice"); Some (lit "SU01"); Some (lit "Functional")] ] |}.

Definition ex_master_license : DataFrame :=
  {| columns := [lit "Tcode"; lit "License Type"; lit "License"];
     rows := [ [Some (lit "SU01"); Some (lit "Productivity"); Some (lit "Basic")] ] |}.

Definition ex_master_name : DataFrame :=
  {| columns := [lit "Tcode"; lit "License Type"; lit "User Name"];
     rows := [ [Some (lit "SU01"); Some (lit "Productivity"); Some (lit "Owner")] ] |}.

(** A users sheet with two labels that strip to [Tcode], and one with a
    label that the suffix of the join produces a second time. *)
Definition users_tcode_twice : DataFrame :=
  {| columns := [lit "User Name"; lit "Tcode"; lit "Tcode "];
     rows := [ [Some (lit "Alice"); Some (lit "SU01"); Some (lit "VA01")] ] |}.

Definition users_license_x : DataFrame :=
  {| columns := [lit "User Name"; lit "Tcode"; lit "License"; lit "License_x"];
     rows := [ [Some (lit "Alice"); Some (lit "SU01"); Some (lit "Functional"); None] ] |}.

(** ** Basic facts about text and values *)

Lemma str_eqb_eq (s t : str) : str_eqb s t = true <-> s = t.
Proof.
  unfold str_eqb. destruct (list_eq_dec N.eq_dec s t); split; congruence.
Qed.

Lemma str_eqb_refl (s : str) : str_eqb s s = true.
Proof. now apply str_eqb_eq. Qed.

Lemma str_eqb_neq (s t : str) : str_eqb s t = false <-> s <> t.
Proof.
  unfold str_eqb. destruct (list_eq_dec N.eq_dec s t); split; congruence.
Qed.

Lemma normalize_license_shape (x : value) :
  normalize_license x = PNone \/ exists s, normalize_license x = PStr s.
Proof.
  unfold normalize_license. destruct (isna x); [now left | right; eauto].
Qed.

Lemma str_eqb_sym (s t : str) : str_eqb s t = str_eqb t s.
Proof.
  unfold str_eqb.
  destruct (list_eq_dec N.eq_dec s t), (list_eq_dec N.eq_dec t s); congruence.
Qed.

Lemma eqb_normalized (a b : value) :
  Py.eqb (normalize_license a) (normalize_license b) = true
  <-> normalize_license a = normalize_license b.
Proof.
  destruct (normalize_license_shape a) as [Ha | [s Ha]],
           (normalize_license_shape b) as [Hb | [t Hb]];
    rewrite Ha, Hb; simpl; try rewrite str_eqb_eq;
    split; intros H; try reflexivity; try discriminate; congruence.
Qed.

(** The priority table read with [.get(_, 0)] is [rank_of]. *)
Lemma rank_of_get (v : value) : get LICENSE_PRIORITY v 0 = rank_of v.
Proof.
  destruct v as [| |s|z]; try reflexivity.
  unfold get, find, LICENSE_PRIORITY, lookup, rank_of.
  rewrite (str_eqb_sym s (lit "Productivity")), (str_eqb_sym s (lit "Functional")),
    (str_eqb_sym s (lit "Professional")).
  destruct (str_eqb (lit "Professional") s) eqn:E3;
    [apply str_eqb_eq in E3; subst s; reflexivity|].
  destruct (str_eqb (lit "Functional") s) eqn:E2;
    [apply str_eqb_eq in E2; subst s; reflexivity|].
  destruct (str_eqb (lit "Productivity") s); reflexivity.
Qed.

Lemma contains_TIERS (v : value) :
  contains LICENSE_PRIORITY v = true <-> In v TIERS.
Proof.
  unfold contains, TIERS. destruct v as [| |s|z]; simpl;
    try (split; [discriminate | intros [H|[H|[H|[]]]]; discriminate]).
  destruct (str_eqb (lit "Professional") s) eqn:E3.
  { apply str_eqb_eq in E3; subst s. split; auto. }
  destruct (str_eqb (lit "Functional") s) eqn:E2.
  { apply str_eqb_eq in E2; subst s. split; auto. }
  destruct (str_eqb (lit "Productivity") s) eqn:E1.
  { apply str_eqb_eq in E1; subst s. split; auto. }
  apply str_eqb_neq in E1, E2, E3.
  split; [discriminate | intros [H|[H|[H|[]]]]; congruence].
Qed.

Lemma rank_of_TIERS (v : value) : In v TIERS -> (1 <= rank_of v <= 3)%Z.
Proof. intros [H|[H|[H|[]]]]; subst v; vm_compute; split; discriminate. Qed.

Lemma rank_of_not_TIERS (v : value) : ~ In v TIERS -> rank_of v = 0%Z.
Proof.
  intros H. rewrite <- rank_of_get. unfold get.
  rewrite <- contains_TIERS in H. unfold contains in H.
  destruct (find LICENSE_PRIORITY v); [now elim H | reflexivity].
Qed.

(** No two tiers share a rank. *)
Lemma rank_of_injective (a b : value) :
  In a TIERS -> In b TIERS -> rank_of a = rank_of b -> a = b.
Proof.
  intros [Ha|[Ha|[Ha|[]]]] [Hb|[Hb|[Hb|[]]]]; subst a b; intros H;
    try reflexivity; vm_compute in H; discriminate.
Qed.

Lemma getitem_TIERS (v : value) :
  In v TIERS -> getitem LICENSE_PRIORITY v = Ok (rank_of v).
Proof. intros [H|[H|[H|[]]]]; subst v; reflexivity. Qed.

Lemma compare_cascade {T : Type} (a b : Z) (over under review : T) :
  (if (b <? a)%Z then over else if (a <? b)%Z then under else review)
  = match (a ?= b)%Z with Gt => over | Lt => under | Eq => review end.
Proof.
  unfold Z.ltb. rewrite (Z.compare_antisym a b).
  destruct (a ?= b)%Z; reflexivity.
Qed.

Lemma determine_status_classify (current recommended : value) :
  determine_status current recommended = classify current recommended.
Proof.
  unfold determine_status, classify. rewrite !rank_of_get, compare_cascade.
  destruct (normalize_license_shape current) as [Hc | [s Hc]],
           (normalize_license_shape recommended) as [Hr | [t Hr]];
    rewrite Hc, Hr; try reflexivity.
  unfold Py.eqb, str_eqb. destruct (list_eq_dec N.eq_dec s t); reflexivity.
Qed.

Lemma determine_status_same (x : value) : determine_status x x = OPTIMIZED.
Proof.
  unfold determine_status.
  replace (Py.eqb (normalize_license x) (normalize_license x)) with true;
    [reflexivity | symmetry; now apply eqb_normalized].
Qed.

Lemma determine_status_in (current recommended : value) :
  In (determine_status current recommended) STATUSES.
Proof.
  unfold determine_status, STATUSES.
  destruct (Py.eqb _ _); [now left|].
  destruct (_ <? _)%Z; [right; now left|].
  destruct (_ <? _)%Z; [right; right; now left | right; right; right; now left].
Qed.

(** ** The pure functions: classification *)

(** C1: [determine_status] is the four-case [classify] of the
    specification on every pair of values, sentinels and absent values
    included: Optimized when the normalised values are equal, otherwise
    Over-Licensed, Under-Licensed or Review as the rank of the normalised
    current value is above, below or equal to that of the recommended one,
    a value outside the table ranking 0.  The table read with a default of
    0 is [rank_of]; the result is always one of the four status texts,
    which are pairwise different; and a value compared with itself, so
    every tier, is Optimized. *)
Theorem determine_status_four_cases :
  (forall current recommended : value,
      determine_status current recommended = classify current recommended
      /\ In (determine_status current recommended) STATUSES)
  /\ (forall v : value, get LICENSE_PRIORITY v 0 = rank_of v)
  /\ Forall (fun t => determine_status t t = OPTIMIZED) TIERS
  /\ (forall x : value, determine_status x x = OPTIMIZED)
  /\ NoDup STATUSES
  /\ rank_of (normalize_license (PStr NOT_ASSIGNED)) = 0%Z
  /\ rank_of (normalize_license (PStr NO_DATA)) = 0%Z
  /\ rank_of (normalize_license PNone) = 0%Z
  /\ rank_of (normalize_license PNaN) = 0%Z.
Proof.
  split; [|split; [|split; [|split; [|split]]]].
  - intros c r. split; [apply determine_status_classify | apply determine_status_in].
  - apply rank_of_get.
  - apply Forall_forall. intros t _. apply determine_status_same.
  - apply determine_status_same.
  - unfold STATUSES.
    repeat (constructor; [simpl; intros H;
      repeat (destruct H as [H|H]; [vm_compute in H; discriminate|]); exact H|]).
    constructor.
  - repeat split; reflexivity.
Qed.

(** C6: the sentinels [Not Assigned] and [No Data] are different texts also
    after normalisation, neither is in the priority table, so both rank 0,
    and [determine_status] on them is Review, which is not Optimized; so
    the report row of Bob, who has no license cell and no transaction code
    of the master sheet, says Not Assigned, No Data, Review. *)
Theorem determine_status_sentinels :
  determine_status (PStr NOT_ASSIGNED) (PStr NO_DATA) = REVIEW
  /\ Py.eqb (normalize_license (PStr NOT_ASSIGNED)) (normalize_license (PStr NO_DATA)) = false
  /\ get LICENSE_PRIORITY (normalize_license (PStr NOT_ASSIGNED)) 0 = 0%Z
  /\ get LICENSE_PRIORITY (normalize_license (PStr NO_DATA)) 0 = 0%Z
  /\ REVIEW <> OPTIMIZED
  /\ exists manual report,
       run ex_users ex_master 0 = Ok (manual, report)
       /\ In {| r_user_name := lit "Bob"; r_user_id := Some (lit "N/A");
                r_current := NOT_ASSIGNED; r_recommended := PStr NO_DATA;
                r_status := REVIEW |} report.
Proof.
  repeat (split; [reflexivity|]).
  split; [intros H; vm_compute in H; discriminate|].
  eexists. eexists. split; [vm_compute; reflexivity|].
  right. left. reflexivity.
Qed.

(** C10: when both arguments normalise to tiers of the priority table the
    result is Optimized, Over-Licensed or Under-Licensed, never Review; the
    ranks of two different tiers are different. *)
Theorem determine_status_no_review (current recommended : value) :
  contains LICENSE_PRIORITY (normalize_license current) = true ->
  contains LICENSE_PRIORITY (normalize_license recommended) = true ->
  In (determine_status current recommended) [OPTIMIZED; OVER_LICENSED; UNDER_LICENSED]
  /\ determine_status current recommended <> REVIEW
  /\ (normalize_license current <> normalize_license recommended ->
      get LICENSE_PRIORITY (normalize_license current) 0
      <> get LICENSE_PRIORITY (normalize_license recommended) 0).
Proof.
  intros Hc Hr. apply contains_TIERS in Hc, Hr.
  assert (Hinj : normalize_license current <> normalize_license recommended ->
                 get LICENSE_PRIORITY (normalize_license current) 0
                 <> get LICENSE_PRIORITY (normalize_license recommended) 0).
  { intros Hne Heq. rewrite !rank_of_get in Heq.
    apply Hne. now apply rank_of_injective. }
  assert (Hin : In (determine_status current recommended)
                   [OPTIMIZED; OVER_LICENSED; UNDER_LICENSED]).
  { unfold determine_status.
    destruct (Py.eqb _ _) eqn:E; [now left|].
    assert (Hne : normalize_license current <> normalize_license recommended).
    { intros H. apply eqb_normalized in H. congruence. }
    apply Hinj in Hne.
    destruct (Z.ltb_spec (get LICENSE_PRIORITY (normalize_license recommended) 0)
                (get LICENSE_PRIORITY (normalize_license current) 0)) as [E1|E1];
      [right; now left|].
    destruct (Z.ltb_spec (get LICENSE_PRIORITY (normalize_license current) 0)
                (get LICENSE_PRIORITY (normalize_license recommended) 0)) as [E2|E2];
      [right; right; now left|].
    elim Hne. now apply Z.le_antisymm. }
  repeat split; auto.
  intros H. rewrite H in Hin.
  repeat (destruct Hin as [Hin|Hin]; [vm_compute in Hin; discriminate|]). exact Hin.
Qed.

Lemma determine_status_no_review_witness :
  In (determine_status (PStr (lit " professional ")) (PStr (lit "FUNCTIONAL")))
     [OPTIMIZED; OVER_LICENSED; UNDER_LICENSED].
Proof.
  apply (determine_status_no_review (PStr (lit " professional ")) (PStr (lit "FUNCTIONAL")));
    reflexivity.
Defined.

(** ** The pure functions: the highest tier *)

Lemma max_by_spec {A : Type} (key : A -> outcome Z) (f : A -> Z) (rest : list A) :
  (forall x, In x rest -> key x = Ok (f x)) ->
  forall best : A,
  exists t, max_by key best (f best) rest = Ok t
            /\ In t (best :: rest)
            /\ forall x, In x (best :: rest) -> (f x <= f t)%Z.
Proof.
  induction rest as [|y rest IH]; intros Hkey best.
  - exists best. simpl. repeat split; auto. intros x [->|[]]. apply Z.le_refl.
  - simpl. rewrite (Hkey y (or_introl eq_refl)). simpl.
    assert (Hrest : forall x, In x rest -> key x = Ok (f x))
      by (intros x Hx; apply Hkey; now right).
    destruct (Z.ltb_spec (f best) (f y)) as [Hlt|Hge].
    + destruct (IH Hrest y) as (t & Ht & Hin & Hmax).
      exists t. split; [exact Ht|]. split.
      * destruct Hin as [->|Hin]; [right; now left | right; now right].
      * intros x [->|[->|Hx]].
        -- apply Z.le_trans with (f y); [now apply Z.lt_le_incl | apply Hmax; now left].
        -- apply Hmax; now left.
        -- apply Hmax; now right.
    + destruct (IH Hrest best) as (t & Ht & Hin & Hmax).
      exists t. split; [exact Ht|]. split.
      * destruct Hin as [->|Hin]; [now left | right; now right].
      * intros x [->|[->|Hx]].
        -- apply Hmax; now left.
        -- apply Z.le_trans with (f best); [exact Hge | apply Hmax; now left].
        -- apply Hmax; now right.
Qed.

Lemma valid_licenses_TIERS (l : list value) (t : value) :
  In t (valid_licenses l) -> In t TIERS.
Proof.
  unfold valid_licenses. intros H. apply filter_In in H. now apply contains_TIERS.
Qed.

(** What [get_highest_license] returns, in terms of [valid_licenses]. *)
Lemma get_highest_license_valid (l : list value) :
  (valid_licenses l = [] /\ get_highest_license l = Ok (PStr NO_DATA))
  \/ (exists t, get_highest_license l = Ok t
                /\ In t (valid_licenses l)
                /\ forall u, In u (valid_licenses l) -> (rank_of u <= rank_of t)%Z).
Proof.
  unfold get_highest_license. fold (valid_licenses l).
  destruct (valid_licenses l) as [|first rest] eqn:E; [left; now split | right].
  assert (Hall : forall x, In x (first :: rest) -> In x TIERS)
    by (intros x Hx; rewrite <- E in Hx; eapply valid_licenses_TIERS; eauto).
  unfold py_max. rewrite (getitem_TIERS first (Hall first (or_introl eq_refl))). simpl.
  apply max_by_spec. intros x Hx. apply getitem_TIERS, Hall. now right.
Qed.

(** A value that [if lic] drops does not normalise to a tier. *)
Lemma contains_normalized_truthy (x : value) :
  contains LICENSE_PRIORITY (normalize_license x) = true -> truthy x = true.
Proof.
  destruct x as [| |s|z]; simpl; try (intros; reflexivity || discriminate).
  - destruct s; [vm_compute; discriminate | reflexivity].
  - destruct (Z.eqb_spec z 0) as [->|]; [vm_compute; discriminate | reflexivity].
Qed.

Lemma valid_licenses_In (l : list value) (t : value) :
  In t (valid_licenses l)
  <-> exists x, In x l /\ normalize_license x = t /\ contains LICENSE_PRIORITY t = true.
Proof.
  unfold valid_licenses. rewrite filter_In, in_map_iff. split.
  - intros [(x & Hx & Hin) Hc]. apply filter_In in Hin as [Hin _]. eauto.
  - intros (x & Hin & Hx & Hc). split; [|exact Hc].
    exists x. split; [exact Hx|]. apply filter_In. split; [exact Hin|].
    apply contains_normalized_truthy. now rewrite Hx.
Qed.

Lemma get_highest_license_total (license_list : list value) :
  exists v, get_highest_license license_list = Ok v
            /\ In v (PStr NO_DATA :: TIERS).
Proof.
  destruct (get_highest_license_valid license_list) as [[_ H] | (t & H & Hin & _)].
  - exists (PStr NO_DATA). split; [exact H | now left].
  - exists t. split; [exact H | right; eapply valid_licenses_TIERS; eauto].
Qed.

(** C9: on every list [get_highest_license] returns, and what it returns is
    the sentinel [No Data] or one of the three tier names of the priority
    table, spelled as in the table; it is never an element of the list as
    it was given unless that element is such a name. *)
Theorem get_highest_license_closed (license_list : list value) :
  exists v, get_highest_license license_list = Ok v
            /\ In v [PStr (lit "No Data"); PStr (lit "Productivity");
                     PStr (lit "Functional"); PStr (lit "Professional")].
Proof. apply get_highest_license_total. Qed.

(** C2: on the empty list, and on a list none of whose elements normalises
    to a tier of the table, [get_highest_license] returns [No Data]; on a
    list with such an element it returns the normalised form of one of its
    elements, a tier whose rank is at least the rank of every element; the
    result does not depend on the order of the list; and the two lists of
    the specification give Professional and Productivity. *)
Theorem get_highest_license_spec :
  get_highest_license [] = Ok (PStr NO_DATA)
  /\ (forall l : list value,
        (forall x, In x l -> contains LICENSE_PRIORITY (normalize_license x) = false) ->
        get_highest_license l = Ok (PStr NO_DATA))
  /\ (forall l : list value,
        (exists x, In x l /\ contains LICENSE_PRIORITY (normalize_license x) = true) ->
        exists t, get_highest_license l = Ok t
                  /\ In t TIERS
                  /\ (exists x, In x l /\ normalize_license x = t)
                  /\ forall x, In x l ->
                       (rank_of (normalize_license x) <= rank_of t)%Z)
  /\ (forall l l' : list value,
        Permutation l l' -> get_highest_license l = get_highest_license l')
  /\ get_highest_license
       [PStr (lit "Productivity"); PStr (lit "Professional"); PStr (lit "Functional")]
     = Ok (PStr (lit "Professional"))
  /\ get_highest_license [PStr (lit "Productivity")] = Ok (PStr (lit "Productivity")).
Proof.
  assert (Hsome : forall l : list value,
            (exists x, In x l /\ contains LICENSE_PRIORITY (normalize_license x) = true) ->
            exists t, get_highest_license l = Ok t
                  /\ In t TIERS
                  /\ (exists x, In x l /\ normalize_license x = t)
                  /\ forall x, In x l ->
                       (rank_of (normalize_license x) <= rank_of t)%Z).
  { intros l (x0 & Hin0 & Hc0).
    destruct (get_highest_license_valid l) as [[Hnil _] | (t & H & Hin & Hmax)].
    - assert (Hx : In (normalize_license x0) (valid_licenses l))
        by (apply valid_licenses_In; eauto).
      rewrite Hnil in Hx. destruct Hx.
    - exists t. split; [exact H|].
      assert (Ht : In t TIERS) by (eapply valid_licenses_TIERS; eauto).
      split; [exact Ht|]. split.
      + apply valid_licenses_In in Hin as (x & Hx & Hn & _). eauto.
      + intros x Hx.
        destruct (contains LICENSE_PRIORITY (normalize_license x)) eqn:Hc.
        * apply Hmax, valid_licenses_In. eauto.
        * rewrite rank_of_not_TIERS.
          -- apply rank_of_TIERS in Ht. lia.
          -- intros Hx'. apply contains_TIERS in Hx'. congruence. }
  assert (Hnone : forall l : list value,
            (forall x, In x l -> contains LICENSE_PRIORITY (normalize_license x) = false) ->
            get_highest_license l = Ok (PStr NO_DATA)).
  { intros l Hall.
    destruct (get_highest_license_valid l) as [[_ H] | (t & _ & Hin & _)]; [exact H|].
    apply valid_licenses_In in Hin as (x & Hx & Hn & Hc).
    rewrite <- Hn, (Hall x Hx) in Hc. discriminate. }
  split; [reflexivity|]. split; [exact Hnone|]. split; [exact Hsome|].
  split; [|split; reflexivity].
  intros l l' Hperm.
  destruct (existsb (fun x => contains LICENSE_PRIORITY (normalize_license x)) l) eqn:E.
  - apply existsb_exists in E as (x & Hx & Hc).
    destruct (Hsome l) as (t & Ht & HtT & (y & Hy & Hyt) & Hmax); [eauto|].
    destruct (Hsome l') as (t' & Ht' & HtT' & (y' & Hy' & Hyt') & Hmax').
    { exists x. split; [eapply Permutation_in; eauto | exact Hc]. }
    rewrite Ht, Ht'. f_equal.
    apply rank_of_injective; auto. apply Z.le_antisymm.
    + rewrite <- Hyt. apply Hmax'. eapply Permutation_in; eauto.
    + rewrite <- Hyt'. apply Hmax. eapply Permutation_in; [apply Permutation_sym|]; eauto.
  - assert (Hall : forall x, In x l ->
                     contains LICENSE_PRIORITY (normalize_license x) = false).
    { intros x Hx. destruct (contains _ _) eqn:Hc; [|reflexivity].
      assert (existsb (fun x => contains LICENSE_PRIORITY (normalize_license x)) l = true)
        by (apply existsb_exists; eauto).
      congruence. }
    rewrite (Hnone l Hall). symmetry. apply Hnone.
    intros x Hx. apply Hall. eapply Permutation_in; [apply Permutation_sym|]; eauto.
Qed.

Lemma get_highest_license_spec_witness :
  get_highest_license [PStr (lit "Basic"); PNone; PStr []] = Ok (PStr NO_DATA).
Proof.
  apply (proj1 (proj2 get_highest_license_spec)).
  intros x [<-|[<-|[<-|[]]]]; reflexivity.
Defined.

(** ** The pure functions: normalisation *)

Lemma ascii_cases (p : char -> bool) :
  forallb p (map N.of_nat (seq 0 128)) = true ->
  forall c, c < 128 -> p c = true.
Proof.
  intros H c Hc. rewrite forallb_forall in H. apply H.
  apply in_map_iff. exists (N.to_nat c). split; [apply N2Nat.id|].
  apply in_seq. lia.
Qed.

Lemma ascii_case_stable (c : char) : c < 128 -> case_stable c = true.
Proof. apply ascii_cases. vm_compute. reflexivity. Qed.

(** One step of [do_title] on an ASCII code point. *)
Lemma do_title_step (b : bool) (c : char) :
  c < 128 ->
  exists c', (if b then to_lower_full c else to_title_full c) = [c']
             /\ is_space c' = is_space c
             /\ is_cased c' = is_cased c
             /\ (if b then to_lower_full c' else to_title_full c') = [c'].
Proof.
  intros Hc. apply ascii_case_stable in Hc. unfold case_stable in Hc.
  destruct (to_lower_full c) as [|l [|? ?]]; try discriminate.
  destruct (to_title_full c) as [|t [|? ?]]; try discriminate.
  repeat (apply andb_prop in Hc as [Hc ?]).
  repeat match goal with
         | H : Bool.eqb _ _ = true |- _ => apply Bool.eqb_prop in H
         | H : str_eqb _ _ = true |- _ => apply str_eqb_eq in H
         end.
  destruct b; [exists l | exists t]; auto.
Qed.

Lemma do_title_idempotent (s : str) :
  ascii_text s -> forall b, do_title b (do_title b s) = do_title b s.
Proof.
  induction 1 as [|c s Hc Hs IH]; intros b; [reflexivity|].
  simpl. destruct (do_title_step b c Hc) as (c' & E & _ & Hcased & E').
  rewrite E. simpl. rewrite E', Hcased, IH. reflexivity.
Qed.

Lemma do_title_spaces (s : str) :
  ascii_text s -> forall b, map is_space (do_title b s) = map is_space s.
Proof.
  induction 1 as [|c s Hc Hs IH]; intros b; [reflexivity|].
  simpl. destruct (do_title_step b c Hc) as (c' & E & Hsp & _ & _).
  rewrite E. simpl. now rewrite Hsp, IH.
Qed.

Lemma starts_clean_spaces (s t : str) :
  map is_space s = map is_space t -> starts_clean s = starts_clean t.
Proof.
  destruct s, t; simpl; intros H; try discriminate; [reflexivity|].
  injection H as H _. now rewrite H.
Qed.

Lemma lstrip_clean (s : str) : starts_clean s = true -> lstrip s = s.
Proof.
  destruct s as [|c s]; [reflexivity|]. simpl. now destruct (is_space c).
Qed.

Lemma starts_clean_lstrip (s : str) : starts_clean (lstrip s) = true.
Proof.
  induction s as [|c s IH]; [reflexivity|]. simpl.
  destruct (is_space c) eqn:E; [exact IH | simpl; now rewrite E].
Qed.

Lemma lstrip_suffix (s : str) : exists w, s = w ++ lstrip s.
Proof.
  induction s as [|c s [w IH]]; [now exists []|]. simpl.
  destruct (is_space c); [exists (c :: w); simpl; now f_equal | now exists []].
Qed.

Lemma rstrip_prefix (s : str) : exists w, s = rstrip s ++ w.
Proof.
  unfold rstrip. destruct (lstrip_suffix (rev s)) as [w Hw].
  exists (rev w). rewrite <- rev_app_distr, <- Hw. now rewrite rev_involutive.
Qed.

Lemma strip_clean (s : str) :
  starts_clean s = true -> starts_clean (rev s) = true -> strip s = s.
Proof.
  intros H1 H2. unfold strip, rstrip.
  rewrite (lstrip_clean _ H1), (lstrip_clean _ H2). apply rev_involutive.
Qed.

Lemma starts_clean_strip (s : str) :
  starts_clean (strip s) = true /\ starts_clean (rev (strip s)) = true.
Proof.
  unfold strip. split.
  - pose proof (starts_clean_lstrip s) as H.
    destruct (rstrip_prefix (lstrip s)) as [w Hw].
    destruct (rstrip (lstrip s)) as [|c u]; [reflexivity|].
    rewrite Hw in H. exact H.
  - unfold rstrip. rewrite rev_involutive. apply starts_clean_lstrip.
Qed.

Lemma ascii_text_lstrip (s : str) : ascii_text s -> ascii_text (lstrip s).
Proof.
  induction 1 as [|c s Hc Hs IH]; [constructor|]. simpl.
  destruct (is_space c); [exact IH | now constructor].
Qed.

Lemma ascii_text_strip (s : str) : ascii_text s -> ascii_text (strip s).
Proof.
  intros H. unfold strip, rstrip, ascii_text.
  apply Forall_rev, ascii_text_lstrip, Forall_rev, ascii_text_lstrip, H.
Qed.

Lemma title_strip_idempotent (s : str) :
  ascii_text s -> title (strip (title (strip s))) = title (strip s).
Proof.
  intros Hs. apply ascii_text_strip in Hs.
  destruct (starts_clean_strip s) as [H1 H2].
  set (u := strip s) in *. unfold title.
  rewrite (strip_clean (do_title false u)).
  - now apply do_title_idempotent.
  - rewrite <- H1. apply starts_clean_spaces. now apply do_title_spaces.
  - rewrite <- H2. apply starts_clean_spaces.
    rewrite !map_rev. f_equal. now apply do_title_spaces.
Qed.

(** C7, as amended: [normalize_license] maps an absent value ([None], NaN)
    to [None], and on every value whose text is ASCII normalising twice
    gives what normalising once gives. *)
Theorem normalize_license_idempotent_ascii :
  normalize_license PNone = PNone
  /\ normalize_license PNaN = PNone
  /\ forall x : value,
       ascii_text (str_of x) ->
       normalize_license (normalize_license x) = normalize_license x.
Proof.
  split; [reflexivity|]. split; [reflexivity|].
  intros x Hx. unfold normalize_license at 2 3.
  destruct (isna x); [reflexivity|].
  unfold normalize_license. simpl. f_equal. now apply title_strip_idempotent.
Qed.

Lemma normalize_license_idempotent_ascii_witness :
  normalize_license (normalize_license (PStr (lit "  o'neil pro-user 2x ")))
  = normalize_license (PStr (lit "  o'neil pro-user 2x ")).
Proof.
  apply (proj2 (proj2 normalize_license_idempotent_ascii)).
  unfold ascii_text. simpl. repeat constructor.
Defined.

(** C7, as stated, fails outside ASCII: lower-casing U+0130 after a cased
    letter leaves the uncased U+0307 behind, and the letter after it is
    title-cased by the second pass only. *)
Lemma normalize_license_not_idempotent :
  normalize_license (normalize_license (PStr [0x61; 0x130; 0x62]))
  <> normalize_license (PStr [0x61; 0x130; 0x62]).
Proof. vm_compute. discriminate. Qed.

(** ** Frames: labels and positions *)

Lemma position_Some (c : str) (cols : list str) (i : nat) :
  position c cols = Some i -> (i < length cols)%nat /\ nth i cols [] = c.
Proof.
  revert i. induction cols as [|c' cols IH]; intros i; simpl; [discriminate|].
  destruct (str_eqb c' c) eqn:E.
  - intros [= <-]. apply str_eqb_eq in E. split; [lia | exact E].
  - destruct (position c cols) as [k|]; [|discriminate].
    intros [= <-]. destruct (IH k eq_refl). split; [lia | assumption].
Qed.

Lemma position_None (c : str) (cols : list str) :
  position c cols = None <-> ~ In c cols.
Proof.
  induction cols as [|c' cols IH]; simpl; [tauto|].
  destruct (str_eqb c' c) eqn:E.
  - apply str_eqb_eq in E. split; [discriminate | intros H; elim H; now left].
  - apply str_eqb_neq in E. destruct (position c cols).
    + split; [discriminate|]. intros H. exfalso. apply H. right.
      destruct (in_dec (list_eq_dec N.eq_dec) c cols) as [Hin|Hin]; [exact Hin|].
      apply IH in Hin. discriminate.
    + split; [|reflexivity]. intros _ [H|H]; [congruence | now apply IH].
Qed.

Lemma has_column_In (df : DataFrame) (c : str) :
  has_column df c = true <-> In c (columns df).
Proof.
  unfold has_column. destruct (position c (columns df)) eqn:E.
  - split; [|reflexivity]. intros _.
    destruct (in_dec (list_eq_dec N.eq_dec) c (columns df)) as [H|H]; [exact H|].
    apply position_None in H. congruence.
  - apply position_None in E. split; [discriminate | tauto].
Qed.

Lemma has_column_position (df : DataFrame) (c : str) :
  has_column df c = true -> exists i, position c (columns df) = Some i.
Proof. unfold has_column. destruct (position c (columns df)); [eauto | discriminate]. Qed.

Lemma position_app_left (c : str) (a b : list str) (i : nat) :
  position c a = Some i -> position c (a ++ b) = Some i.
Proof.
  revert i. induction a as [|c' a IH]; intros i; simpl; [discriminate|].
  destruct (str_eqb c' c); [auto|].
  destruct (position c a) as [k|]; [|discriminate].
  intros [= <-]. now rewrite (IH k eq_refl).
Qed.

Lemma position_app_right (c : str) (a b : list str) :
  position c a = None ->
  position c (a ++ b) = option_map (fun k => (length a + k)%nat) (position c b).
Proof.
  induction a as [|c' a IH]; simpl.
  - intros _. destruct (position c b); reflexivity.
  - destruct (str_eqb c' c); [discriminate|].
    destruct (position c a); [discriminate|]. intros _.
    rewrite (IH eq_refl). destruct (position c b); reflexivity.
Qed.

Lemma position_map (f : str -> str) (t : str) (cols : list str) :
  (forall c, In c cols -> str_eqb (f c) t = str_eqb c t) ->
  position t (map f cols) = position t cols.
Proof.
  induction cols as [|c cols IH]; intros H; [reflexivity|]. simpl.
  rewrite (H c (or_introl eq_refl)), IH; [reflexivity|].
  intros c' Hc'. apply H. now right.
Qed.

Lemma position_remove_at (t on : str) (cols : list str) (j : nat) :
  position on cols = Some j -> t <> on ->
  (position t (remove_at j cols) = None <-> position t cols = None).
Proof.
  rewrite !position_None. intros Hj Hne.
  apply position_Some in Hj as [Hlt Hnth].
  unfold remove_at.
  rewrite <- (firstn_skipn j cols) at 3.
  rewrite !in_app_iff.
  assert (Hsk : skipn j cols = on :: skipn (S j) cols).
  { clear Hne. revert j Hlt Hnth. induction cols as [|c cols IH]; intros j Hlt Hnth;
      [simpl in Hlt; lia|].
    destruct j; simpl in *; [now subst|]. apply IH; [lia | exact Hnth]. }
  rewrite Hsk. simpl. split; intros H [H'|H']; apply H; auto.
  destruct H' as [H'|H']; [congruence | auto].
Qed.

Lemma nth_update_at_other {A : Type} (f : A -> A) (d : A) (l : list A) (i p : nat) :
  p <> i -> nth p (update_at i f l) d = nth p l d.
Proof.
  revert i p. induction l as [|x l IH]; intros i p Hne; [now destruct i|].
  destruct i, p; simpl; try reflexivity; try lia. apply IH. lia.
Qed.

Lemma length_update_at {A : Type} (f : A -> A) (l : list A) (i : nat) :
  length (update_at i f l) = length l.
Proof.
  revert i. induction l as [|x l IH]; intros i; [now destruct i|].
  destruct i; simpl; [reflexivity | now rewrite IH].
Qed.

Lemma map_column_columns (c : str) (f : cell -> cell) (df : DataFrame) :
  columns (map_column c f df) = columns df.
Proof. unfold map_column. now destruct (position c (columns df)). Qed.

Lemma map_column_length (c : str) (f : cell -> cell) (df : DataFrame) :
  length (rows (map_column c f df)) = length (rows df).
Proof.
  unfold map_column. destruct (position c (columns df)); [|reflexivity].
  simpl. apply length_map.
Qed.

Lemma map_column_rectangular (c : str) (f : cell -> cell) (df : DataFrame) :
  rectangular df -> rectangular (map_column c f df).
Proof.
  unfold rectangular, map_column. intros H.
  destruct (position c (columns df)); [|exact H]. simpl.
  apply Forall_map. eapply Forall_impl; [|exact H].
  intros r Hr. simpl. now rewrite length_update_at.
Qed.

Lemma has_column_map_column (c c' : str) (f : cell -> cell) (df : DataFrame) :
  has_column (map_column c f df) c' = has_column df c'.
Proof. unfold has_column. now rewrite map_column_columns. Qed.

(** ** The join *)

Lemma distinct_NoDup (l : list str) : distinct l = true -> NoDup l.
Proof.
  induction l as [|x l IH]; intros H; [constructor|].
  simpl in H. apply andb_prop in H as [Hx Hl]. constructor; [|now apply IH].
  intros Hin. apply negb_true_iff in Hx.
  assert (existsb (str_eqb x) l = true); [|congruence].
  apply existsb_exists. exists x. split; [exact Hin | apply str_eqb_refl].
Qed.

Lemma count_label_absent (c : str) (cols : list str) :
  ~ In c cols -> count_label c cols = O.
Proof.
  unfold count_label. induction cols as [|x cols IH]; intros H; [reflexivity|].
  simpl. destruct (str_eqb c x) eqn:E.
  - apply str_eqb_eq in E. elim H. now left.
  - apply IH. intros Hin. apply H. now right.
Qed.

Lemma count_label_once (c : str) (cols : list str) :
  NoDup cols -> In c cols -> count_label c cols = 1%nat.
Proof.
  unfold count_label. induction 1 as [|x cols Hx Hnd IH]; intros Hin; [destruct Hin|].
  simpl. destruct (str_eqb c x) eqn:E.
  - apply str_eqb_eq in E. subst x. simpl. f_equal. now apply count_label_absent.
  - apply str_eqb_neq in E. destruct Hin as [Hin|Hin]; [congruence | now apply IH].
Qed.

Lemma count_label_has (df : DataFrame) (c : str) :
  count_label c (columns df) = 1%nat -> has_column df c = true.
Proof.
  intros H. apply has_column_In.
  destruct (in_dec (list_eq_dec N.eq_dec) c (columns df)) as [Hin|Hin]; [exact Hin|].
  rewrite (count_label_absent _ _ Hin) in H. discriminate.
Qed.

Lemma new_duplicates_NoDup (seen_before seen_after before after : list str) :
  NoDup after ->
  (forall a, In a after -> ~ In a seen_after) ->
  new_duplicates seen_before seen_after before after = false.
Proof.
  intros Hnd. revert seen_before seen_after before.
  induction Hnd as [|a after Ha Hnd IH]; intros seen_before seen_after before Hseen.
  - now destruct before.
  - destruct before as [|b before]; [reflexivity|]. simpl.
    replace (existsb (str_eqb a) seen_after) with false.
    + simpl. apply IH. intros a' Ha' [<-|Hin]; [contradiction|].
      apply (Hseen a'); [now right | exact Hin].
    + symmetry. destruct (existsb (str_eqb a) seen_after) eqn:E; [|reflexivity].
      apply existsb_exists in E as (x & Hx & Ex). apply str_eqb_eq in Ex. subst x.
      elim (Hseen a (or_introl eq_refl) Hx).
Qed.

Lemma suffix_collision_NoDup (before after : list str) :
  NoDup after -> suffix_collision before after = false.
Proof. intros H. apply new_duplicates_NoDup; [exact H | intros a _ []]. Qed.

(** The merge of two frames whose joined labels are pairwise distinct. *)
Lemma merge_left_ok (left right : DataFrame) (i j : nat) :
  position TCODE (columns left) = Some i ->
  position TCODE (columns right) = Some j ->
  NoDup (columns (joined left right i j)) ->
  merge_left left right TCODE = Ok (joined left right i j).
Proof.
  intros Hi Hj Hnd. unfold merge_left. rewrite Hi, Hj. simpl in Hnd.
  cbv zeta.
  rewrite (suffix_collision_NoDup (columns left)),
          (suffix_collision_NoDup (remove_at j (columns right))).
  - reflexivity.
  - eapply NoDup_app_remove_l; eauto.
  - eapply NoDup_app_remove_r; eauto.
Qed.

Lemma assign_cleaned_once (c : str) (f : cell -> cell) (df : DataFrame) :
  count_label c (columns df) = 1%nat -> assign_cleaned c f df = Ok (map_column c f df).
Proof. intros H. unfold assign_cleaned. now rewrite H. Qed.

Lemma merged_eq (df_users df_license_master : DataFrame) :
  has_column (strip_columns df_users) TCODE = true ->
  has_column (strip_columns df_license_master) TCODE = true ->
  has_column (strip_columns df_license_master) LICENSE_TYPE = true ->
  NoDup (columns (strip_columns df_users)) ->
  NoDup (columns (strip_columns df_license_master)) ->
  merged df_users df_license_master
  = merge_left (cleaned_users df_users) (cleaned_master df_license_master) TCODE.
Proof.
  intros H1 H2 H3 Nu Nm. unfold merged. rewrite H1, H2. simpl.
  rewrite (assign_cleaned_once TCODE clean_tcode (strip_columns df_users))
    by (apply count_label_once; [exact Nu | now apply has_column_In]).
  simpl.
  rewrite (assign_cleaned_once TCODE clean_tcode (strip_columns df_license_master))
    by (apply count_label_once; [exact Nm | now apply has_column_In]).
  simpl. rewrite has_column_map_column, H3.
  rewrite assign_cleaned_once; [reflexivity|].
  rewrite map_column_columns.
  apply count_label_once; [exact Nm | now apply has_column_In].
Qed.

(** The frame [merged] of well-labelled sheets that pass the checks. *)
Lemma merged_joined (df_users df_license_master : DataFrame) (i j : nat) :
  has_column (strip_columns df_users) TCODE = true ->
  has_column (strip_columns df_license_master) TCODE = true ->
  has_column (strip_columns df_license_master) LICENSE_TYPE = true ->
  well_labelled df_users df_license_master ->
  position TCODE (columns (cleaned_users df_users)) = Some i ->
  position TCODE (columns (cleaned_master df_license_master)) = Some j ->
  merged df_users df_license_master
  = Ok (joined (cleaned_users df_users) (cleaned_master df_license_master) i j).
Proof.
  intros H1 H2 H3 (Nu & Nm & Nj) Hi Hj.
  rewrite (merged_eq _ _ H1 H2 H3 Nu Nm).
  apply merge_left_ok; [exact Hi | exact Hj |].
  unfold merged_labels in Nj. rewrite Hj in Nj. exact Nj.
Qed.

Lemma join_row_block (i j width : nat) (right_rows : list (list cell)) (l : list cell) :
  let block := join_row i j width right_rows l in
  let found := filter (fun r : list cell => cell_eqb (nth i l None) (nth j r None)) right_rows in
  block <> []
  /\ (forall r, In r block -> firstn (length l) r = l)
  /\ (found = [] -> block = [l ++ repeat None width])
  /\ (found <> [] -> length block = length found).
Proof.
  simpl. unfold join_row.
  destruct (filter (fun r : list cell => cell_eqb (nth i l None) (nth j r None)) right_rows)
    as [|r0 found] eqn:E.
  - repeat split; try discriminate; try congruence.
    intros r [<-|[]]. rewrite firstn_app, Nat.sub_diag, firstn_all. simpl.
    apply app_nil_r.
  - repeat split; try discriminate.
    + intros r Hr. apply in_map_iff in Hr as (r' & <- & _).
      rewrite firstn_app, Nat.sub_diag, firstn_all. simpl. apply app_nil_r.
    + intros _. apply length_map.
Qed.

Lemma length_flat_map_ge {A B : Type} (f : A -> list B) (l : list A) :
  (forall x, f x <> []) -> (length l <= length (flat_map f l))%nat.
Proof.
  intros H. induction l as [|x l IH]; simpl; [lia|].
  rewrite length_app. specialize (H x). destruct (f x); [congruence | simpl; lia].
Qed.

(** The rows that match a record are the rows of the right frame with the
    record's key, in the order and as often as the frame has them. *)
Lemma matching_filter (left right : DataFrame) (on : str) (l : list cell) :
  exists keep : list cell -> bool,
    matching left right on l = filter keep (rows right)
    /\ forall r, keep r = true <-> key_of left on l = key_of right on r.
Proof.
  exists (fun r : list cell => cell_eqb (key_of left on l) (key_of right on r)).
  split; [reflexivity|]. intros r.
  destruct (key_of left on l) as [k|], (key_of right on r) as [k'|]; simpl;
    try rewrite str_eqb_eq; split; congruence.
Qed.

Ltac solve_well_labelled :=
  repeat split; apply distinct_NoDup; reflexivity.

Ltac solve_ascii_cells :=
  let r := fresh "r" in
  let H := fresh "H" in
  intros r H; simpl in H;
  repeat (destruct H as [<-|H];
          [eexists; split; [reflexivity | unfold ascii_text; repeat constructor]|]);
  destruct H.

(** C3: for sheets with pairwise distinct labels, the required columns and
    ASCII text in every code cell and every [License Type] cell, the
    frame [merged] is the left outer join of the cleaned users sheet with
    the cleaned master sheet on [Tcode].  Its rows are the concatenation of one block per activity
    record, in the records' order; no block is empty and every row of a
    block starts with the record itself, so no record is dropped and equal
    records stay apart.  The block of a record whose key equals that of no
    master row is that record once, followed by an empty cell for every
    master column other than the key; otherwise the block has, for each
    master row with the record's key and in the master's order, the
    record followed by that row's cells other than its key.  Hence
    [merged] has at least as many rows as the users sheet. *)
Theorem merged_is_left_join (df_users df_license_master : DataFrame) :
  has_column (strip_columns df_users) TCODE = true ->
  has_column (strip_columns df_license_master) TCODE = true ->
  has_column (strip_columns df_license_master) LICENSE_TYPE = true ->
  well_labelled df_users df_license_master ->
  ascii_cells df_users TCODE ->
  ascii_cells df_license_master TCODE ->
  ascii_cells df_license_master LICENSE_TYPE ->
  let activity := cleaned_users df_users in
  let catalog := cleaned_master df_license_master in
  exists (m : DataFrame) (blocks : list (list (list cell))),
    merged df_users df_license_master = Ok m
    /\ columns m = merged_labels df_users df_license_master
    /\ rows m = concat blocks
    /\ Forall2 (fun l block =>
                  block <> []
                  /\ (forall r, In r block -> firstn (length l) r = l)
                  /\ (matching activity catalog TCODE l = [] ->
                      block = [l ++ repeat None (length (columns catalog) - 1)])
                  /\ (matching activity catalog TCODE l <> [] ->
                      block = map (fun r : list cell => l ++ without_key catalog TCODE r)
                                  (matching activity catalog TCODE l))
                  /\ (matching activity catalog TCODE l <> [] ->
                      length block = length (matching activity catalog TCODE l)))
               (rows activity) blocks
    /\ (forall l, exists keep : list cell -> bool,
          matching activity catalog TCODE l = filter keep (rows catalog)
          /\ forall r, keep r = true
                       <-> key_of activity TCODE l = key_of catalog TCODE r)
    /\ length (rows activity) = length (rows df_users)
    /\ (length (rows df_users) <= length (rows m))%nat.
Proof.
  intros H1 H2 H3 HL _ _ _ activity catalog.
  assert (Ha : has_column activity TCODE = true)
    by (unfold activity, cleaned_users; now rewrite has_column_map_column).
  assert (Hc : has_column catalog TCODE = true)
    by (unfold catalog, cleaned_master; now rewrite !has_column_map_column).
  destruct (has_column_position _ _ Ha) as [i Hi].
  destruct (has_column_position _ _ Hc) as [j Hj].
  rewrite (merged_joined _ _ i j H1 H2 H3 HL Hi Hj). fold activity catalog.
  set (width := length (remove_at j (columns catalog))).
  assert (Hw : width = (length (columns catalog) - 1)%nat).
  { unfold width, remove_at. apply position_Some in Hj as [Hlt _].
    rewrite length_app, length_firstn, length_skipn. lia. }
  exists (joined activity catalog i j),
    (map (join_row i j width (rows catalog)) (rows activity)).
  split; [reflexivity|].
  split; [unfold merged_labels; fold catalog; now rewrite Hj|].
  split; [apply flat_map_concat_map|].
  assert (Hlen : length (rows activity) = length (rows df_users))
    by (unfold activity, cleaned_users; now rewrite map_column_length).
  split; [|split; [intros l; apply matching_filter | split; [exact Hlen|]]].
  - assert (Hgen : forall ls,
              Forall2 (fun l block =>
                  block <> []
                  /\ (forall r, In r block -> firstn (length l) r = l)
                  /\ (matching activity catalog TCODE l = [] ->
                      block = [l ++ repeat None (length (columns catalog) - 1)])
                  /\ (matching activity catalog TCODE l <> [] ->
                      block = map (fun r : list cell => l ++ without_key catalog TCODE r)
                                  (matching activity catalog TCODE l))
                  /\ (matching activity catalog TCODE l <> [] ->
                      length block = length (matching activity catalog TCODE l)))
                ls (map (join_row i j width (rows catalog)) ls)).
    { induction ls as [|l ls IH]; constructor; [|exact IH].
      destruct (join_row_block i j width (rows catalog) l) as (B1 & B2 & B3 & B4).
      unfold matching, key_of, without_key. rewrite Hi, Hj, <- Hw.
      repeat split; auto.
      intros Hne. unfold join_row.
      destruct (filter (fun r : list cell => cell_eqb (nth i l None) (nth j r None))
                  (rows catalog)); [congruence | reflexivity]. }
    apply Hgen.
  - rewrite <- Hlen. apply (length_flat_map_ge (join_row i j width (rows catalog))).
    intros l. apply join_row_block.
Qed.

Lemma merged_is_left_join_witness :
  exists m, merged ex_users ex_master = Ok m /\ (5 <= length (rows m))%nat.
Proof.
  destruct (merged_is_left_join ex_users ex_master eq_refl eq_refl eq_refl)
    as (m & blocks & Hm & _ & _ & _ & _ & _ & Hlen).
  - solve_well_labelled.
  - solve_ascii_cells.
  - solve_ascii_cells.
  - solve_ascii_cells.
  - exists m. split; [exact Hm | exact Hlen].
Defined.

(** ** Order, sorting and counting *)

Lemma str_ltb_irrefl (s : str) : str_ltb s s = false.
Proof.
  induction s as [|a s IH]; [reflexivity|]. simpl.
  rewrite N.ltb_irrefl, N.eqb_refl, IH. reflexivity.
Qed.

Lemma str_ltb_asym (s t : str) : str_ltb s t = true -> str_ltb t s = false.
Proof.
  revert t. induction s as [|a s IH]; intros [|b t]; simpl; try congruence.
  destruct (N.ltb_spec a b), (N.ltb_spec b a), (N.eqb_spec a b), (N.eqb_spec b a);
    simpl; try lia; try congruence; auto.
Qed.

(** If [c < a] then [b < a] or [c < b]. *)
Lemma str_ltb_cotrans (a b c : str) :
  str_ltb c a = true -> str_ltb b a = true \/ str_ltb c b = true.
Proof.
  revert b c. induction a as [|x a IH]; intros [|y b] [|z c]; simpl; auto;
    try discriminate.
  destruct (N.ltb_spec z x), (N.ltb_spec y x), (N.ltb_spec z y),
    (N.eqb_spec z x), (N.eqb_spec y x), (N.eqb_spec z y);
    simpl; auto; try lia; try discriminate.
Qed.

Lemma str_ltb_total (s t : str) : str_ltb s t = false -> str_ltb t s = false -> s = t.
Proof.
  revert t. induction s as [|a s IH]; intros [|b t]; simpl; try congruence.
  destruct (N.ltb_spec a b), (N.ltb_spec b a), (N.eqb_spec a b), (N.eqb_spec b a);
    simpl; try lia; try congruence.
  intros H1 H2. subst. f_equal. now apply IH.
Qed.

Lemma str_leb_refl (s : str) : str_leb s s = true.
Proof. unfold str_leb. now rewrite str_ltb_irrefl. Qed.

Lemma str_leb_total (s t : str) : str_leb s t = false -> str_leb t s = true.
Proof.
  unfold str_leb. intros H. apply negb_false_iff in H.
  now rewrite (str_ltb_asym _ _ H).
Qed.

Lemma str_leb_trans (a b c : str) :
  str_leb a b = true -> str_leb b c = true -> str_leb a c = true.
Proof.
  unfold str_leb. rewrite !negb_true_iff. intros H1 H2.
  destruct (str_ltb c a) eqn:E; [|reflexivity].
  destruct (str_ltb_cotrans a b c E); congruence.
Qed.

Lemma str_leb_antisym (s t : str) :
  str_leb s t = true -> str_leb t s = true -> s = t.
Proof.
  unfold str_leb. rewrite !negb_true_iff. intros H1 H2. now apply str_ltb_total.
Qed.

Lemma insert_sorted_perm (x : str) (l : list str) :
  Permutation (x :: l) (insert_sorted x l).
Proof.
  induction l as [|y l IH]; simpl; [reflexivity|].
  destruct (str_leb x y); [reflexivity|].
  rewrite perm_swap. now constructor.
Qed.

Lemma sort_perm (l : list str) : Permutation l (sort l).
Proof.
  induction l as [|x l IH]; simpl; [constructor|].
  rewrite <- insert_sorted_perm. now constructor.
Qed.

Lemma sort_In (l : list str) (x : str) : In x (sort l) <-> In x l.
Proof.
  split; apply Permutation_in; [apply Permutation_sym|]; apply sort_perm.
Qed.

Lemma insert_sorted_ascending (x : str) (l : list str) :
  ascending l -> ascending (insert_sorted x l).
Proof.
  unfold ascending. induction 1 as [|y l Hl IH Hy]; simpl.
  - repeat constructor.
  - destruct (str_leb x y) eqn:E.
    + constructor; [now constructor|]. constructor; [exact E|].
      eapply Forall_impl; [|exact Hy]. intros z Hz. simpl in Hz.
      eapply str_leb_trans; eauto.
    + constructor; [exact IH|].
      apply Forall_forall. intros z Hz.
      apply (Permutation_in _ (Permutation_sym (insert_sorted_perm x l))) in Hz.
      destruct Hz as [<-|Hz]; [now apply str_leb_total|].
      rewrite Forall_forall in Hy. now apply Hy.
Qed.

Lemma sort_ascending (l : list str) : ascending (sort l).
Proof.
  induction l as [|x l IH]; simpl; [constructor | now apply insert_sorted_ascending].
Qed.

(** The first element of a sorted list is the least of the list. *)
Lemma sort_head_least (l : list str) (h : str) (t : list str) :
  sort l = h :: t -> forall x, In x l -> str_leb h x = true.
Proof.
  intros E x Hx. apply sort_In in Hx. pose proof (sort_ascending l) as H.
  rewrite E in *. inversion H as [|? ? _ Hall]; subst.
  destruct Hx as [<-|Hx]; [apply str_leb_refl|].
  rewrite Forall_forall in Hall. now apply Hall.
Qed.

Lemma dropna_In (l : list cell) (s : str) : In s (dropna l) <-> In (Some s) l.
Proof.
  induction l as [|[t|] l IH]; simpl; [tauto| |].
  - rewrite IH. split; intros [H|H]; auto; left; congruence.
  - rewrite IH. split; [auto | intros [H|H]; [discriminate | auto]].
Qed.

Lemma dropna_app (a b : list cell) : dropna (a ++ b) = dropna a ++ dropna b.
Proof.
  induction a as [|[t|] a IH]; simpl; [reflexivity | now rewrite IH | exact IH].
Qed.

Lemma unique_In (l : list str) (x : str) : In x (unique l) <-> In x l.
Proof.
  induction l as [|y l IH]; simpl; [tauto|].
  rewrite filter_In, IH, negb_true_iff, str_eqb_neq.
  destruct (list_eq_dec N.eq_dec y x); [tauto|]. tauto.
Qed.

Lemma unique_NoDup (l : list str) : NoDup (unique l).
Proof.
  induction l as [|y l IH]; simpl; constructor.
  - rewrite filter_In, negb_true_iff, str_eqb_neq. tauto.
  - now apply NoDup_filter.
Qed.

Lemma occurrences_pos (v : str) (l : list str) :
  (0 < occurrences v l)%nat <-> In v l.
Proof.
  unfold occurrences. induction l as [|x l IH]; simpl; [split; [lia | tauto]|].
  destruct (str_eqb v x) eqn:E; simpl.
  - apply str_eqb_eq in E. split; [auto | lia].
  - apply str_eqb_neq in E. rewrite IH. split; [auto | intros [H|H]; congruence].
Qed.

Lemma fold_max_ge (f : str -> nat) (l : list str) (x : str) :
  In x l -> (f x <= fold_right Nat.max O (map f l))%nat.
Proof.
  induction l as [|y l IH]; simpl; [tauto|].
  intros [<-|H]; [lia|]. specialize (IH H). lia.
Qed.

Lemma fold_max_attained (f : str -> nat) (l : list str) :
  l <> [] -> exists x, In x l /\ f x = fold_right Nat.max O (map f l).
Proof.
  induction l as [|y l IH]; [congruence|]. intros _. simpl.
  destruct l as [|z l].
  - exists y. simpl. split; [auto | lia].
  - destruct IH as (x & Hx & E); [discriminate|].
    destruct (Nat.le_ge_cases (f y) (fold_right Nat.max O (map f (z :: l)))) as [H|H].
    + exists x. split; [now right | lia].
    + exists y. split; [now left | lia].
Qed.

Lemma mode_head (cells : list cell) :
  dropna cells <> [] ->
  exists v rest, mode cells = v :: rest /\ most_frequent cells v.
Proof.
  intros Hne. unfold mode.
  set (values := dropna cells) in *.
  set (count := fun v => occurrences v values).
  set (top := fold_right Nat.max O (map count (unique values))).
  assert (Hun : unique values <> []).
  { destruct values as [|x vs]; [congruence | simpl; discriminate]. }
  destruct (fold_max_attained count (unique values) Hun) as (x & Hx & Ex).
  fold top in Ex.
  assert (Hle : forall w, (count w <= top)%nat).
  { intros w. destruct (in_dec (list_eq_dec N.eq_dec) w values) as [Hw|Hw].
    - apply (fold_max_ge count). now apply unique_In.
    - assert (count w = 0)%nat; [|lia].
      destruct (Nat.eq_dec (count w) 0) as [E|E]; [exact E|].
      elim Hw. apply occurrences_pos. unfold count in E. lia. }
  set (tops := filter (fun v => Nat.eqb (count v) top) (unique values)).
  assert (Hxt : In x tops).
  { apply filter_In. split; [exact Hx | now apply Nat.eqb_eq]. }
  change (exists v rest, sort tops = v :: rest /\ most_frequent cells v).
  destruct (sort tops) as [|v rest] eqn:Es.
  { apply sort_In in Hxt. rewrite Es in Hxt. destruct Hxt. }
  exists v, rest. split; [reflexivity|].
  assert (Hv : In v tops) by (apply sort_In; rewrite Es; now left).
  apply filter_In in Hv as [Hv Hc]. apply Nat.eqb_eq in Hc.
  apply (proj1 (unique_In _ _)) in Hv. split; [apply dropna_In; exact Hv|]. split.
  - intros w. change (count w <= count v)%nat. rewrite Hc. apply Hle.
  - intros w Hw. change (count w = count v) in Hw.
    apply (sort_head_least tops v rest Es). apply filter_In. split.
    + apply unique_In, occurrences_pos. change (0 < count w)%nat.
      rewrite Hw, Hc, <- Ex.
      apply occurrences_pos. exact (proj1 (unique_In _ _) Hx).
    + apply Nat.eqb_eq. congruence.
Qed.

(** ** Labels of the merged frame *)

Lemma flat_map_cons {A B : Type} (f : A -> list B) (x : A) (l : list A) :
  flat_map f (x :: l) = f x ++ flat_map f l.
Proof. reflexivity. Qed.

Lemma In_remove_at {A : Type} (x : A) (l : list A) (k : nat) :
  In x (remove_at k l) -> In x l.
Proof.
  unfold remove_at. revert k. induction l as [|y l IH]; intros k.
  - now destruct k.
  - destruct k; simpl; [auto|]. intros [H|H]; [auto | right; eapply IH; eauto].
Qed.

Lemma ends_with_app (c suffix : str) : ends_with suffix (c ++ suffix) = true.
Proof.
  unfold ends_with. rewrite length_app.
  replace (length c + length suffix - length suffix)%nat with (length c + 0)%nat by lia.
  rewrite skipn_app, Nat.add_0_r, skipn_all. simpl.
  replace (length c - length c)%nat with 0%nat by lia. apply str_eqb_refl.
Qed.

(** A label that is not in both frames and does not end with the suffix is
    found in the suffixed labels where it was. *)
Lemma position_suffixed (left right : DataFrame) (on suffix t : str) (cols : list str) :
  ends_with suffix t = false ->
  has_column left t && has_column right t = false ->
  position t (map (suffixed left right on suffix) cols) = position t cols.
Proof.
  intros Hend Hboth. apply position_map. intros c _. unfold suffixed.
  destruct (negb (str_eqb c on) && has_column left c && has_column right c) eqn:E;
    [|reflexivity].
  apply andb_prop in E as [E Hr]. apply andb_prop in E as [_ Hl].
  assert (H1 : str_eqb (c ++ suffix) t = false).
  { apply str_eqb_neq. intros <-. rewrite ends_with_app in Hend. discriminate. }
  assert (H2 : str_eqb c t = false).
  { apply str_eqb_neq. intros <-. rewrite Hl, Hr in Hboth. discriminate. }
  now rewrite H1, H2.
Qed.

Section Merged.

Variables left right : DataFrame.
Variables i j : nat.
Hypothesis left_key : position TCODE (columns left) = Some i.
Hypothesis right_key : position TCODE (columns right) = Some j.
Hypothesis left_rect : rectangular left.

Lemma copies_pos (l : list cell) : (1 <= copies right i j l)%nat.
Proof.
  unfold copies.
  destruct (join_row_block i j (length (remove_at j (columns right))) (rows right) l)
    as (Hne & _).
  destruct (join_row _ _ _ _ l); [congruence | simpl; lia].
Qed.

(** A label of the left frame only keeps its position. *)
Lemma joined_position_left (t : str) (p : nat) :
  ends_with (lit "_x") t = false ->
  position t (columns left) = Some p ->
  has_column right t = false ->
  position t (columns (joined left right i j)) = Some p.
Proof.
  intros Hend Hp Hr. simpl. apply position_app_left.
  rewrite position_suffixed; [exact Hp | exact Hend |].
  rewrite Hr. apply andb_false_r.
Qed.

(** A label of the right frame only, other than the key, is a label of the
    joined frame. *)
Lemma joined_has_right (t : str) :
  ends_with (lit "_x") t = false ->
  ends_with (lit "_y") t = false ->
  t <> TCODE ->
  has_column left t = false ->
  has_column right t = true ->
  has_column (joined left right i j) t = true.
Proof.
  intros Hx Hy Hne Hl Hr. unfold has_column. simpl.
  assert (Hleft : position t (map (suffixed left right TCODE (lit "_x")) (columns left)) = None).
  { rewrite position_suffixed; [|exact Hx | now rewrite Hl].
    unfold has_column in Hl. now destruct (position t (columns left)). }
  rewrite (position_app_right _ _ _ Hleft).
  rewrite position_suffixed; [|exact Hy | now rewrite Hl].
  destruct (position t (remove_at j (columns right))) eqn:E; [reflexivity|].
  apply (position_remove_at t TCODE _ j right_key Hne) in E.
  unfold has_column in Hr. rewrite E in Hr. discriminate.
Qed.

(** A label of neither frame is not a label of the joined frame. *)
Lemma joined_has_neither (t : str) :
  ends_with (lit "_x") t = false ->
  ends_with (lit "_y") t = false ->
  has_column left t = false ->
  has_column right t = false ->
  has_column (joined left right i j) t = false.
Proof.
  intros Hx Hy Hl Hr. unfold has_column. simpl.
  assert (Hleft : position t (map (suffixed left right TCODE (lit "_x")) (columns left)) = None).
  { rewrite position_suffixed; [|exact Hx | now rewrite Hl].
    unfold has_column in Hl. now destruct (position t (columns left)). }
  rewrite (position_app_right _ _ _ Hleft).
  rewrite position_suffixed; [|exact Hy | now rewrite Hl].
  destruct (position t (remove_at j (columns right))) eqn:E; [|reflexivity].
  exfalso. assert (In t (remove_at j (columns right))).
  { destruct (in_dec (list_eq_dec N.eq_dec) t (remove_at j (columns right))) as [H|H];
      [exact H|]. apply position_None in H. congruence. }
  apply In_remove_at, has_column_In in H. congruence.
Qed.

(** The cells of a left column in the block of a left row. *)
Lemma join_row_column (p : nat) (l : list cell) :
  (p < length l)%nat ->
  map (fun r : list cell => nth p r None)
      (join_row i j (length (remove_at j (columns right))) (rows right) l)
  = repeat (nth p l None) (copies right i j l).
Proof.
  intros Hp. unfold copies, join_row.
  destruct (filter (fun r : list cell => cell_eqb (nth i l None) (nth j r None)) (rows right))
    as [|r0 found].
  - simpl. now rewrite app_nth1.
  - rewrite length_map, map_map.
    induction (r0 :: found) as [|r rs IH]; [reflexivity|].
    simpl. rewrite app_nth1 by exact Hp. now f_equal.
Qed.

(** The rows of the joined frame with a given value at a left column, and
    the cells of another left column in them. *)
Lemma select_blocks (p q : nat) (v : option str) (ls : list (list cell)) :
  Forall (fun l => (p < length l)%nat /\ (q < length l)%nat) ls ->
  map (fun r : list cell => nth q r None)
      (filter (fun r : list cell => cell_is v (nth p r None))
         (flat_map (join_row i j (length (remove_at j (columns right))) (rows right)) ls))
  = flat_map (fun l : list cell => repeat (nth q l None) (copies right i j l))
      (filter (fun l : list cell => cell_is v (nth p l None)) ls).
Proof.
  induction 1 as [|l ls [Hp Hq] Hls IH]; [reflexivity|].
  rewrite flat_map_cons, filter_app, map_app. cbn [filter].
  assert (Hblock : forall r,
             In r (join_row i j (length (remove_at j (columns right))) (rows right) l) ->
             cell_is v (nth p r None) = cell_is v (nth p l None)).
  { intros r Hr.
    destruct (join_row_block i j (length (remove_at j (columns right))) (rows right) l)
      as (_ & Hfirst & _).
    rewrite <- (Hfirst r Hr) at 1. rewrite nth_firstn.
    replace (p <? length l)%nat with true; [reflexivity|].
    symmetry. now apply Nat.ltb_lt. }
  rewrite (filter_ext_in _ (fun _ => cell_is v (nth p l None)) _ Hblock).
  destruct (cell_is v (nth p l None)).
  - rewrite filter_true, flat_map_cons, join_row_column by exact Hq.
    f_equal. exact IH.
  - rewrite filter_false. exact IH.
Qed.

Lemma joined_select_column (p q : nat) (v : option str) :
  (p < length (columns left))%nat ->
  (q < length (columns left))%nat ->
  map (fun r : list cell => nth q r None)
      (filter (fun r : list cell => cell_is v (nth p r None)) (rows (joined left right i j)))
  = flat_map (fun l : list cell => repeat (nth q l None) (copies right i j l))
      (filter (fun l : list cell => cell_is v (nth p l None)) (rows left)).
Proof.
  intros Hp Hq. apply select_blocks.
  eapply Forall_impl; [|exact left_rect]. intros l Hl. simpl in Hl. lia.
Qed.

(** The cells of a left column in the joined frame. *)
Lemma column_blocks (p : nat) (ls : list (list cell)) :
  Forall (fun l : list cell => (p < length l)%nat) ls ->
  map (fun r : list cell => nth p r None)
      (flat_map (join_row i j (length (remove_at j (columns right))) (rows right)) ls)
  = flat_map (fun l : list cell => repeat (nth p l None) (copies right i j l)) ls.
Proof.
  induction 1 as [|l ls Hl Hls IH]; [reflexivity|].
  rewrite !flat_map_cons, map_app, join_row_column by exact Hl. f_equal. exact IH.
Qed.

Lemma joined_column (p : nat) :
  (p < length (columns left))%nat ->
  map (fun r : list cell => nth p r None) (rows (joined left right i j))
  = flat_map (fun l : list cell => repeat (nth p l None) (copies right i j l)) (rows left).
Proof.
  intros Hp. apply column_blocks.
  eapply Forall_impl; [|exact left_rect]. intros l Hl. simpl in Hl. lia.
Qed.

End Merged.

(** ** The two modes on a frame *)

Lemma filter_idempotent {A : Type} (f : A -> bool) (l : list A) :
  filter f (filter f l) = filter f l.
Proof.
  apply forallb_filter_id, forallb_filter.
Qed.

Lemma unique_repeat_app (s : str) (k : nat) (rest : list str) :
  filter (fun y => negb (str_eqb s y)) (unique (repeat s k ++ rest))
  = filter (fun y => negb (str_eqb s y)) (unique rest).
Proof.
  induction k as [|k IH]; [reflexivity|].
  simpl. rewrite str_eqb_refl. simpl. now rewrite filter_idempotent.
Qed.

Lemma dropna_repeat (c : cell) (n : nat) :
  dropna (repeat c n) = match c with Some s => repeat s n | None => [] end.
Proof.
  destruct c as [s|]; induction n as [|n IH]; simpl; congruence.
Qed.

(** Repeating every cell of a column one or more times in place does not
    change the distinct values or their order of first appearance. *)
Lemma unique_dropna_blocks (g : list cell -> cell) (k : list cell -> nat)
    (ls : list (list cell)) :
  (forall l, 1 <= k l)%nat ->
  unique (dropna (flat_map (fun l : list cell => repeat (g l) (k l)) ls))
  = unique (dropna (map g ls)).
Proof.
  intros Hk. induction ls as [|l ls IH]; [reflexivity|].
  rewrite flat_map_cons, dropna_app, dropna_repeat. cbn [map].
  destruct (g l) as [s|].
  - specialize (Hk l). destruct (k l) as [|n]; [lia|].
    cbn [repeat dropna app unique]. f_equal.
    rewrite unique_repeat_app. now rewrite IH.
  - exact IH.
Qed.

Lemma current_license_spec (user_data : DataFrame) :
  exists v, current_license user_data = Ok v
            /\ match position LICENSE (columns user_data) with
               | Some q =>
                   current_spec (map (fun r : list cell => nth q r None)
                                     (rows user_data)) v
               | None => v = NOT_ASSIGNED
               end.
Proof.
  unfold current_license, has_column, column.
  destruct (position LICENSE (columns user_data)) as [q|]; [|now exists NOT_ASSIGNED].
  simpl. set (cells := map (fun r : list cell => nth q r None) (rows user_data)).
  destruct (dropna cells) as [|x xs] eqn:E.
  - exists NOT_ASSIGNED. split; [reflexivity | left; now split].
  - destruct (mode_head cells) as (v & rest & Hm & Hv); [congruence|].
    rewrite Hm. exists v. split; [reflexivity | now right].
Qed.

Lemma recommended_license_ok (user_data : DataFrame) :
  has_column user_data LICENSE_TYPE = true ->
  exists v, recommended_license user_data = Ok v /\ In v (PStr NO_DATA :: TIERS).
Proof.
  intros H. apply has_column_position in H as [q Hq].
  unfold recommended_license, column. rewrite Hq. simpl.
  apply get_highest_license_total.
Qed.

Lemma report_row_ok (user : str) (group : DataFrame) :
  has_column group LICENSE_TYPE = true ->
  rows group <> [] ->
  exists r, report_row user group = Ok r
            /\ r_user_name r = user
            /\ current_license group = Ok (r_current r)
            /\ recommended_license group = Ok (r_recommended r)
            /\ r_status r = determine_status (PStr (r_current r)) (r_recommended r).
Proof.
  intros Ht Hrows. unfold report_row.
  destruct (recommended_license_ok group Ht) as (rec & Hrec & _).
  destruct (current_license_spec group) as (cur & Hcur & _).
  rewrite Hrec, Hcur. simpl.
  assert (Hid : exists c, first_user_id group = Ok c).
  { unfold first_user_id, column, has_column.
    destruct (position USER_ID (columns group)); [|eauto]. simpl.
    destruct (rows group); [congruence | simpl; eauto]. }
  destruct Hid as [c Hc]. rewrite Hc. simpl.
  eexists. split; [reflexivity|]. simpl. auto.
Qed.

Lemma for_each_ok {A B : Type} (f : A -> outcome B) (P : A -> B -> Prop) (l : list A) :
  (forall x, In x l -> exists y, f x = Ok y /\ P x y) ->
  exists ys, for_each f l = Ok ys /\ Forall2 P l ys.
Proof.
  induction l as [|x l IH]; intros H; [exists []; split; [reflexivity | constructor]|].
  destruct (H x (or_introl eq_refl)) as (y & Hy & Hp).
  destruct IH as (ys & Hys & Hall); [intros z Hz; apply H; now right|].
  exists (y :: ys). simpl. rewrite Hy. simpl. rewrite Hys. simpl.
  split; [reflexivity | now constructor].
Qed.

(** The list of the bulk mode on a frame that has the two columns it reads: one row
    per distinct user name of the frame, the names ascending, each row
    computed from the rows of its user. *)
Lemma user_results_ok (m : DataFrame) (pu : nat) :
  position USER_NAME (columns m) = Some pu ->
  has_column m LICENSE_TYPE = true ->
  exists report,
    user_results m = Ok report
    /\ map r_user_name report
       = sort (unique (dropna (map (fun r : list cell => nth pu r None) (rows m))))
    /\ forall r, In r report ->
         current_license (select_rows m pu (Some (r_user_name r))) = Ok (r_current r).
Proof.
  intros Hpu Ht. unfold user_results, groupby. rewrite Hpu. simpl.
  set (keys := sort (unique (dropna (map (fun r : list cell => nth pu r None) (rows m))))).
  destruct (for_each_ok (fun ug => report_row (fst ug) (snd ug))
              (fun ug r => r_user_name r = fst ug
                           /\ current_license (snd ug) = Ok (r_current r))
              (map (fun k => (k, select_rows m pu (Some k))) keys))
    as (report & Hrep & Hall).
  { intros ug Hug. apply in_map_iff in Hug as (k & <- & Hk). simpl.
    destruct (report_row_ok k (select_rows m pu (Some k))) as (r & Hr & Hn & Hc & _).
    - exact Ht.
    - unfold keys in Hk. apply sort_In, unique_In, dropna_In, in_map_iff in Hk.
      destruct Hk as (row & Hrow & Hin).
      assert (H : In row (rows (select_rows m pu (Some k)))).
      { apply filter_In. split; [exact Hin|]. rewrite Hrow. simpl. apply str_eqb_refl. }
      intros E. rewrite E in H. destruct H.
    - exists r. auto. }
  exists report. split; [exact Hrep|].
  assert (Hnames : forall ks rs,
             Forall2 (fun (ug : str * DataFrame) r =>
                        r_user_name r = fst ug
                        /\ current_license (snd ug) = Ok (r_current r))
                     (map (fun k => (k, select_rows m pu (Some k))) ks) rs ->
             map r_user_name rs = ks
             /\ forall r, In r rs ->
                  current_license (select_rows m pu (Some (r_user_name r)))
                  = Ok (r_current r)).
  { induction ks as [|k ks IH]; intros rs H; inversion H; subst; simpl.
    - split; [reflexivity | tauto].
    - destruct (IH _ H4) as [E1 E2]. destruct H2 as [Hn Hc]. simpl in Hn, Hc.
      split; [now rewrite Hn, E1|].
      intros r [<-|Hr]; [now rewrite Hn | now apply E2]. }
  apply Hnames, Hall.
Qed.

Lemma manual_mode_ok (m : DataFrame) (pu : nat) (choice : nat) :
  position USER_NAME (columns m) = Some pu ->
  has_column m LICENSE_TYPE = true ->
  exists manual,
    manual_mode m choice = Ok manual
    /\ current_license (select_rows m pu (a_user manual)) = Ok (a_current manual).
Proof.
  intros Hpu Ht. unfold manual_mode, column, where_eq. rewrite Hpu. simpl.
  set (selected := selectbox _ choice).
  destruct (current_license_spec (select_rows m pu selected)) as (cur & Hcur & _).
  destruct (recommended_license_ok (select_rows m pu selected) Ht) as (rec & Hrec & _).
  rewrite Hcur. simpl. rewrite Hrec. simpl.
  eexists. split; [reflexivity | exact Hcur].
Qed.

(** ** The whole run *)

Lemma cell_eqb_eq (a b : cell) : cell_eqb a b = true <-> a = b.
Proof.
  destruct a as [s|], b as [t|]; simpl; try rewrite str_eqb_eq;
    split; intros H; try discriminate; try reflexivity; congruence.
Qed.

Lemma filter_key_absent (g : list cell -> cell) (k : cell) (rs : list (list cell)) :
  ~ In k (map g rs) ->
  filter (fun r : list cell => cell_eqb k (g r)) rs = [].
Proof.
  induction rs as [|r rs IH]; intros H; [reflexivity|]. simpl.
  destruct (cell_eqb k (g r)) eqn:E.
  - apply cell_eqb_eq in E. elim H. left. now symmetry.
  - apply IH. intros H'. apply H. now right.
Qed.

Lemma filter_key_unique (g : list cell -> cell) (k : cell) (rs : list (list cell)) :
  NoDup (map g rs) ->
  (length (filter (fun r : list cell => cell_eqb k (g r)) rs) <= 1)%nat.
Proof.
  induction rs as [|r rs IH]; intros Hnd; [simpl; lia|].
  inversion Hnd as [|? ? Hnotin Hnd']; subst. simpl.
  destruct (cell_eqb k (g r)) eqn:E; [|now apply IH].
  apply cell_eqb_eq in E. subst k.
  rewrite (filter_key_absent g (g r) rs Hnotin). simpl. lia.
Qed.

(** With distinct keys in the right frame every left row is joined once. *)
Lemma copies_unique (right : DataFrame) (i j : nat) (l : list cell) :
  NoDup (map (fun r : list cell => nth j r None) (rows right)) ->
  copies right i j l = 1%nat.
Proof.
  intros Hnd. unfold copies, join_row.
  pose proof (filter_key_unique (fun r : list cell => nth j r None) (nth i l None)
                (rows right) Hnd) as H.
  destruct (filter (fun r : list cell => cell_eqb (nth i l None) (nth j r None))
              (rows right)) as [|r0 [|r1 rs]]; simpl in *; try reflexivity; lia.
Qed.


Section Run.

Variables df_users df_license_master : DataFrame.

Hypothesis users_rect : rectangular df_users.
Hypothesis users_tcode : has_column (strip_columns df_users) TCODE = true.
Hypothesis master_tcode : has_column (strip_columns df_license_master) TCODE = true.
Hypothesis master_tier : has_column (strip_columns df_license_master) LICENSE_TYPE = true.
Hypothesis users_no_tier : has_column (strip_columns df_users) LICENSE_TYPE = false.
Hypothesis users_name : has_column (strip_columns df_users) USER_NAME = true.
Hypothesis master_no_name : has_column (strip_columns df_license_master) USER_NAME = false.
Hypothesis labels : well_labelled df_users df_license_master.

Local Abbreviation activity := (cleaned_users df_users).
Local Abbreviation catalog := (cleaned_master df_license_master).

Lemma activity_columns : columns activity = columns (strip_columns df_users).
Proof. apply map_column_columns. Qed.

Lemma catalog_has (t : str) :
  has_column catalog t = has_column (strip_columns df_license_master) t.
Proof. unfold catalog, cleaned_master. now rewrite !has_column_map_column. Qed.

Lemma activity_has (t : str) :
  has_column activity t = has_column (strip_columns df_users) t.
Proof. unfold activity, cleaned_users. now rewrite has_column_map_column. Qed.

Lemma activity_rect : rectangular activity.
Proof.
  apply map_column_rectangular. unfold rectangular, strip_columns. simpl.
  eapply Forall_impl; [|exact users_rect]. intros r Hr. simpl in Hr.
  now rewrite length_map.
Qed.

(** A column of the users sheet other than the key is not touched by the
    cleaning. *)
Lemma activity_cells (i p : nat) :
  position TCODE (columns activity) = Some i -> p <> i ->
  forall r, In r (rows activity) ->
    exists r0, In r0 (rows df_users)
               /\ r = update_at i clean_tcode r0 /\ nth p r None = nth p r0 None.
Proof.
  intros Hi Hne r Hr. unfold activity, cleaned_users, map_column in Hr.
  fold activity in Hi. rewrite activity_columns in Hi. rewrite Hi in Hr. simpl in Hr.
  apply in_map_iff in Hr as (r0 & <- & Hr0).
  exists r0. split; [exact Hr0|]. split; [reflexivity|].
  now apply nth_update_at_other.
Qed.

Lemma activity_rows (i : nat) :
  position TCODE (columns activity) = Some i ->
  rows activity = map (update_at i clean_tcode) (rows df_users).
Proof.
  intros Hi. rewrite activity_columns in Hi.
  unfold activity, cleaned_users, map_column. now rewrite Hi.
Qed.

(** How the run goes when the sheets have the columns it reads. *)
Lemma run_ok (choice : nat) :
  exists i j pu manual report,
    position TCODE (columns activity) = Some i
    /\ position TCODE (columns catalog) = Some j
    /\ position USER_NAME (columns (strip_columns df_users)) = Some pu
    /\ pu <> i
    /\ position USER_NAME (columns (joined activity catalog i j)) = Some pu
    /\ builds df_users df_license_master choice manual report
    /\ (report <> [] -> run df_users df_license_master choice = Ok (manual, report))
    /\ map r_user_name report
       = sort (unique (dropna (map (fun r : list cell => nth pu r None) (rows df_users))))
    /\ (forall r, In r report ->
          current_license (select_rows (joined activity catalog i j) pu
                             (Some (r_user_name r)))
          = Ok (r_current r))
    /\ current_license (select_rows (joined activity catalog i j) pu (a_user manual))
       = Ok (a_current manual).
Proof.
  assert (Ha : has_column activity TCODE = true) by now rewrite activity_has.
  assert (Hc : has_column catalog TCODE = true) by now rewrite catalog_has.
  destruct (has_column_position _ _ Ha) as [i Hi].
  destruct (has_column_position _ _ Hc) as [j Hj].
  destruct (has_column_position _ _ users_name) as [pu Hpu].
  exists i, j, pu.
  assert (Hne : pu <> i).
  { intros ->. rewrite activity_columns in Hi.
    apply position_Some in Hi as [_ E1]. apply position_Some in Hpu as [_ E2].
    rewrite E1 in E2. vm_compute in E2. discriminate. }
  assert (Hpj : position USER_NAME (columns (joined activity catalog i j)) = Some pu).
  { apply joined_position_left; [reflexivity | now rewrite activity_columns |].
    now rewrite catalog_has. }
  assert (Htj : has_column (joined activity catalog i j) LICENSE_TYPE = true).
  { apply joined_has_right; try reflexivity; try assumption.
    - intros H; vm_compute in H; discriminate.
    - now rewrite activity_has.
    - now rewrite catalog_has. }
  destruct (manual_mode_ok _ pu choice Hpj Htj) as (manual & Hman & Hcur).
  destruct (user_results_ok _ pu Hpj Htj) as (report & Hrep & Hnames & Hrows).
  exists manual, report.
  repeat (split; [assumption|]).
  assert (Hm : merged df_users df_license_master = Ok (joined activity catalog i j))
    by (apply merged_joined; assumption).
  split; [|split; [|split; [|split; assumption]]].
  - exists (joined activity catalog i j). auto.
  - intros Hne'. unfold run. rewrite Hm. simpl. rewrite Hman. simpl.
    unfold bulk_mode. rewrite Hrep. simpl.
    destruct report; [congruence | reflexivity].
  - rewrite Hnames. f_equal.
    assert (Hlt : (pu < length (columns activity))%nat).
    { rewrite activity_columns. now apply position_Some in Hpu. }
    rewrite (joined_column activity catalog i j activity_rect pu Hlt).
    rewrite (unique_dropna_blocks (fun l : list cell => nth pu l None)
               (copies catalog i j)); [|apply copies_pos].
    rewrite (activity_rows i Hi), map_map. f_equal. f_equal.
    apply map_ext. intros r. now apply nth_update_at_other.
Qed.

End Run.

(** C8: when the sheets have the columns the run reads, under pairwise
    distinct labels, the bulk mode builds its report with exactly one row
    per distinct user name of the users sheet (empty names apart): the
    names of its rows are the distinct names in ascending order of text,
    without repetition, so the number of rows is the number of distinct
    names and the order of the rows depends on the set of names only; with
    at least one row, the run ends with this report. *)
Theorem bulk_report_one_row_per_user
    (df_users df_license_master : DataFrame) (choice : nat) :
  rectangular df_users ->
  has_column (strip_columns df_users) TCODE = true ->
  has_column (strip_columns df_license_master) TCODE = true ->
  has_column (strip_columns df_license_master) LICENSE_TYPE = true ->
  has_column (strip_columns df_users) LICENSE_TYPE = false ->
  has_column (strip_columns df_users) USER_NAME = true ->
  has_column (strip_columns df_license_master) USER_NAME = false ->
  well_labelled df_users df_license_master ->
  exists manual report names,
    builds df_users df_license_master choice manual report
    /\ (report <> [] -> run df_users df_license_master choice = Ok (manual, report))
    /\ column (strip_columns df_users) USER_NAME = Ok names
    /\ map r_user_name report = sort (unique (dropna names))
    /\ NoDup (map r_user_name report)
    /\ ascending (map r_user_name report)
    /\ length report = length (unique (dropna names))
    /\ (forall u, In u (map r_user_name report) <-> In (Some u) names).
Proof.
  intros H1 H2 H3 H4 H5 H6 H7 HL.
  destruct (run_ok df_users df_license_master H1 H2 H3 H4 H5 H6 H7 HL choice)
    as (i & j & pu & manual & report & _ & _ & Hpu & _ & _ & Hb & Hrun & Hnames & _).
  exists manual, report, (map (fun r : list cell => nth pu r None) (rows df_users)).
  split; [exact Hb|]. split; [exact Hrun|].
  split; [unfold column; now rewrite Hpu|].
  split; [exact Hnames|]. rewrite Hnames. split; [|split; [|split]].
  - eapply Permutation_NoDup; [apply sort_perm | apply unique_NoDup].
  - apply sort_ascending.
  - rewrite <- (length_map r_user_name), Hnames.
    symmetry. apply Permutation_length, sort_perm.
  - intros u. now rewrite sort_In, unique_In, dropna_In.
Qed.

Lemma bulk_report_one_row_per_user_witness :
  exists manual report,
    run ex_users ex_master 0 = Ok (manual, report)
    /\ map r_user_name report = [lit "Alice"; lit "Bob"; lit "Carol"].
Proof.
  destruct (bulk_report_one_row_per_user ex_users ex_master 0)
    as (manual & report & names & _ & Hrun & Hcol & Hnames & _);
    try reflexivity.
  - unfold rectangular, ex_users. simpl. repeat constructor.
  - solve_well_labelled.
  - injection Hcol as <-.
    assert (E : map r_user_name report = [lit "Alice"; lit "Bob"; lit "Carol"])
      by (rewrite Hnames; reflexivity).
    exists manual, report. split; [|exact E].
    apply Hrun. intros ->. discriminate.
Defined.




(** Outside that data model, when the master sheet lists a code more than
    once, the current license is taken from the joined rows, where the
    [License] cell of a record is counted once per match.  Dana's sheet
    says Professional twice and Functional once; the report says
    Functional. *)
Lemma current_license_not_prejoin_mode :
  exists manual report,
    run dup_users dup_master 0 = Ok (manual, report)
    /\ map r_user_name report = [lit "Dana"]
    /\ map r_current report = [lit "Functional"]
    /\ user_licenses dup_users (Some (lit "Dana"))
       = [Some (lit "Functional"); Some (lit "Professional"); Some (lit "Professional")]
    /\ ~ current_spec (user_licenses dup_users (Some (lit "Dana"))) (lit "Functional").
Proof.
  eexists. eexists. split; [vm_compute; reflexivity|].
  split; [reflexivity|]. split; [reflexivity|]. split; [reflexivity|].
  intros [[H _] | (_ & H & _)].
  - vm_compute in H. discriminate.
  - specialize (H (lit "Professional")). vm_compute in H. lia.
Qed.

(** The first check of the script: a sheet without [Tcode] stops the run
    with its message. *)
Lemma run_missing_tcode (df_users df_license_master : DataFrame) (choice : nat) :
  has_column (strip_columns df_users) TCODE = false
  \/ has_column (strip_columns df_license_master) TCODE = false ->
  run df_users df_license_master choice = Stopped TCODE_MISSING.
Proof.
  intros H. unfold run, merged.
  destruct H as [H|H]; rewrite H; [reflexivity|].
  now rewrite orb_true_r.
Qed.

(** A users sheet without [User Name], when the master sheet has none
    either, passes both checks and the run ends in the [KeyError] of the
    first access to the column. *)
Lemma run_without_user_name
    (df_users df_license_master : DataFrame) (choice : nat) :
  has_column (strip_columns df_users) TCODE = true ->
  has_column (strip_columns df_license_master) TCODE = true ->
  has_column (strip_columns df_license_master) LICENSE_TYPE = true ->
  has_column (strip_columns df_users) USER_NAME = false ->
  has_column (strip_columns df_license_master) USER_NAME = false ->
  well_labelled df_users df_license_master ->
  run df_users df_license_master choice = KeyError USER_NAME.
Proof.
  intros H1 H2 H3 H4 H5 HL. unfold run.
  assert (Ha : has_column (cleaned_users df_users) TCODE = true)
    by now rewrite activity_has.
  assert (Hc : has_column (cleaned_master df_license_master) TCODE = true)
    by now rewrite catalog_has.
  destruct (has_column_position _ _ Ha) as [i Hi].
  destruct (has_column_position _ _ Hc) as [j Hj].
  rewrite (merged_joined _ _ i j H1 H2 H3 HL Hi Hj). simpl.
  assert (HJ : has_column (joined (cleaned_users df_users)
                             (cleaned_master df_license_master) i j) USER_NAME = false).
  { apply joined_has_neither; try reflexivity.
    - now rewrite activity_has.
    - now rewrite catalog_has. }
  unfold manual_mode, column. unfold has_column in HJ.
  destruct (position USER_NAME (columns (joined _ _ i j))); [discriminate | reflexivity].
Qed.

(** The three users of the specification's scenarios: Alice, over-licensed
    with Professional against Functional; Bob, without data; Carol,
    optimized. *)
Lemma run_scenarios :
  exists manual,
    run ex_users ex_master 0
    = Ok (manual,
          [ {| r_user_name := lit "Alice"; r_user_id := Some (lit "N/A");
               r_current := lit "Professional";
               r_recommended := PStr (lit "Functional");
               r_status := OVER_LICENSED |};
            {| r_user_name := lit "Bob"; r_user_id := Some (lit "N/A");
               r_current := NOT_ASSIGNED; r_recommended := PStr NO_DATA;
               r_status := REVIEW |};
            {| r_user_name := lit "Carol"; r_user_id := Some (lit "N/A");
               r_current := lit "functional";
               r_recommended := PStr (lit "Functional");
               r_status := OPTIMIZED |} ]).
Proof. eexists. vm_compute. reflexivity. Qed.

(** With no user name at all the list of the bulk mode is empty, the frame
    made from it has no columns, and the first chart's read of
    [Recommended License] ends the run. *)
Lemma run_no_users :
  run {| columns := [lit "User Name"; lit "Tcode"]; rows := [] |} ex_master 0
  = KeyError (lit "Recommended License").
Proof. reflexivity. Qed.

(** C5: the script checks [Tcode] in both sheets and [License Type] in the
    master sheet and stops with a message when one is missing; it does not
    check [User Name].  On a users sheet without it the run passes both
    checks and ends in an uncaught [KeyError], not in a reported error. *)
Theorem run_missing_user_name :
  has_column (strip_columns users_without_name) USER_NAME = false
  /\ run users_without_name ex_master 0 = KeyError USER_NAME
  /\ (forall message, run users_without_name ex_master 0 <> Stopped message)
  /\ run users_without_name users_without_name 0 = Stopped LICENSE_TYPE_MISSING
  /\ run ex_users {| columns := [lit "License Type"]; rows := [] |} 0
     = Stopped TCODE_MISSING.
Proof.
  split; [reflexivity|]. split; [reflexivity|]. split; [discriminate|].
  repeat split; reflexivity.
Qed.

(** ** Normalisation: white space and case *)

Lemma lstrip_spaces (ws s : str) :
  forallb is_space ws = true -> lstrip (ws ++ s) = lstrip s.
Proof.
  induction ws as [|c ws IH]; intros H; [reflexivity|].
  simpl in *. apply andb_prop in H as [Hc Hws]. rewrite Hc. now apply IH.
Qed.

Lemma lstrip_all_spaces (ws : str) : forallb is_space ws = true -> lstrip ws = [].
Proof.
  intros H. rewrite <- (app_nil_r ws). now rewrite lstrip_spaces.
Qed.

Lemma rstrip_spaces (s ws : str) :
  forallb is_space ws = true -> rstrip (s ++ ws) = rstrip s.
Proof.
  intros H. unfold rstrip. rewrite rev_app_distr, lstrip_spaces; [reflexivity|].
  rewrite forallb_forall in *. intros c Hc. apply H. now apply in_rev.
Qed.

Lemma lstrip_app_spaces (s ws : str) :
  forallb is_space ws = true ->
  exists w, forallb is_space w = true /\ lstrip (s ++ ws) = lstrip s ++ w.
Proof.
  intros H. induction s as [|c s IH].
  - exists []. split; [reflexivity|]. simpl. now apply lstrip_all_spaces.
  - simpl. destruct (is_space c); [exact IH|]. exists ws. now split.
Qed.

Lemma strip_spaces (ws s ws' : str) :
  forallb is_space ws = true -> forallb is_space ws' = true ->
  strip (ws ++ s ++ ws') = strip s.
Proof.
  intros H H'. unfold strip. rewrite lstrip_spaces by exact H.
  destruct (lstrip_app_spaces s ws' H') as (w & Hw & E).
  rewrite E. now apply rstrip_spaces.
Qed.

(** X1: white space around a license name does not count, whichever of
    the code points of [str.strip()] it is made of: the padded name
    normalises to what the bare name normalises to, and so it is
    classified the same, on either side. *)
Theorem normalize_license_ignores_padding (ws s ws' : str) (other : value) :
  forallb is_space ws = true ->
  forallb is_space ws' = true ->
  normalize_license (PStr (ws ++ s ++ ws')) = normalize_license (PStr s)
  /\ determine_status (PStr (ws ++ s ++ ws')) other = determine_status (PStr s) other
  /\ determine_status other (PStr (ws ++ s ++ ws')) = determine_status other (PStr s).
Proof.
  intros H H'.
  assert (E : normalize_license (PStr (ws ++ s ++ ws')) = normalize_license (PStr s)).
  { unfold normalize_license. simpl. now rewrite strip_spaces. }
  split; [exact E|]. unfold determine_status. now rewrite E.
Qed.

Lemma normalize_license_ignores_padding_witness :
  normalize_license (PStr (lit "  " ++ lit "functional" ++ [0x09; 0xA0]))
  = normalize_license (PStr (lit "functional")).
Proof.
  apply (normalize_license_ignores_padding (lit "  ") (lit "functional") [0x09; 0xA0] PNone);
    reflexivity.
Defined.

Lemma ascii_case_pair (a b : char) : a < 128 -> b < 128 -> case_pair a b = true.
Proof.
  intros Ha Hb.
  assert (H : forallb (case_pair a) (map N.of_nat (seq 0 128)) = true).
  { revert a Ha. apply ascii_cases. vm_compute. reflexivity. }
  revert b Hb. now apply ascii_cases.
Qed.

Lemma same_letters_facts (a b : char) :
  a < 128 -> b < 128 -> to_lower_full a = to_lower_full b ->
  is_space a = is_space b /\ is_cased a = is_cased b
  /\ to_title_full a = to_title_full b /\ to_upper_full a = to_upper_full b.
Proof.
  intros Ha Hb E. pose proof (ascii_case_pair a b Ha Hb) as H.
  unfold case_pair in H. rewrite E, str_eqb_refl in H.
  repeat (apply andb_prop in H as [H ?]).
  repeat match goal with
         | H : Bool.eqb _ _ = true |- _ => apply Bool.eqb_prop in H
         | H : str_eqb _ _ = true |- _ => apply str_eqb_eq in H
         end.
  auto.
Qed.

Lemma same_letters_lstrip (s t : str) :
  same_letters s t -> same_letters (lstrip s) (lstrip t).
Proof.
  induction 1 as [|a b s t (Ha & Hb & E) Hst IH]; [constructor|].
  simpl. destruct (same_letters_facts a b Ha Hb E) as (Hsp & _).
  rewrite <- Hsp. destruct (is_space a); [exact IH | now constructor].
Qed.

Lemma same_letters_rev (s t : str) : same_letters s t -> same_letters (rev s) (rev t).
Proof.
  induction 1 as [|a b s t Hab Hst IH]; [constructor|].
  simpl. apply Forall2_app; [exact IH | now repeat constructor].
Qed.

Lemma same_letters_strip (s t : str) :
  same_letters s t -> same_letters (strip s) (strip t).
Proof.
  intros H. unfold strip, rstrip.
  now apply same_letters_rev, same_letters_lstrip, same_letters_rev, same_letters_lstrip.
Qed.

Lemma same_letters_do_title (s t : str) :
  same_letters s t -> forall b, do_title b s = do_title b t.
Proof.
  induction 1 as [|a c s t (Ha & Hc & E) Hst IH]; intros b; [reflexivity|].
  simpl. destruct (same_letters_facts a c Ha Hc E) as (_ & Hcased & Ht & _).
  rewrite E, Ht, Hcased, (IH (is_cased c)). reflexivity.
Qed.

Lemma same_letters_upper (s t : str) : same_letters s t -> upper s = upper t.
Proof.
  unfold upper. induction 1 as [|a c s t (Ha & Hc & E) Hst IH]; [reflexivity|].
  simpl. destruct (same_letters_facts a c Ha Hc E) as (_ & _ & _ & Hu).
  now rewrite Hu, IH.
Qed.

(** X2: the case of the letters of an ASCII license name does not count:
    two names that differ only in case normalise to the same text, so
    they are classified the same and count as the same entry of a list
    given to [get_highest_license]. *)
Theorem normalize_license_ignores_case (s t : str) (other : value) (rest : list value) :
  same_letters s t ->
  normalize_license (PStr s) = normalize_license (PStr t)
  /\ determine_status (PStr s) other = determine_status (PStr t) other
  /\ determine_status other (PStr s) = determine_status other (PStr t)
  /\ get_highest_license (PStr s :: rest) = get_highest_license (PStr t :: rest).
Proof.
  intros H.
  assert (E : normalize_license (PStr s) = normalize_license (PStr t)).
  { unfold normalize_license, title. simpl. f_equal.
    now apply same_letters_do_title, same_letters_strip. }
  split; [exact E|]. split; [|split].
  - unfold determine_status. now rewrite E.
  - unfold determine_status. now rewrite E.
  - unfold get_highest_license. simpl.
    assert (Ht : match s with [] => false | _ :: _ => true end
                 = match t with [] => false | _ :: _ => true end)
      by (destruct H; reflexivity).
    rewrite Ht. destruct t; [reflexivity|]. simpl. now rewrite E.
Qed.

Lemma normalize_license_ignores_case_witness :
  normalize_license (PStr (lit "pROFESSIONAL")) = normalize_license (PStr (lit "Professional")).
Proof.
  apply (normalize_license_ignores_case (lit "pROFESSIONAL") (lit "Professional") PNone []).
  unfold same_letters. simpl.
  repeat (constructor; [repeat split; reflexivity|]). constructor.
Defined.

(** X3: transaction codes are matched without regard to the case of ASCII
    letters and to white space around them: such codes are cleaned to the
    same key, which is never an empty cell, so the rows that carry them
    are joined. *)
Theorem clean_tcode_ignores_case_and_padding (ws s ws' t : str) :
  forallb is_space ws = true ->
  forallb is_space ws' = true ->
  same_letters s t ->
  clean_tcode (Some (ws ++ s ++ ws')) = clean_tcode (Some t)
  /\ cell_eqb (clean_tcode (Some (ws ++ s ++ ws'))) (clean_tcode (Some t)) = true
  /\ clean_tcode (Some t) <> None.
Proof.
  intros H H' Hst.
  assert (E : clean_tcode (Some (ws ++ s ++ ws')) = clean_tcode (Some t)).
  { unfold clean_tcode, astype_str. simpl. f_equal.
    rewrite strip_spaces by assumption.
    now apply same_letters_upper, same_letters_strip. }
  split; [exact E|]. split; [|discriminate].
  rewrite E. now apply cell_eqb_eq.
Qed.

Lemma clean_tcode_ignores_case_and_padding_witness :
  clean_tcode (Some (lit " " ++ lit "su01" ++ lit "  ")) = clean_tcode (Some (lit "SU01")).
Proof.
  apply (clean_tcode_ignores_case_and_padding (lit " ") (lit "su01") (lit "  ") (lit "SU01"));
    try reflexivity.
  unfold same_letters. simpl.
  repeat (constructor; [repeat split; reflexivity|]). constructor.
Defined.

(** ** Classification: symmetry and the fallback *)

Lemma statuses_distinct :
  OPTIMIZED <> OVER_LICENSED /\ OPTIMIZED <> UNDER_LICENSED /\ OPTIMIZED <> REVIEW
  /\ OVER_LICENSED <> UNDER_LICENSED /\ OVER_LICENSED <> REVIEW
  /\ UNDER_LICENSED <> REVIEW.
Proof. repeat split; intros H; vm_compute in H; discriminate. Qed.

(** The four results of [determine_status] by their conditions. *)
Lemma determine_status_cases (current recommended : value) :
  let c := normalize_license current in
  let r := normalize_license recommended in
  (c = r /\ determine_status current recommended = OPTIMIZED)
  \/ (c <> r /\ (rank_of r < rank_of c)%Z
      /\ determine_status current recommended = OVER_LICENSED)
  \/ (c <> r /\ (rank_of c < rank_of r)%Z
      /\ determine_status current recommended = UNDER_LICENSED)
  \/ (c <> r /\ rank_of c = rank_of r
      /\ determine_status current recommended = REVIEW).
Proof.
  simpl. unfold determine_status. rewrite !rank_of_get.
  destruct (Py.eqb (normalize_license current) (normalize_license recommended)) eqn:E.
  - left. split; [now apply eqb_normalized | reflexivity].
  - right.
    assert (Hne : normalize_license current <> normalize_license recommended).
    { intros H. apply eqb_normalized in H. congruence. }
    destruct (Z.ltb_spec (rank_of (normalize_license recommended))
                (rank_of (normalize_license current))) as [H1|H1]; [left; auto|].
    right.
    destruct (Z.ltb_spec (rank_of (normalize_license current))
                (rank_of (normalize_license recommended))) as [H2|H2]; [left; auto|].
    right. repeat split; auto. lia.
Qed.

(** X4: exchanging the current and the recommended license exchanges
    Over-Licensed and Under-Licensed and keeps Optimized and Review. *)
Theorem determine_status_exchange (a b : value) :
  (determine_status a b = OVER_LICENSED <-> determine_status b a = UNDER_LICENSED)
  /\ (determine_status a b = UNDER_LICENSED <-> determine_status b a = OVER_LICENSED)
  /\ (determine_status a b = OPTIMIZED <-> determine_status b a = OPTIMIZED)
  /\ (determine_status a b = REVIEW <-> determine_status b a = REVIEW).
Proof.
  destruct statuses_distinct as (D1 & D2 & D3 & D4 & D5 & D6).
  destruct (determine_status_cases a b) as [(E & ->)|[(N & R & ->)|[(N & R & ->)|(N & R & ->)]]];
  destruct (determine_status_cases b a) as [(E' & ->)|[(N' & R' & ->)|[(N' & R' & ->)|(N' & R' & ->)]]];
    try (exfalso; congruence); try (exfalso; lia);
    repeat split; intros; try reflexivity; try congruence.
Qed.

(** X5: Review is exactly the case of two different normalised values of
    which neither is a tier of the priority table, and Optimized exactly
    the case of equal normalised values. *)
Theorem determine_status_review_iff (current recommended : value) :
  (determine_status current recommended = REVIEW
   <-> normalize_license current <> normalize_license recommended
       /\ contains LICENSE_PRIORITY (normalize_license current) = false
       /\ contains LICENSE_PRIORITY (normalize_license recommended) = false)
  /\ (determine_status current recommended = OPTIMIZED
      <-> normalize_license current = normalize_license recommended).
Proof.
  destruct statuses_distinct as (D1 & D2 & D3 & D4 & D5 & D6).
  assert (Hnot : forall v, contains LICENSE_PRIORITY v = false <-> ~ In v TIERS).
  { intros v. rewrite <- contains_TIERS. destruct (contains LICENSE_PRIORITY v);
      split; intros H; congruence. }
  destruct (determine_status_cases current recommended)
    as [(E & Hs)|[(N & R & Hs)|[(N & R & Hs)|(N & R & Hs)]]]; rewrite Hs.
  - split; split; intros H; try reflexivity; try congruence. now destruct H.
  - split; split; intros H; try congruence.
    destruct H as (_ & Hc & Hr). apply Hnot, rank_of_not_TIERS in Hc, Hr. lia.
  - split; split; intros H; try congruence.
    destruct H as (_ & Hc & Hr). apply Hnot, rank_of_not_TIERS in Hc, Hr. lia.
  - split; split; intros H; try reflexivity; try congruence.
    split; [exact N|].
    destruct (contains LICENSE_PRIORITY (normalize_license current)) eqn:Hc,
             (contains LICENSE_PRIORITY (normalize_license recommended)) eqn:Hr;
      try (split; reflexivity); exfalso.
    + apply contains_TIERS in Hc, Hr. apply N. now apply rank_of_injective.
    + apply contains_TIERS in Hc. apply Hnot, rank_of_not_TIERS in Hr.
      apply rank_of_TIERS in Hc. lia.
    + apply contains_TIERS in Hr. apply Hnot, rank_of_not_TIERS in Hc.
      apply rank_of_TIERS in Hr. lia.
Qed.

(** ** The highest tier: composition *)

Lemma fold_max_Z_ge (l : list Z) (x : Z) :
  In x l -> (x <= fold_right Z.max 0 l)%Z.
Proof.
  induction l as [|y l IH]; simpl; [tauto|].
  intros [<-|H]; [lia|]. specialize (IH H). lia.
Qed.

Lemma fold_max_Z_bound (l : list Z) (b : Z) :
  (0 <= b)%Z -> (forall x, In x l -> (x <= b)%Z) -> (0 <= fold_right Z.max 0 l <= b)%Z.
Proof.
  intros Hb. induction l as [|y l IH]; intros H; simpl; [lia|].
  assert (y <= b)%Z by (apply H; now left).
  assert (0 <= fold_right Z.max 0 l <= b)%Z by (apply IH; intros x Hx; apply H; now right).
  lia.
Qed.

Lemma tier_of_rank_of (t : value) : In t TIERS -> tier_of_rank (rank_of t) = t.
Proof. intros [H|[H|[H|[]]]]; subst t; reflexivity. Qed.

(** [get_highest_license] returns the name of the highest rank. *)
Lemma get_highest_license_rank (l : list value) :
  get_highest_license l = Ok (tier_of_rank (highest_rank l))
  /\ (0 <= highest_rank l <= 3)%Z.
Proof.
  assert (Hb : (0 <= highest_rank l <= 3)%Z).
  { apply fold_max_Z_bound; [lia|]. intros x Hx.
    apply in_map_iff in Hx as (t & <- & Ht).
    apply valid_licenses_TIERS, rank_of_TIERS in Ht. lia. }
  split; [|exact Hb].
  destruct (get_highest_license_valid l) as [[Hnil H] | (t & H & Hin & Hmax)].
  - rewrite H. unfold highest_rank. rewrite Hnil. reflexivity.
  - rewrite H. f_equal.
    assert (E : highest_rank l = rank_of t).
    { apply Z.le_antisymm.
      - apply fold_max_Z_bound.
        + apply valid_licenses_TIERS, rank_of_TIERS in Hin. lia.
        + intros x Hx. apply in_map_iff in Hx as (u & <- & Hu). now apply Hmax.
      - apply fold_max_Z_ge. now apply in_map. }
    rewrite E. symmetry. apply tier_of_rank_of. eapply valid_licenses_TIERS; eauto.
Qed.

Lemma highest_rank_app (a b : list value) :
  highest_rank (a ++ b) = Z.max (highest_rank a) (highest_rank b).
Proof.
  unfold highest_rank, valid_licenses.
  rewrite filter_app, map_app, filter_app, map_app.
  induction (map rank_of
               (filter (contains LICENSE_PRIORITY) (map normalize_license (filter truthy a))))
    as [|x xs IH]; simpl.
  - assert (0 <= fold_right Z.max 0
              (map rank_of (filter (contains LICENSE_PRIORITY)
                              (map normalize_license (filter truthy b)))))%Z
      by (apply (fold_max_Z_bound _ 3); [lia|];
          intros x Hx; apply in_map_iff in Hx as (t & <- & Ht);
          apply filter_In in Ht as [_ Ht]; apply contains_TIERS, rank_of_TIERS in Ht; lia).
    lia.
  - rewrite IH. lia.
Qed.

Lemma highest_rank_tier_of_rank (x : Z) :
  (0 <= x <= 3)%Z -> highest_rank [tier_of_rank x] = x.
Proof.
  intros H.
  assert (x = 0 \/ x = 1 \/ x = 2 \/ x = 3)%Z as [->|[->|[->| ->]]] by lia; reflexivity.
Qed.

(** X6: the highest license of two lists put together is the highest of
    their two highest licenses, a list without a tier counting as [No
    Data]; in particular the result of [get_highest_license], given back
    to it alone, is returned unchanged, and lengthening a list never
    lowers the rank of the result. *)
Theorem get_highest_license_app (a b : list value) :
  exists ra rb rab,
    get_highest_license a = Ok ra
    /\ get_highest_license b = Ok rb
    /\ get_highest_license (a ++ b) = Ok rab
    /\ get_highest_license [ra; rb] = Ok rab
    /\ get_highest_license [ra] = Ok ra
    /\ (rank_of ra <= rank_of rab)%Z
    /\ (rank_of rb <= rank_of rab)%Z.
Proof.
  destruct (get_highest_license_rank a) as [Ha Hba].
  destruct (get_highest_license_rank b) as [Hb Hbb].
  destruct (get_highest_license_rank (a ++ b)) as [Hab _].
  exists (tier_of_rank (highest_rank a)), (tier_of_rank (highest_rank b)),
    (tier_of_rank (highest_rank (a ++ b))).
  split; [exact Ha|]. split; [exact Hb|]. split; [exact Hab|].
  assert (Hone : forall x, (0 <= x <= 3)%Z ->
                   get_highest_license [tier_of_rank x] = Ok (tier_of_rank x)).
  { intros x Hx. destruct (get_highest_license_rank [tier_of_rank x]) as [E _].
    now rewrite E, highest_rank_tier_of_rank. }
  assert (Hrank : forall x, (0 <= x <= 3)%Z -> rank_of (tier_of_rank x) = x).
  { intros x Hx.
    assert (x = 0 \/ x = 1 \/ x = 2 \/ x = 3)%Z as [->|[->|[->| ->]]] by lia; reflexivity. }
  split; [|split; [now apply Hone|]].
  - destruct (get_highest_license_rank
                [tier_of_rank (highest_rank a); tier_of_rank (highest_rank b)]) as [E _].
    rewrite E. do 2 f_equal.
    change [tier_of_rank (highest_rank a); tier_of_rank (highest_rank b)]
      with ([tier_of_rank (highest_rank a)] ++ [tier_of_rank (highest_rank b)]).
    now rewrite !highest_rank_app, !highest_rank_tier_of_rank.
  - rewrite highest_rank_app, !Hrank by lia. lia.
Qed.

(** ** The run: how it can end *)

Lemma count_label_present (c : str) (cols : list str) :
  In c cols -> (1 <= count_label c cols)%nat.
Proof.
  unfold count_label. induction cols as [|x cols IH]; intros H; [destruct H|].
  simpl. destruct (str_eqb c x) eqn:E; [simpl; lia|].
  apply str_eqb_neq in E. destruct H as [H|H]; [congruence | now apply IH].
Qed.

Lemma assign_cleaned_cases (c : str) (f : cell -> cell) (df : DataFrame) :
  has_column df c = true ->
  (count_label c (columns df) = 1%nat /\ assign_cleaned c f df = Ok (map_column c f df))
  \/ ((1 < count_label c (columns df))%nat /\ assign_cleaned c f df = AttributeError).
Proof.
  intros H. apply has_column_In, count_label_present in H. unfold assign_cleaned.
  destruct (count_label c (columns df)) as [|[|n]]; [lia | now left | right; split; [lia|reflexivity]].
Qed.

(** How the frame [merged] comes about, whatever the sheets hold. *)
Lemma merged_general (df_users df_license_master : DataFrame) :
  let users := strip_columns df_users in
  let master := strip_columns df_license_master in
  ((has_column users TCODE = false \/ has_column master TCODE = false)
   /\ merged df_users df_license_master = Stopped TCODE_MISSING)
  \/ (has_column users TCODE = true /\ has_column master TCODE = true
      /\ (1 < count_label TCODE (columns users)
          \/ 1 < count_label TCODE (columns master))%nat
      /\ merged df_users df_license_master = AttributeError)
  \/ (count_label TCODE (columns users) = 1%nat
      /\ count_label TCODE (columns master) = 1%nat
      /\ has_column master LICENSE_TYPE = false
      /\ merged df_users df_license_master = Stopped LICENSE_TYPE_MISSING)
  \/ (count_label TCODE (columns users) = 1%nat
      /\ count_label TCODE (columns master) = 1%nat
      /\ (1 < count_label LICENSE_TYPE (columns master))%nat
      /\ merged df_users df_license_master = AttributeError)
  \/ (count_label TCODE (columns users) = 1%nat
      /\ count_label TCODE (columns master) = 1%nat
      /\ count_label LICENSE_TYPE (columns master) = 1%nat
      /\ merged df_users df_license_master
         = merge_left (cleaned_users df_users) (cleaned_master df_license_master) TCODE).
Proof.
  cbv zeta. unfold merged.
  destruct (has_column (strip_columns df_users) TCODE) eqn:H1;
    [|left; split; [now left | reflexivity]].
  destruct (has_column (strip_columns df_license_master) TCODE) eqn:H2;
    [|left; split; [now right | reflexivity]].
  right. cbn [negb orb].
  destruct (assign_cleaned_cases TCODE clean_tcode _ H1) as [(C1 & E1)|(C1 & E1)];
    rewrite E1; cbn [bind]; [|left; repeat split; auto].
  destruct (assign_cleaned_cases TCODE clean_tcode _ H2) as [(C2 & E2)|(C2 & E2)];
    rewrite E2; cbn [bind]; [|left; repeat split; auto].
  right. rewrite has_column_map_column.
  destruct (has_column (strip_columns df_license_master) LICENSE_TYPE) eqn:H3;
    [|left; repeat split; auto].
  right.
  assert (H3' : has_column (map_column TCODE clean_tcode (strip_columns df_license_master))
                  LICENSE_TYPE = true) by now rewrite has_column_map_column.
  destruct (assign_cleaned_cases LICENSE_TYPE clean_license_type _ H3')
    as [(C3 & E3)|(C3 & E3)]; rewrite E3; cbn [bind];
    rewrite map_column_columns in C3; [right | left]; repeat split; auto.
Qed.

Lemma merged_cases (df_users df_license_master : DataFrame) :
  well_labelled df_users df_license_master ->
  ((has_column (strip_columns df_users) TCODE = false
    \/ has_column (strip_columns df_license_master) TCODE = false)
   /\ merged df_users df_license_master = Stopped TCODE_MISSING)
  \/ (has_column (strip_columns df_users) TCODE = true
      /\ has_column (strip_columns df_license_master) TCODE = true
      /\ has_column (strip_columns df_license_master) LICENSE_TYPE = false
      /\ merged df_users df_license_master = Stopped LICENSE_TYPE_MISSING)
  \/ (has_column (strip_columns df_users) TCODE = true
      /\ has_column (strip_columns df_license_master) TCODE = true
      /\ has_column (strip_columns df_license_master) LICENSE_TYPE = true
      /\ exists i j,
           position TCODE (columns (cleaned_users df_users)) = Some i
           /\ position TCODE (columns (cleaned_master df_license_master)) = Some j
           /\ merged df_users df_license_master
              = Ok (joined (cleaned_users df_users) (cleaned_master df_license_master) i j)).
Proof.
  intros HL.
  destruct (has_column (strip_columns df_users) TCODE) eqn:H1.
  2: { left. split; [now left|]. unfold merged. now rewrite H1. }
  destruct (has_column (strip_columns df_license_master) TCODE) eqn:H2.
  2: { left. split; [now right|]. unfold merged. now rewrite H1, H2. }
  right.
  destruct (has_column (strip_columns df_license_master) LICENSE_TYPE) eqn:H3.
  - right. repeat (split; [reflexivity|]).
    assert (Ha : has_column (cleaned_users df_users) TCODE = true)
      by now rewrite activity_has.
    assert (Hc : has_column (cleaned_master df_license_master) TCODE = true)
      by now rewrite catalog_has.
    destruct (has_column_position _ _ Ha) as [i Hi].
    destruct (has_column_position _ _ Hc) as [j Hj].
    exists i, j. split; [exact Hi|]. split; [exact Hj|].
    now apply merged_joined.
  - left. repeat (split; [reflexivity|]).
    destruct HL as (Nu & Nm & _).
    destruct (merged_general df_users df_license_master)
      as [([H|H] & _)|[(_ & _ & [H|H] & _)|[(_ & _ & _ & E)|[(_ & _ & H & _)|(_ & _ & H & _)]]]];
      try congruence.
    + rewrite (count_label_once _ _ Nu) in H; [lia | now apply has_column_In].
    + rewrite (count_label_once _ _ Nm) in H; [lia | now apply has_column_In].
    + assert (Hin : In LICENSE_TYPE (columns (strip_columns df_license_master))).
      { destruct (in_dec (list_eq_dec N.eq_dec) LICENSE_TYPE
                    (columns (strip_columns df_license_master))) as [Hin|Hin]; [exact Hin|].
        rewrite (count_label_absent _ _ Hin) in H. lia. }
      apply has_column_In in Hin. congruence.
    + apply count_label_has in H. congruence.
Qed.

Lemma recommended_license_cases (user_data : DataFrame) :
  (has_column user_data LICENSE_TYPE = false
   /\ recommended_license user_data = KeyError LICENSE_TYPE)
  \/ (has_column user_data LICENSE_TYPE = true
      /\ exists v, recommended_license user_data = Ok v).
Proof.
  destruct (has_column user_data LICENSE_TYPE) eqn:H.
  - right. split; [reflexivity|].
    destruct (recommended_license_ok user_data H) as (v & Hv & _). eauto.
  - left. split; [reflexivity|]. unfold recommended_license, column.
    unfold has_column in H.
    destruct (position LICENSE_TYPE (columns user_data)); [discriminate | reflexivity].
Qed.

Lemma manual_mode_cases (m : DataFrame) (choice : nat) :
  manual_mode m choice = KeyError USER_NAME
  \/ manual_mode m choice = KeyError LICENSE_TYPE
  \/ exists manual, manual_mode m choice = Ok manual.
Proof.
  unfold manual_mode, column, where_eq.
  destruct (position USER_NAME (columns m)) as [pu|]; [|now left]. simpl.
  set (selected := selectbox _ choice).
  destruct (current_license_spec (select_rows m pu selected)) as (cur & Hcur & _).
  rewrite Hcur. simpl.
  destruct (recommended_license_cases (select_rows m pu selected))
    as [(_ & E) | (_ & v & E)]; rewrite E; simpl; eauto.
Qed.

Lemma for_each_all_fail {A B : Type} (f : A -> outcome B) (key : str) (l : list A) :
  l <> [] -> (forall x, In x l -> f x = KeyError key) -> for_each f l = KeyError key.
Proof.
  destruct l as [|x l]; [congruence|]. intros _ H. simpl.
  now rewrite (H x (or_introl eq_refl)).
Qed.

Lemma report_row_no_tier (user : str) (group : DataFrame) :
  has_column group LICENSE_TYPE = false -> report_row user group = KeyError LICENSE_TYPE.
Proof.
  intros H. unfold report_row.
  destruct (recommended_license_cases group) as [(_ & E) | (E & _)]; [|congruence].
  now rewrite E.
Qed.

Lemma user_results_cases (m : DataFrame) :
  user_results m = KeyError USER_NAME
  \/ user_results m = KeyError LICENSE_TYPE
  \/ exists report, user_results m = Ok report.
Proof.
  destruct (position USER_NAME (columns m)) as [pu|] eqn:Hpu.
  2: { left. unfold user_results, groupby. now rewrite Hpu. }
  right. destruct (has_column m LICENSE_TYPE) eqn:Ht.
  - right. destruct (user_results_ok m pu Hpu Ht) as (report & H & _). eauto.
  - unfold user_results, groupby. rewrite Hpu. simpl.
    destruct (sort (unique (dropna (map (fun r : list cell => nth pu r None) (rows m)))))
      as [|k ks] eqn:E.
    + right. now exists [].
    + left. apply for_each_all_fail; [discriminate|].
      intros ug Hug. apply in_map_iff in Hug as (k' & <- & _).
      now apply report_row_no_tier.
Qed.

Lemma bulk_mode_cases (m : DataFrame) :
  bulk_mode m = KeyError USER_NAME
  \/ bulk_mode m = KeyError LICENSE_TYPE
  \/ (user_results m = Ok [] /\ bulk_mode m = KeyError (lit "Recommended License"))
  \/ exists report, report <> [] /\ user_results m = Ok report /\ bulk_mode m = Ok report.
Proof.
  unfold bulk_mode.
  destruct (user_results_cases m) as [E|[E|(report & E)]]; rewrite E; simpl; auto.
  destruct report as [|r report]; [right; right; left; auto|].
  right; right; right. exists (r :: report). repeat split. discriminate.
Qed.

(** What is left of the run once the sheets are joined never stops it
    with a message. *)
Lemma modes_cases (m : DataFrame) (choice : nat) :
  let rest := manual <- manual_mode m choice ;; report <- bulk_mode m ;; Ok (manual, report) in
  rest = KeyError USER_NAME
  \/ rest = KeyError LICENSE_TYPE
  \/ rest = KeyError (lit "Recommended License")
  \/ exists manual report, rest = Ok (manual, report).
Proof.
  simpl.
  destruct (manual_mode_cases m choice) as [E|[E|(manual & E)]]; rewrite E; simpl; auto.
  destruct (bulk_mode_cases m) as [B|[B|[(_ & B)|(report & _ & _ & B)]]];
    rewrite B; simpl; eauto 7.
Qed.

Lemma has_column_count (df : DataFrame) (c : str) :
  has_column df c = true <-> (1 <= count_label c (columns df))%nat.
Proof.
  split; intros H.
  - now apply count_label_present, has_column_In.
  - apply has_column_In.
    destruct (in_dec (list_eq_dec N.eq_dec) c (columns df)) as [Hin|Hin]; [exact Hin|].
    rewrite (count_label_absent _ _ Hin) in H. lia.
Qed.

(** The merge of two frames that have the key either raises a
    [MergeError] or is their join. *)
Lemma merge_left_cases (left right : DataFrame) :
  has_column left TCODE = true ->
  has_column right TCODE = true ->
  merge_left left right TCODE = MergeError
  \/ exists i j, merge_left left right TCODE = Ok (joined left right i j).
Proof.
  intros Hl Hr.
  destruct (has_column_position _ _ Hl) as [i Hi].
  destruct (has_column_position _ _ Hr) as [j Hj].
  unfold merge_left. rewrite Hi, Hj. cbv zeta.
  destruct (suffix_collision (columns left)
              (map (suffixed left right TCODE (lit "_x")) (columns left))
            || suffix_collision (remove_at j (columns right))
                 (map (suffixed left right TCODE (lit "_y")) (remove_at j (columns right))));
    [now left | right; exists i, j; reflexivity].
Qed.

(** X7: for two sheets whose labels are pairwise distinct once stripped,
    and stay so in the joined frame, the run ends in one of these ways
    only: with its result; stopped with one of the two messages of the
    column checks; or in a [KeyError] for [User Name], [License Type] or
    [Recommended License].  It never ends in an [IndexError] (no group is
    empty when its first user id is read), never in a [KeyError] of the
    priority table, and never in an [AttributeError] or a [MergeError]. *)
Theorem run_outcomes (df_users df_license_master : DataFrame) (choice : nat) :
  well_labelled df_users df_license_master ->
  match run df_users df_license_master choice with
  | Ok _ => True
  | Stopped message => message = TCODE_MISSING \/ message = LICENSE_TYPE_MISSING
  | KeyError key =>
      key = USER_NAME \/ key = LICENSE_TYPE \/ key = lit "Recommended License"
  | IndexError => False
  | AttributeError => False
  | MergeError => False
  end.
Proof.
  intros HL. unfold run.
  destruct (merged_cases df_users df_license_master HL)
    as [(_ & E)|[(_ & _ & _ & E)|(_ & _ & _ & i & j & _ & _ & E)]]; rewrite E; simpl; auto.
  destruct (modes_cases (joined (cleaned_users df_users)
                           (cleaned_master df_license_master) i j) choice)
    as [R|[R|[R|(manual & report & R)]]]; simpl in R; rewrite R; auto.
Qed.

Lemma run_outcomes_witness :
  well_labelled users_without_name ex_master
  /\ run users_without_name ex_master 0 <> AttributeError.
Proof.
  assert (HL : well_labelled users_without_name ex_master) by solve_well_labelled.
  split; [exact HL|]. intros H.
  pose proof (run_outcomes users_without_name ex_master 0 HL) as R.
  rewrite H in R. exact R.
Defined.

(** X8: whatever the two sheets hold, the run is stopped with the [Tcode]
    message exactly when one of the sheets has no label that strips to
    [Tcode], whatever else is missing, and with the [License Type] message
    exactly when each sheet has exactly one such label and the master
    sheet has none that strips to [License Type].  When both sheets have
    a [Tcode] label and one of the labels that are cleaned ([Tcode] in
    either sheet, [License Type] in the master sheet) occurs twice, the
    run ends in an [AttributeError] instead: the cleaning step reads a
    frame where it expects a column. *)
Theorem run_stopped_iff (df_users df_license_master : DataFrame) (choice : nat) :
  (run df_users df_license_master choice = Stopped TCODE_MISSING
   <-> has_column (strip_columns df_users) TCODE = false
       \/ has_column (strip_columns df_license_master) TCODE = false)
  /\ (run df_users df_license_master choice = Stopped LICENSE_TYPE_MISSING
      <-> count_label TCODE (columns (strip_columns df_users)) = 1%nat
          /\ count_label TCODE (columns (strip_columns df_license_master)) = 1%nat
          /\ has_column (strip_columns df_license_master) LICENSE_TYPE = false)
  /\ (has_column (strip_columns df_users) TCODE = true ->
      has_column (strip_columns df_license_master) TCODE = true ->
      (1 < count_label TCODE (columns (strip_columns df_users))
       \/ 1 < count_label TCODE (columns (strip_columns df_license_master))
       \/ 1 < count_label LICENSE_TYPE (columns (strip_columns df_license_master)))%nat ->
      run df_users df_license_master choice = AttributeError).
Proof.
  assert (Hdiff : Stopped (A := UserAssessment * list ReportRow) TCODE_MISSING
                  <> Stopped LICENSE_TYPE_MISSING)
    by (intros H; vm_compute in H; discriminate).
  assert (Hend : forall o : outcome (UserAssessment * list ReportRow),
             o = MergeError
             \/ o = KeyError USER_NAME
             \/ o = KeyError LICENSE_TYPE
             \/ o = KeyError (lit "Recommended License")
             \/ (exists r, o = Ok r) ->
             o <> Stopped TCODE_MISSING
             /\ o <> Stopped LICENSE_TYPE_MISSING
             /\ o <> AttributeError).
  { intros o [->|[->|[->|[->|(r & ->)]]]]; repeat split; discriminate. }
  pose proof (has_column_count (strip_columns df_users) TCODE) as Ku.
  pose proof (has_column_count (strip_columns df_license_master) TCODE) as Km.
  pose proof (has_column_count (strip_columns df_license_master) LICENSE_TYPE) as Kt.
  unfold run.
  destruct (merged_general df_users df_license_master)
    as [(H & E)|[(H1 & H2 & H & E)|[(C1 & C2 & H3 & E)|[(C1 & C2 & C3 & E)|(C1 & C2 & C3 & E)]]]];
    rewrite E; cbn [bind].
  5: { assert (Ha : has_column (cleaned_users df_users) TCODE = true)
         by (rewrite activity_has; apply Ku; lia).
       assert (Hc : has_column (cleaned_master df_license_master) TCODE = true)
         by (rewrite catalog_has; apply Km; lia).
       match goal with
       | |- (?o = _ <-> _) /\ _ => destruct (Hend o) as (S1 & S2 & S3)
       end.
       - destruct (merge_left_cases _ _ Ha Hc) as [M'|(i & j & M')]; rewrite M'; cbn [bind];
           [now left | right].
         destruct (modes_cases (joined (cleaned_users df_users)
                                  (cleaned_master df_license_master) i j) choice)
           as [R|[R|[R|(manual & report & R)]]]; cbv zeta in R; rewrite R; eauto 6.
       - destruct (has_column (strip_columns df_users) TCODE),
           (has_column (strip_columns df_license_master) TCODE),
           (has_column (strip_columns df_license_master) LICENSE_TYPE);
           intuition (try discriminate; try lia). }
  all: destruct (has_column (strip_columns df_users) TCODE),
         (has_column (strip_columns df_license_master) TCODE),
         (has_column (strip_columns df_license_master) LICENSE_TYPE);
       intuition (try discriminate; try lia; try congruence).
Qed.

Lemma run_stopped_iff_witness : run users_tcode_twice ex_master 0 = AttributeError.
Proof.
  apply (proj2 (proj2 (run_stopped_iff users_tcode_twice ex_master 0)));
    [reflexivity | reflexivity | left; vm_compute; lia].
Defined.

(** The join raises when a suffix makes a label that the sheet already
    has: [License] of the users sheet becomes [License_x] next to the
    sheet's own [License_x]. *)
Lemma run_suffix_collision : run users_license_x ex_master_license 0 = MergeError.
Proof. reflexivity. Qed.

(** ** The join: size *)

Lemma flat_map_length_ones {A B : Type} (f : A -> list B) (l : list A) :
  (forall x, length (f x) = 1%nat) -> length (flat_map f l) = length l.
Proof.
  intros H. induction l as [|x l IH]; [reflexivity|].
  rewrite flat_map_cons, length_app, H, IH. reflexivity.
Qed.

(** X10: for sheets with pairwise distinct labels, the required columns
    and ASCII text in every code cell of the master sheet: when no two
    rows of the master sheet have the same cleaned transaction code, the
    join neither drops nor multiplies a record, and [merged] has exactly
    as many rows as the users sheet. *)
Theorem merged_same_length (df_users df_license_master : DataFrame) :
  has_column (strip_columns df_users) TCODE = true ->
  has_column (strip_columns df_license_master) TCODE = true ->
  has_column (strip_columns df_license_master) LICENSE_TYPE = true ->
  well_labelled df_users df_license_master ->
  ascii_cells df_license_master TCODE ->
  NoDup (map (key_of (cleaned_master df_license_master) TCODE)
             (rows (cleaned_master df_license_master))) ->
  exists m,
    merged df_users df_license_master = Ok m
    /\ length (rows m) = length (rows df_users).
Proof.
  intros H1 H2 H3 HL _ Hnd.
  destruct (merged_cases df_users df_license_master HL)
    as [([H|H] & _)|[(_ & _ & H & _)|(_ & _ & _ & i & j & Hi & Hj & E)]]; try congruence.
  exists (joined (cleaned_users df_users) (cleaned_master df_license_master) i j).
  split; [exact E|]. simpl.
  rewrite flat_map_length_ones.
  - unfold cleaned_users. rewrite map_column_length. reflexivity.
  - intros l. apply (copies_unique (cleaned_master df_license_master) i j l).
    unfold key_of in Hnd. now rewrite Hj in Hnd.
Qed.

Lemma merged_same_length_witness :
  exists m, merged ex_users ex_master = Ok m /\ length (rows m) = 5%nat.
Proof.
  destruct (merged_same_length ex_users ex_master) as (m & Hm & Hlen).
  - reflexivity.
  - reflexivity.
  - reflexivity.
  - solve_well_labelled.
  - solve_ascii_cells.
  - vm_compute. repeat constructor; simpl; intros H;
      repeat (destruct H as [H|H]; [discriminate|]); exact H.
  - exists m. split; [exact Hm | exact Hlen].
Defined.

(** ** The two modes: what their results are made of *)

Lemma for_each_Forall2 {A B : Type} (f : A -> outcome B) (l : list A) (ys : list B) :
  for_each f l = Ok ys -> Forall2 (fun x y => f x = Ok y) l ys.
Proof.
  revert ys. induction l as [|x l IH]; intros ys H; simpl in H.
  - injection H as <-. constructor.
  - destruct (f x) as [y| | | | |] eqn:Ey; simpl in H; try discriminate.
    destruct (for_each f l) as [ys'| | | | |]; simpl in H; try discriminate.
    injection H as <-. constructor; [exact Ey | now apply IH].
Qed.

Lemma report_row_inv (user : str) (group : DataFrame) (r : ReportRow) :
  report_row user group = Ok r ->
  r_user_name r = user
  /\ recommended_license group = Ok (r_recommended r)
  /\ current_license group = Ok (r_current r)
  /\ first_user_id group = Ok (r_user_id r)
  /\ r_status r = determine_status (PStr (r_current r)) (r_recommended r).
Proof.
  unfold report_row. intros H.
  destruct (recommended_license group) as [rec| | | | |]; simpl in H; try discriminate.
  destruct (current_license group) as [cur| | | | |]; simpl in H; try discriminate.
  destruct (first_user_id group) as [uid| | | | |]; simpl in H; try discriminate.
  injection H as <-. simpl. auto.
Qed.

Lemma user_results_inv (m : DataFrame) (pu : nat) (report : list ReportRow) :
  position USER_NAME (columns m) = Some pu ->
  user_results m = Ok report ->
  map r_user_name report
  = sort (unique (dropna (map (fun r : list cell => nth pu r None) (rows m))))
  /\ forall r, In r report ->
       report_row (r_user_name r) (select_rows m pu (Some (r_user_name r))) = Ok r.
Proof.
  intros Hpu H. unfold user_results, groupby in H. rewrite Hpu in H. simpl in H.
  apply for_each_Forall2 in H.
  set (keys := sort (unique (dropna (map (fun r : list cell => nth pu r None) (rows m)))))
    in *.
  clearbody keys. revert report H.
  induction keys as [|k keys IH]; intros report H; inversion H; subst; simpl.
  - split; [reflexivity | tauto].
  - match goal with
    | Hrow : report_row _ _ = Ok ?y, Hrest : Forall2 _ _ ?ys |- _ =>
        simpl in Hrow; destruct (report_row_inv _ _ _ Hrow) as (Hn & _);
        destruct (IH _ Hrest) as [E1 E2];
        split; [now rewrite Hn, E1|];
        intros r [<-|Hr]; [now rewrite Hn | now apply E2]
    end.
Qed.

Lemma manual_mode_inv (m : DataFrame) (pu choice : nat) (manual : UserAssessment) :
  position USER_NAME (columns m) = Some pu ->
  manual_mode m choice = Ok manual ->
  a_user manual
  = selectbox (unique (dropna (map (fun r : list cell => nth pu r None) (rows m)))) choice
  /\ current_license (select_rows m pu (a_user manual)) = Ok (a_current manual)
  /\ recommended_license (select_rows m pu (a_user manual)) = Ok (a_recommended manual)
  /\ a_status manual = determine_status (PStr (a_current manual)) (a_recommended manual).
Proof.
  intros Hpu H. unfold manual_mode, column, where_eq in H. rewrite Hpu in H. simpl in H.
  set (selected := selectbox _ choice) in *.
  destruct (current_license (select_rows m pu selected)) as [cur| | | | |] eqn:Ec;
    simpl in H; try discriminate.
  destruct (recommended_license (select_rows m pu selected)) as [rec| | | | |] eqn:Er;
    simpl in H; try discriminate.
  injection H as <-. simpl. auto.
Qed.

Lemma selectbox_In (options : list str) (choice : nat) (u : str) :
  selectbox options choice = Some u -> In u options.
Proof.
  unfold selectbox. destruct options as [|first rest]; [discriminate|].
  intros E. assert (Hu : u = nth choice (first :: rest) first) by congruence.
  rewrite Hu. clear E Hu.
  destruct (Nat.lt_ge_cases choice (length (first :: rest))) as [H|H].
  - apply (nth_In (first :: rest) first H).
  - rewrite (nth_overflow (first :: rest) first H). now left.
Qed.

Lemma select_rows_nobody (m : DataFrame) (pu : nat) : rows (select_rows m pu None) = [].
Proof.
  unfold select_rows. simpl. induction (rows m) as [|r rs IH]; [reflexivity|]. exact IH.
Qed.

(** The modes on the joined frame, read off a run that got through them. *)
Lemma builds_inv (df_users df_license_master : DataFrame) (choice i j : nat)
    (manual : UserAssessment) (report : list ReportRow) :
  has_column (strip_columns df_users) TCODE = true ->
  has_column (strip_columns df_license_master) TCODE = true ->
  has_column (strip_columns df_license_master) LICENSE_TYPE = true ->
  well_labelled df_users df_license_master ->
  position TCODE (columns (cleaned_users df_users)) = Some i ->
  position TCODE (columns (cleaned_master df_license_master)) = Some j ->
  builds df_users df_license_master choice manual report ->
  manual_mode (joined (cleaned_users df_users) (cleaned_master df_license_master) i j)
    choice = Ok manual
  /\ user_results (joined (cleaned_users df_users) (cleaned_master df_license_master) i j)
     = Ok report.
Proof.
  intros H1 H2 H3 HL Hi Hj (m & Hm & Hman & Hrep).
  rewrite (merged_joined _ _ i j H1 H2 H3 HL Hi Hj) in Hm.
  injection Hm as <-. now split.
Qed.

(** X11: the manual view and the bulk report agree.  When the sheets have
    the columns the run reads, under pairwise distinct labels, the user
    shown by the manual mode is one of
    the user names of the users sheet and has a row in the bulk report
    with the same current license, recommended license and status; when
    no record has a user name, the manual mode shows nobody, with Not
    Assigned, No Data and Review, and the report is empty. *)
Theorem manual_agrees_with_bulk
    (df_users df_license_master : DataFrame) (choice : nat) :
  rectangular df_users ->
  has_column (strip_columns df_users) TCODE = true ->
  has_column (strip_columns df_license_master) TCODE = true ->
  has_column (strip_columns df_license_master) LICENSE_TYPE = true ->
  has_column (strip_columns df_users) LICENSE_TYPE = false ->
  has_column (strip_columns df_users) USER_NAME = true ->
  has_column (strip_columns df_license_master) USER_NAME = false ->
  well_labelled df_users df_license_master ->
  exists manual report names,
    builds df_users df_license_master choice manual report
    /\ column (strip_columns df_users) USER_NAME = Ok names
    /\ match a_user manual with
       | Some u =>
           In (Some u) names
           /\ exists r, In r report
                        /\ r_user_name r = u
                        /\ r_current r = a_current manual
                        /\ r_recommended r = a_recommended manual
                        /\ r_status r = a_status manual
       | None =>
           dropna names = []
           /\ report = []
           /\ a_current manual = NOT_ASSIGNED
           /\ a_recommended manual = PStr NO_DATA
           /\ a_status manual = REVIEW
       end.
Proof.
  intros H1 H2 H3 H4 H5 H6 H7 HL.
  destruct (run_ok df_users df_license_master H1 H2 H3 H4 H5 H6 H7 HL choice)
    as (i & j & pu & manual & report & Hi & Hj & Hpu & _ & HpJ & Hb & _ & Hnames & _).
  exists manual, report, (map (fun r : list cell => nth pu r None) (rows df_users)).
  split; [exact Hb|]. split; [unfold column; now rewrite Hpu|].
  destruct (builds_inv _ _ _ i j _ _ H2 H3 H4 HL Hi Hj Hb) as [Hman Hrep].
  set (J := joined (cleaned_users df_users) (cleaned_master df_license_master) i j) in *.
  destruct (user_results_inv J pu report HpJ Hrep) as [HnJ Hrows].
  destruct (manual_mode_inv J pu choice manual HpJ Hman) as (Hsel & Hcur & Hrec & Hst).
  assert (Hu : unique (dropna (map (fun r : list cell => nth pu r None) (rows J)))
               = unique (dropna (map (fun r : list cell => nth pu r None) (rows df_users)))).
  { assert (Hperm : sort (unique (dropna (map (fun r : list cell => nth pu r None) (rows J))))
                    = sort (unique (dropna (map (fun r : list cell => nth pu r None)
                                                (rows df_users)))))
      by congruence.
    assert (Hlt : (pu < length (columns (cleaned_users df_users)))%nat).
    { rewrite activity_columns. now apply position_Some in Hpu. }
    unfold J.
    rewrite (joined_column _ _ i j (activity_rect df_users H1) pu Hlt).
    rewrite (unique_dropna_blocks (fun l : list cell => nth pu l None)
               (copies (cleaned_master df_license_master) i j)); [|apply copies_pos].
    rewrite (activity_rows df_users i Hi), map_map. do 2 f_equal.
    apply map_ext. intros r. apply nth_update_at_other.
    intros ->. rewrite activity_columns in Hi.
    apply position_Some in Hi as [_ E1]. apply position_Some in Hpu as [_ E2].
    rewrite E1 in E2. vm_compute in E2. discriminate. }
  rewrite Hu in Hsel.
  destruct (a_user manual) as [u|] eqn:Eu.
  - symmetry in Hsel. apply selectbox_In in Hsel.
    split; [now apply dropna_In, unique_In|].
    assert (Hin : In u (map r_user_name report))
      by (rewrite Hnames; now apply sort_In).
    apply in_map_iff in Hin as (r & Hr & Hin).
    exists r. split; [exact Hin|]. split; [exact Hr|].
    destruct (report_row_inv _ _ _ (Hrows r Hin)) as (_ & Hrec' & Hcur' & _ & Hst').
    rewrite Hr in Hrec', Hcur'. rewrite Hcur in Hcur'. rewrite Hrec in Hrec'.
    injection Hcur' as Hc. injection Hrec' as Hre.
    split; [now symmetry|]. split; [now symmetry|]. now rewrite Hst', Hst, Hc, Hre.
  - assert (Hnil : unique (dropna (map (fun r : list cell => nth pu r None) (rows df_users)))
                   = []).
    { unfold selectbox in Hsel. now destruct (unique _). }
    assert (Hdn : dropna (map (fun r : list cell => nth pu r None) (rows df_users)) = []).
    { destruct (dropna _) as [|x xs]; [reflexivity | simpl in Hnil; discriminate]. }
    split; [exact Hdn|]. rewrite Hnil in Hnames. simpl in Hnames.
    split; [now destruct report|].
    assert (Hc : a_current manual = NOT_ASSIGNED).
    { unfold current_license, column, has_column in Hcur.
      change (columns (select_rows J pu None)) with (columns J) in Hcur.
      rewrite select_rows_nobody in Hcur.
      destruct (position LICENSE (columns J)); simpl in Hcur; congruence. }
    assert (Hr : a_recommended manual = PStr NO_DATA).
    { unfold recommended_license, column in Hrec.
      change (columns (select_rows J pu None)) with (columns J) in Hrec.
      rewrite select_rows_nobody in Hrec.
      destruct (position LICENSE_TYPE (columns J)); simpl in Hrec; [|discriminate].
      vm_compute in Hrec. injection Hrec as E. symmetry. exact E. }
    split; [exact Hc|]. split; [exact Hr|]. rewrite Hst, Hc, Hr. reflexivity.
Qed.

Lemma manual_agrees_with_bulk_witness :
  exists manual report,
    builds ex_users ex_master 1 manual report
    /\ exists r, In r report /\ a_user manual = Some (r_user_name r)
                 /\ r_status r = a_status manual.
Proof.
  destruct (manual_agrees_with_bulk ex_users ex_master 1)
    as (manual & report & names & Hb & Hcol & Hagree); try reflexivity.
  - unfold rectangular, ex_users. simpl. repeat constructor.
  - solve_well_labelled.
  - exists manual, report. split; [exact Hb|].
    destruct (a_user manual) as [u|].
    + destruct Hagree as (_ & r & Hin & Hn & _ & _ & Hs).
      exists r. split; [exact Hin|]. split; [now rewrite Hn | exact Hs].
    + destruct Hagree as (Hdn & _). injection Hcol as <-. discriminate.
Defined.

(** X12: when the users sheet has the columns the run reads, under
    pairwise distinct labels, but no record with a user name, the bulk
    report is empty, the frame made from it has
    no columns, and the run ends in the [KeyError] of the first chart's
    read of [Recommended License], after the manual view. *)
Theorem run_without_users
    (df_users df_license_master : DataFrame) (choice : nat) (names : list cell) :
  rectangular df_users ->
  has_column (strip_columns df_users) TCODE = true ->
  has_column (strip_columns df_license_master) TCODE = true ->
  has_column (strip_columns df_license_master) LICENSE_TYPE = true ->
  has_column (strip_columns df_users) LICENSE_TYPE = false ->
  has_column (strip_columns df_license_master) USER_NAME = false ->
  well_labelled df_users df_license_master ->
  column (strip_columns df_users) USER_NAME = Ok names ->
  dropna names = [] ->
  run df_users df_license_master choice = KeyError (lit "Recommended License")
  /\ exists manual, builds df_users df_license_master choice manual [].
Proof.
  intros H1 H2 H3 H4 H5 H7 HL Hcol Hdn.
  assert (H6 : has_column (strip_columns df_users) USER_NAME = true).
  { unfold column in Hcol. unfold has_column.
    destruct (position USER_NAME (columns (strip_columns df_users))); [reflexivity|discriminate]. }
  destruct (run_ok df_users df_license_master H1 H2 H3 H4 H5 H6 H7 HL choice)
    as (i & j & pu & manual & report & _ & _ & Hpu & _ & _ & Hb & _ & Hnames & _).
  unfold column in Hcol. rewrite Hpu in Hcol. injection Hcol as <-.
  change (rows (strip_columns df_users)) with (rows df_users) in Hdn.
  rewrite Hdn in Hnames. simpl in Hnames.
  assert (report = []) by now destruct report. subst report.
  split; [|now exists manual].
  destruct Hb as (m & Hm & Hman & Hrep).
  unfold run. rewrite Hm. simpl. rewrite Hman. simpl.
  unfold bulk_mode. rewrite Hrep. reflexivity.
Qed.

Lemma run_without_users_witness :
  run {| columns := [lit "User Name"; lit "Tcode"]; rows := [ [None; Some (lit "SU01")] ] |}
      ex_master 0
  = KeyError (lit "Recommended License").
Proof.
  apply (run_without_users
           {| columns := [lit "User Name"; lit "Tcode"];
              rows := [ [None; Some (lit "SU01")] ] |} ex_master 0 [None]);
    try reflexivity.
  - unfold rectangular. simpl. repeat constructor.
  - solve_well_labelled.
Defined.

(** ** Labels that both sheets have *)

(** A label that both frames have, other than the key, is not a label of
    the joined frame: it is there under its two suffixed forms only. *)
Lemma joined_lacks_common (left right : DataFrame) (i j : nat) (t : str) :
  ends_with (lit "_x") t = false ->
  ends_with (lit "_y") t = false ->
  t <> TCODE ->
  has_column left t = true ->
  has_column right t = true ->
  has_column (joined left right i j) t = false.
Proof.
  intros Hx Hy Hne Hl Hr.
  destruct (has_column (joined left right i j) t) eqn:E; [exfalso|reflexivity].
  apply has_column_In in E. simpl in E. apply in_app_or in E.
  assert (Hsuf : forall suffix c,
             ends_with suffix t = false -> suffixed left right TCODE suffix c <> t).
  { intros suffix c Hend Hc. unfold suffixed in Hc.
    destruct (negb (str_eqb c TCODE) && has_column left c && has_column right c) eqn:Ec.
    - rewrite <- Hc, ends_with_app in Hend. discriminate.
    - subst c. rewrite Hl, Hr in Ec.
      apply str_eqb_neq in Hne. rewrite Hne in Ec. discriminate. }
  destruct E as [E|E]; apply in_map_iff in E as (c & Hc & _).
  - now apply (Hsuf (lit "_x") c).
  - now apply (Hsuf (lit "_y") c).
Qed.

Lemma current_license_no_column (user_data : DataFrame) :
  has_column user_data LICENSE = false -> current_license user_data = Ok NOT_ASSIGNED.
Proof. intros H. unfold current_license. now rewrite H. Qed.

(** X13: when the master sheet has a [License] column as well as the users
    sheet, and the labels of each sheet and of the joined frame are
    pairwise distinct, the join renames both, no [License] column is left, and every
    user's current license is Not Assigned whatever the users sheet
    says. *)
Theorem current_license_lost_on_clash
    (df_users df_license_master : DataFrame) (choice : nat) :
  rectangular df_users ->
  has_column (strip_columns df_users) TCODE = true ->
  has_column (strip_columns df_license_master) TCODE = true ->
  has_column (strip_columns df_license_master) LICENSE_TYPE = true ->
  has_column (strip_columns df_users) LICENSE_TYPE = false ->
  has_column (strip_columns df_users) USER_NAME = true ->
  has_column (strip_columns df_license_master) USER_NAME = false ->
  well_labelled df_users df_license_master ->
  has_column (strip_columns df_users) LICENSE = true ->
  has_column (strip_columns df_license_master) LICENSE = true ->
  exists manual report,
    builds df_users df_license_master choice manual report
    /\ (forall r, In r report -> r_current r = NOT_ASSIGNED)
    /\ a_current manual = NOT_ASSIGNED.
Proof.
  intros H1 H2 H3 H4 H5 H6 H7 HL H8 H9.
  destruct (run_ok df_users df_license_master H1 H2 H3 H4 H5 H6 H7 HL choice)
    as (i & j & pu & manual & report & _ & _ & _ & _ & _ & Hb & _ & _ & Hrows & Hman).
  exists manual, report. split; [exact Hb|].
  assert (HJ : forall u,
             current_license
               (select_rows (joined (cleaned_users df_users)
                               (cleaned_master df_license_master) i j) pu u)
             = Ok NOT_ASSIGNED).
  { intros u. apply current_license_no_column.
    change (has_column (joined (cleaned_users df_users)
                          (cleaned_master df_license_master) i j) LICENSE = false).
    apply joined_lacks_common; try reflexivity.
    - intros H; vm_compute in H; discriminate.
    - now rewrite activity_has.
    - now rewrite catalog_has. }
  split.
  - intros r Hr. specialize (Hrows r Hr). rewrite HJ in Hrows. congruence.
  - rewrite HJ in Hman. congruence.
Qed.

Lemma current_license_lost_on_clash_witness :
  exists manual report,
    builds ex_users ex_master_license 0 manual report
    /\ (forall r, In r report -> r_current r = NOT_ASSIGNED).
Proof.
  destruct (current_license_lost_on_clash ex_users ex_master_license 0)
    as (manual & report & Hb & Hrows & _); try reflexivity.
  - unfold rectangular, ex_users. simpl. repeat constructor.
  - solve_well_labelled.
  - exists manual, report. split; [exact Hb | exact Hrows].
Defined.

(** X14: when the users sheet has a [License Type] column of its own, and
    the labels of each sheet and of the joined frame are pairwise
    distinct, the join renames it and the master's, and the run ends in the [KeyError]
    of the manual mode's read of [License Type]. *)
Theorem run_license_type_clash
    (df_users df_license_master : DataFrame) (choice : nat) :
  has_column (strip_columns df_users) TCODE = true ->
  has_column (strip_columns df_license_master) TCODE = true ->
  has_column (strip_columns df_license_master) LICENSE_TYPE = true ->
  has_column (strip_columns df_users) LICENSE_TYPE = true ->
  has_column (strip_columns df_users) USER_NAME = true ->
  has_column (strip_columns df_license_master) USER_NAME = false ->
  well_labelled df_users df_license_master ->
  run df_users df_license_master choice = KeyError LICENSE_TYPE.
Proof.
  intros H1 H2 H3 H4 H5 H6 HL.
  destruct (merged_cases df_users df_license_master HL)
    as [([H|H] & _)|[(_ & _ & H & _)|(_ & _ & _ & i & j & Hi & Hj & E)]]; try congruence.
  unfold run. rewrite E. simpl.
  set (J := joined (cleaned_users df_users) (cleaned_master df_license_master) i j).
  destruct (has_column_position _ _ H5) as [pu Hpu].
  assert (HpJ : position USER_NAME (columns J) = Some pu).
  { apply joined_position_left; [reflexivity | now rewrite activity_columns |].
    now rewrite catalog_has. }
  assert (HtJ : has_column J LICENSE_TYPE = false).
  { apply joined_lacks_common; try reflexivity.
    - intros H; vm_compute in H; discriminate.
    - now rewrite activity_has.
    - now rewrite catalog_has. }
  unfold manual_mode, column, where_eq. rewrite HpJ. simpl.
  set (selected := selectbox _ choice).
  destruct (current_license_spec (select_rows J pu selected)) as (cur & Hcur & _).
  rewrite Hcur. simpl.
  destruct (recommended_license_cases (select_rows J pu selected))
    as [(_ & R) | (R & _)]; [now rewrite R|].
  change (has_column J LICENSE_TYPE = true) in R. congruence.
Qed.

Lemma run_license_type_clash_witness :
  run ex_users_tier ex_master 0 = KeyError LICENSE_TYPE.
Proof.
  apply (run_license_type_clash ex_users_tier ex_master 0);
    try reflexivity; solve_well_labelled.
Defined.

(** X15: when the master sheet has a [User Name] column as well as the
    users sheet, and the labels of each sheet and of the joined frame are
    pairwise distinct, the join renames both and the run ends in the [KeyError]
    of the first read of [User Name]. *)
Theorem run_user_name_clash
    (df_users df_license_master : DataFrame) (choice : nat) :
  has_column (strip_columns df_users) TCODE = true ->
  has_column (strip_columns df_license_master) TCODE = true ->
  has_column (strip_columns df_license_master) LICENSE_TYPE = true ->
  has_column (strip_columns df_users) USER_NAME = true ->
  has_column (strip_columns df_license_master) USER_NAME = true ->
  well_labelled df_users df_license_master ->
  run df_users df_license_master choice = KeyError USER_NAME.
Proof.
  intros H1 H2 H3 H4 H5 HL.
  destruct (merged_cases df_users df_license_master HL)
    as [([H|H] & _)|[(_ & _ & H & _)|(_ & _ & _ & i & j & Hi & Hj & E)]]; try congruence.
  unfold run. rewrite E. simpl.
  assert (HJ : has_column (joined (cleaned_users df_users)
                             (cleaned_master df_license_master) i j) USER_NAME = false).
  { apply joined_lacks_common; try reflexivity.
    - intros H; vm_compute in H; discriminate.
    - now rewrite activity_has.
    - now rewrite catalog_has. }
  unfold manual_mode, column. unfold has_column in HJ.
  destruct (position USER_NAME (columns (joined _ _ i j))); [discriminate | reflexivity].
Qed.

Lemma run_user_name_clash_witness :
  run ex_users ex_master_name 0 = KeyError USER_NAME.
Proof.
  apply (run_user_name_clash ex_users ex_master_name 0);
    try reflexivity; solve_well_labelled.
Defined.

(** ** The report: user id and recommendation from the sheets *)

Lemma hd_blocks (f : list cell -> cell) (k : list cell -> nat) (ls : list (list cell)) :
  (forall l, 1 <= k l)%nat ->
  hd None (flat_map (fun l : list cell => repeat (f l) (k l)) ls) = hd None (map f ls).
Proof.
  intros Hk. destruct ls as [|l ls]; [reflexivity|].
  rewrite flat_map_cons. specialize (Hk l). destruct (k l); [lia | reflexivity].
Qed.

(** The cells of a column of the users sheet for one user are the same
    before and after the cleaning of the key. *)
Lemma activity_select (df_users : DataFrame) (i pu q : nat) (u : option str) :
  position TCODE (columns (cleaned_users df_users)) = Some i ->
  pu <> i -> q <> i ->
  map (fun r : list cell => nth q r None)
      (filter (fun r : list cell => cell_is u (nth pu r None))
              (rows (cleaned_users df_users)))
  = map (fun r : list cell => nth q r None)
      (filter (fun r : list cell => cell_is u (nth pu r None)) (rows df_users)).
Proof.
  intros Hi Hpu Hq. rewrite (activity_rows df_users i Hi).
  rewrite filter_map_swap, map_map.
  rewrite (filter_ext (fun a : list cell =>
                         cell_is u (nth pu (update_at i clean_tcode a) None))
                      (fun r : list cell => cell_is u (nth pu r None))).
  - apply map_ext. intros r. now apply nth_update_at_other.
  - intros r. now rewrite nth_update_at_other.
Qed.

Lemma labels_differ (cols : list str) (a b : str) (pa pb : nat) :
  position a cols = Some pa -> position b cols = Some pb -> a <> b -> pa <> pb.
Proof.
  intros Ha Hb Hne ->. apply position_Some in Ha as [_ E1].
  apply position_Some in Hb as [_ E2]. congruence.
Qed.

(** X16: for sheets with pairwise distinct labels and the columns the run
    reads, the user id of a report row is the [User ID] cell of the user's
    first record in the users sheet, empty if that cell is empty, and the
    text [N/A] when the users sheet has no [User ID] column (the master
    sheet having none). *)
Theorem report_user_id
    (df_users df_license_master : DataFrame) (choice : nat) :
  rectangular df_users ->
  has_column (strip_columns df_users) TCODE = true ->
  has_column (strip_columns df_license_master) TCODE = true ->
  has_column (strip_columns df_license_master) LICENSE_TYPE = true ->
  has_column (strip_columns df_users) LICENSE_TYPE = false ->
  has_column (strip_columns df_users) USER_NAME = true ->
  has_column (strip_columns df_license_master) USER_NAME = false ->
  well_labelled df_users df_license_master ->
  has_column (strip_columns df_license_master) USER_ID = false ->
  exists manual report,
    builds df_users df_license_master choice manual report
    /\ forall r, In r report ->
         r_user_id r
         = if has_column (strip_columns df_users) USER_ID
           then hd None (user_ids df_users (Some (r_user_name r)))
           else Some (lit "N/A").
Proof.
  intros H1 H2 H3 H4 H5 H6 H7 HL H8.
  destruct (run_ok df_users df_license_master H1 H2 H3 H4 H5 H6 H7 HL choice)
    as (i & j & pu & manual & report & Hi & Hj & Hpu & Hne & HpJ & Hb & _).
  exists manual, report. split; [exact Hb|].
  destruct (builds_inv _ _ _ i j _ _ H2 H3 H4 HL Hi Hj Hb) as [_ Hrep].
  set (J := joined (cleaned_users df_users) (cleaned_master df_license_master) i j) in *.
  destruct (user_results_inv J pu report HpJ Hrep) as [_ Hrows].
  intros r Hr.
  destruct (report_row_inv _ _ _ (Hrows r Hr)) as (_ & _ & _ & Hid & _).
  set (u := r_user_name r) in *. unfold first_user_id, column, has_column in Hid.
  change (columns (select_rows J pu (Some u))) with (columns J) in Hid.
  pose proof (activity_columns df_users) as Hcols.
  destruct (has_column (strip_columns df_users) USER_ID) eqn:Hu.
  - destruct (has_column_position _ _ Hu) as [pid Hpid].
    assert (HJ : position USER_ID (columns J) = Some pid).
    { apply joined_position_left; [reflexivity | now rewrite Hcols |].
      now rewrite catalog_has. }
    rewrite HJ in Hid. unfold bind in Hid. cbv beta iota in Hid.
    assert (Hcells :
      map (fun r0 : list cell => nth pid r0 None) (rows (select_rows J pu (Some u)))
      = flat_map (fun l : list cell =>
                    repeat (nth pid l None) (copies (cleaned_master df_license_master) i j l))
          (filter (fun l : list cell => cell_is (Some u) (nth pu l None))
                  (rows (cleaned_users df_users)))).
    { apply (joined_select_column (cleaned_users df_users)
               (cleaned_master df_license_master) i j (activity_rect df_users H1)).
      - rewrite Hcols. now apply position_Some in Hpu.
      - rewrite Hcols. now apply position_Some in Hpid. }
    rewrite Hcells in Hid.
    assert (Hhd : hd None (flat_map (fun l : list cell =>
                    repeat (nth pid l None) (copies (cleaned_master df_license_master) i j l))
                   (filter (fun l : list cell => cell_is (Some u) (nth pu l None))
                           (rows (cleaned_users df_users))))
                  = hd None (user_ids df_users (Some u))).
    { rewrite (hd_blocks (fun l : list cell => nth pid l None)); [|apply copies_pos].
      unfold user_ids. rewrite Hpu, Hpid. f_equal.
      apply (activity_select df_users i pu pid (Some u) Hi Hne).
      rewrite Hcols in Hi.
      apply (labels_differ _ USER_ID TCODE pid i Hpid Hi).
      intros H; vm_compute in H; discriminate. }
    rewrite <- Hhd.
    destruct (flat_map _ _) as [|first rest]; [discriminate|].
    injection Hid as <-. reflexivity.
  - assert (HJ : has_column J USER_ID = false).
    { apply joined_has_neither; try reflexivity.
      - now rewrite activity_has.
      - now rewrite catalog_has. }
    unfold has_column in HJ.
    destruct (position USER_ID (columns J)); [discriminate|]. congruence.
Qed.

Lemma report_user_id_witness :
  exists manual report,
    builds ex_users_ids ex_master 0 manual report
    /\ forall r, In r report ->
         r_user_id r = hd None (user_ids ex_users_ids (Some (r_user_name r))).
Proof.
  destruct (report_user_id ex_users_ids ex_master 0)
    as (manual & report & Hb & Hids); try reflexivity.
  - unfold rectangular, ex_users_ids. simpl. repeat constructor.
  - solve_well_labelled.
  - exists manual, report. split; [exact Hb | exact Hids].
Defined.

Lemma remove_at_cons {A : Type} (x : A) (l : list A) (k : nat) :
  remove_at (S k) (x :: l) = x :: remove_at k l.
Proof. reflexivity. Qed.

Lemma position_remove_at_Some (t on : str) (cols : list str) (j q : nat) :
  position on cols = Some j -> position t cols = Some q -> t <> on ->
  position t (remove_at j cols) = Some (if (q <? j)%nat then q else (q - 1)%nat).
Proof.
  revert j q. induction cols as [|c cols IH]; intros j q Hj Hq Hne; [discriminate|].
  simpl in Hj, Hq.
  destruct (str_eqb c on) eqn:Eon.
  - injection Hj as <-. apply str_eqb_eq in Eon. subst c.
    destruct (str_eqb on t) eqn:Et; [apply str_eqb_eq in Et; congruence|].
    destruct (position t cols) as [q0|] eqn:Eq; [|discriminate].
    injection Hq as <-. unfold remove_at. simpl. rewrite Eq. f_equal. lia.
  - destruct (position on cols) as [j0|] eqn:Ej; [|discriminate].
    injection Hj as <-. rewrite remove_at_cons. simpl.
    destruct (str_eqb c t) eqn:Et.
    + injection Hq as <-. reflexivity.
    + destruct (position t cols) as [q0|] eqn:Eq; [|discriminate].
      injection Hq as <-. rewrite (IH j0 q0 eq_refl eq_refl Hne).
      assert (q0 <> j0) by (eapply labels_differ; eauto).
      f_equal. change (S q0 <? S j0)%nat with (q0 <? j0)%nat.
      destruct (Nat.ltb_spec q0 j0); lia.
Qed.

Lemma nth_remove_at {A : Type} (l : list A) (j q : nat) (d : A) :
  q <> j ->
  nth (if (q <? j)%nat then q else (q - 1)%nat) (remove_at j l) d = nth q l d.
Proof.
  revert j q. induction l as [|x l IH]; intros j q Hne.
  - unfold remove_at. rewrite firstn_nil, skipn_nil. simpl.
    destruct (if (q <? j)%nat then q else (q - 1)%nat); destruct q; reflexivity.
  - destruct j as [|j].
    + unfold remove_at. simpl. destruct q as [|q]; [congruence|].
      simpl. now rewrite Nat.sub_0_r.
    + rewrite remove_at_cons. destruct q as [|q]; [reflexivity|].
      change (S q <? S j)%nat with (q <? j)%nat.
      specialize (IH j q ltac:(lia)).
      destruct (Nat.ltb_spec q j).
      * exact IH.
      * destruct q as [|q]; [lia|]. simpl in *. rewrite Nat.sub_0_r in *. exact IH.
Qed.

Lemma nth_repeat_None (w k : nat) : nth k (repeat (@None str) w) None = None.
Proof.
  revert k. induction w as [|w IH]; intros [|k]; simpl; auto.
Qed.

(** A label of the right frame only, other than the key, is found in the
    joined frame after the labels of the left frame. *)
Lemma joined_position_right (left right : DataFrame) (i j q : nat) (t : str) :
  position TCODE (columns right) = Some j ->
  ends_with (lit "_x") t = false ->
  ends_with (lit "_y") t = false ->
  t <> TCODE ->
  has_column left t = false ->
  position t (columns right) = Some q ->
  position t (columns (joined left right i j))
  = Some (length (columns left) + (if (q <? j)%nat then q else (q - 1)%nat))%nat.
Proof.
  intros Hj Hx Hy Hne Hl Hq. simpl.
  assert (Hleft : position t (map (suffixed left right TCODE (lit "_x")) (columns left)) = None).
  { rewrite position_suffixed; [|exact Hx | now rewrite Hl].
    unfold has_column in Hl. now destruct (position t (columns left)). }
  rewrite (position_app_right _ _ _ Hleft), length_map.
  rewrite position_suffixed; [|exact Hy | now rewrite Hl].
  now rewrite (position_remove_at_Some t TCODE _ j q Hj Hq Hne).
Qed.

(** The cells of a right column in the rows of the joined frame with a
    given value at a left column, empty cells apart. *)
Lemma right_blocks (right : DataFrame) (i j q width L p : nat) (v : option str)
    (ls : list (list cell)) :
  q <> j -> (p < L)%nat ->
  Forall (fun l : list cell => length l = L) ls ->
  dropna
    (map (fun r : list cell => nth (L + (if (q <? j)%nat then q else (q - 1)%nat)) r None)
       (filter (fun r : list cell => cell_is v (nth p r None))
          (flat_map (join_row i j width (rows right)) ls)))
  = dropna
      (flat_map (fun l : list cell =>
                   map (fun r : list cell => nth q r None)
                       (filter (fun r : list cell => cell_eqb (nth i l None) (nth j r None))
                               (rows right)))
         (filter (fun l : list cell => cell_is v (nth p l None)) ls)).
Proof.
  intros Hq Hp. induction 1 as [|l ls Hl Hls IH]; [reflexivity|].
  rewrite flat_map_cons, filter_app, map_app, dropna_app. cbn [filter].
  assert (Hblock : forall r,
             In r (join_row i j width (rows right) l) ->
             cell_is v (nth p r None) = cell_is v (nth p l None)).
  { intros r Hr.
    destruct (join_row_block i j width (rows right) l) as (_ & Hfirst & _).
    rewrite <- (Hfirst r Hr) at 1. rewrite nth_firstn.
    replace (p <? length l)%nat with true; [reflexivity|].
    symmetry. apply Nat.ltb_lt. lia. }
  rewrite (filter_ext_in _ (fun _ => cell_is v (nth p l None)) _ Hblock).
  destruct (cell_is v (nth p l None)).
  - rewrite filter_true, flat_map_cons, dropna_app. f_equal; [|exact IH].
    unfold join_row.
    destruct (filter (fun r : list cell => cell_eqb (nth i l None) (nth j r None))
                (rows right)) as [|r0 found].
    + simpl. rewrite app_nth2 by lia. now rewrite nth_repeat_None.
    + rewrite map_map. f_equal. apply map_ext. intros r.
      rewrite app_nth2 by lia.
      replace (L + (if (q <? j)%nat then q else (q - 1)%nat) - length l)%nat
        with (if (q <? j)%nat then q else (q - 1)%nat) by lia.
      now apply nth_remove_at.
  - rewrite filter_false. exact IH.
Qed.

(** X17: for sheets with pairwise distinct labels, the columns the run
    reads, and ASCII text in every code cell and every [License Type]
    cell: the recommended license of every user of the report, and of the
    user of the manual view, is the highest tier among the master rows
    whose cleaned transaction code equals that of one of the user's
    records; a record without a match, or a match whose tier is not in the
    priority table, adds nothing, and with nothing left it is [No Data]. *)
Theorem recommended_is_highest_matched
    (df_users df_license_master : DataFrame) (choice : nat) :
  rectangular df_users ->
  has_column (strip_columns df_users) TCODE = true ->
  has_column (strip_columns df_license_master) TCODE = true ->
  has_column (strip_columns df_license_master) LICENSE_TYPE = true ->
  has_column (strip_columns df_users) LICENSE_TYPE = false ->
  has_column (strip_columns df_users) USER_NAME = true ->
  has_column (strip_columns df_license_master) USER_NAME = false ->
  well_labelled df_users df_license_master ->
  ascii_cells df_users TCODE ->
  ascii_cells df_license_master TCODE ->
  ascii_cells df_license_master LICENSE_TYPE ->
  exists manual report,
    builds df_users df_license_master choice manual report
    /\ (forall r, In r report ->
          get_highest_license
            (map (fun x => normalize_license (PStr x))
                 (dropna (matched_tiers df_users df_license_master
                            (Some (r_user_name r)))))
          = Ok (r_recommended r))
    /\ get_highest_license
         (map (fun x => normalize_license (PStr x))
              (dropna (matched_tiers df_users df_license_master (a_user manual))))
       = Ok (a_recommended manual).
Proof.
  intros H1 H2 H3 H4 H5 H6 H7 HL _ _ _.
  destruct (run_ok df_users df_license_master H1 H2 H3 H4 H5 H6 H7 HL choice)
    as (i & j & pu & manual & report & Hi & Hj & Hpu & Hne & HpJ & Hb & _).
  exists manual, report. split; [exact Hb|].
  destruct (builds_inv _ _ _ i j _ _ H2 H3 H4 HL Hi Hj Hb) as [Hman Hrep].
  pose proof (activity_columns df_users) as Hcols.
  pose proof (activity_rect df_users H1) as Hrect.
  assert (Hct : has_column (cleaned_master df_license_master) LICENSE_TYPE = true)
    by now rewrite catalog_has.
  destruct (has_column_position _ _ Hct) as [q Hq].
  assert (Hqj : q <> j).
  { apply (labels_differ _ LICENSE_TYPE TCODE q j Hq Hj).
    intros H; vm_compute in H; discriminate. }
  set (activity := cleaned_users df_users) in *.
  set (catalog := cleaned_master df_license_master) in *.
  set (J := joined activity catalog i j) in *.
  assert (HtJ : position LICENSE_TYPE (columns J)
                = Some (length (columns activity)
                        + (if (q <? j)%nat then q else (q - 1)%nat))%nat).
  { apply joined_position_right; try reflexivity; try assumption.
    - intros H; vm_compute in H; discriminate.
    - unfold has_column. rewrite Hcols.
      unfold has_column in H5. exact H5. }
  assert (Hrec : forall u,
            recommended_license (select_rows J pu u)
            = get_highest_license
                (map (fun x => normalize_license (PStr x))
                     (dropna (matched_tiers df_users df_license_master u)))).
  { intros u. unfold recommended_license, column.
    change (columns (select_rows J pu u)) with (columns J). rewrite HtJ.
    unfold bind. cbv beta iota. do 2 f_equal.
    assert (Hlt : (pu < length (columns activity))%nat).
    { rewrite Hcols. now apply position_Some in Hpu. }
    etransitivity;
      [exact (right_blocks catalog i j q (length (remove_at j (columns catalog)))
                (length (columns activity)) pu u (rows activity) Hqj Hlt Hrect)|].
    unfold matched_tiers. cbv zeta. fold activity catalog. rewrite Hcols, Hpu.
    f_equal. apply flat_map_ext. intros l.
    unfold matching, key_of. now rewrite Hi, Hj, Hq. }
  destruct (user_results_inv J pu report HpJ Hrep) as [_ Hrows].
  destruct (manual_mode_inv J pu choice manual HpJ Hman) as (_ & _ & Hmrec & _).
  split.
  - intros r Hr.
    destruct (report_row_inv _ _ _ (Hrows r Hr)) as (_ & Hr' & _).
    now rewrite <- Hrec.
  - now rewrite <- Hrec.
Qed.

Lemma recommended_is_highest_matched_witness :
  exists manual report,
    builds ex_users ex_master 0 manual report
    /\ forall r, In r report ->
         get_highest_license
           (map (fun x => normalize_license (PStr x))
                (dropna (matched_tiers ex_users ex_master (Some (r_user_name r)))))
         = Ok (r_recommended r).
Proof.
  destruct (recommended_is_highest_matched ex_users ex_master 0)
    as (manual & report & Hb & Hrows & _); try reflexivity.
  - unfold rectangular, ex_users. simpl. repeat constructor.
  - solve_well_labelled.
  - solve_ascii_cells.
  - solve_ascii_cells.
  - solve_ascii_cells.
  - exists manual, report. split; [exact Hb | exact Hrows].
Defined.

(** ** Further properties of the status, the labels and the current license *)

Lemma normalize_closed (v : value) :
  In v (PStr NO_DATA :: TIERS) -> normalize_license v = v.
Proof. intros [H|[H|[H|[H|[]]]]]; subst v; reflexivity. Qed.

(** X18: the status against a recommendation of [get_highest_license].  A
    current license that does not normalise to a tier is Under-Licensed
    against every recommended tier, and against [No Data] it is Review,
    or Optimized if it reads [No Data] itself; a current license that
    normalises to a tier is Over-Licensed against [No Data]. *)
Theorem status_against_recommendation
    (current recommended : value) (license_list : list value) :
  get_highest_license license_list = Ok recommended ->
  (contains LICENSE_PRIORITY (normalize_license current) = false ->
   determine_status current recommended
   = if contains LICENSE_PRIORITY recommended then UNDER_LICENSED
     else if Py.eqb (normalize_license current) (PStr NO_DATA) then OPTIMIZED
     else REVIEW)
  /\ (contains LICENSE_PRIORITY (normalize_license current) = true ->
      contains LICENSE_PRIORITY recommended = false ->
      determine_status current recommended = OVER_LICENSED).
Proof.
  intros Hrec.
  destruct (get_highest_license_total license_list) as (v & Hv & Hin).
  rewrite Hrec in Hv. injection Hv as <-.
  pose proof (normalize_closed recommended Hin) as Hn.
  assert (Hr0 : contains LICENSE_PRIORITY recommended = false -> recommended = PStr NO_DATA).
  { intros Hc. destruct Hin as [<-|Hin]; [reflexivity|].
    apply contains_TIERS in Hin. congruence. }
  unfold determine_status. rewrite Hn, !rank_of_get. split.
  - intros Hc.
    assert (Hrc : rank_of (normalize_license current) = 0%Z).
    { apply rank_of_not_TIERS. intros H. apply contains_TIERS in H. congruence. }
    rewrite Hrc.
    destruct (contains LICENSE_PRIORITY recommended) eqn:Ec.
    + apply contains_TIERS in Ec.
      replace (Py.eqb (normalize_license current) recommended) with false.
      * pose proof (rank_of_TIERS recommended Ec) as Hr.
        destruct (Z.ltb_spec (rank_of recommended) 0); [lia|].
        destruct (Z.ltb_spec 0 (rank_of recommended)); [reflexivity | lia].
      * symmetry. destruct (Py.eqb (normalize_license current) recommended) eqn:E;
          [|reflexivity].
        rewrite <- Hn in E. apply eqb_normalized in E. rewrite Hn in E.
        rewrite E in Hc. apply contains_TIERS in Ec. congruence.
    + rewrite (Hr0 eq_refl).
      destruct (Py.eqb (normalize_license current) (PStr NO_DATA)); reflexivity.
  - intros Hc Hr. rewrite (Hr0 Hr).
    apply contains_TIERS in Hc. pose proof (rank_of_TIERS _ Hc) as Hrk.
    replace (Py.eqb (normalize_license current) (PStr NO_DATA)) with false.
    + change (rank_of (PStr NO_DATA)) with 0%Z.
      destruct (Z.ltb_spec 0 (rank_of (normalize_license current))); [reflexivity | lia].
    + symmetry. destruct (Py.eqb (normalize_license current) (PStr NO_DATA)) eqn:E;
        [|reflexivity].
      change (PStr NO_DATA) with (normalize_license (PStr NO_DATA)) in E.
      apply eqb_normalized in E. rewrite E in Hc.
      destruct Hc as [H|[H|[H|[]]]]; vm_compute in H; discriminate.
Qed.

Lemma status_against_recommendation_witness :
  determine_status (PStr NOT_ASSIGNED) (PStr (lit "Functional")) = UNDER_LICENSED.
Proof.
  apply (proj1 (status_against_recommendation (PStr NOT_ASSIGNED) (PStr (lit "Functional"))
                  [PStr (lit "functional"); PStr (lit "Productivity")] eq_refl)).
  reflexivity.
Defined.

(** X19: column labels are read after [strip]: a sheet whose label is a
    required label with white space around it has that column. *)
Theorem strip_columns_accepts_padding (df : DataFrame) (ws t ws' : str) :
  strip t = t ->
  forallb is_space ws = true ->
  forallb is_space ws' = true ->
  In (ws ++ t ++ ws') (columns df) ->
  has_column (strip_columns df) t = true.
Proof.
  intros Ht Hws Hws' Hin. apply has_column_In. simpl.
  rewrite <- Ht, <- (strip_spaces ws t ws' Hws Hws'). now apply in_map.
Qed.

Lemma strip_columns_accepts_padding_witness :
  has_column (strip_columns ex_users) TCODE = true.
Proof.
  apply (strip_columns_accepts_padding ex_users [] TCODE (lit " ")); try reflexivity.
  simpl. right. left. reflexivity.
Defined.

Lemma copies_match_weight (df_users df_license_master : DataFrame) (i j : nat)
    (l : list cell) :
  position TCODE (columns (cleaned_users df_users)) = Some i ->
  position TCODE (columns (cleaned_master df_license_master)) = Some j ->
  copies (cleaned_master df_license_master) i j l
  = match_weight df_users df_license_master l.
Proof.
  intros Hi Hj. unfold copies, match_weight, matching, key_of, join_row.
  rewrite Hi, Hj.
  destruct (filter (fun r : list cell => cell_eqb (nth i l None) (nth j r None))
              (rows (cleaned_master df_license_master))) as [|r0 found];
    [reflexivity|].
  rewrite length_map. simpl. lia.
Qed.

(** X20: for sheets with pairwise distinct labels, the columns the run
    reads and ASCII text in every code cell, whatever the master sheet
    repeats: the current license of a user is Not Assigned when the
    user's [License] cells are all empty or the sheets have no [License]
    column, and otherwise a most frequent value of those cells, least in
    the order of text among the most frequent, where the cell of a record
    counts once for every master row with the record's cleaned
    transaction code, and once if there is none. *)
Theorem current_license_counts_matches
    (df_users df_license_master : DataFrame) (choice : nat) :
  rectangular df_users ->
  has_column (strip_columns df_users) TCODE = true ->
  has_column (strip_columns df_license_master) TCODE = true ->
  has_column (strip_columns df_license_master) LICENSE_TYPE = true ->
  has_column (strip_columns df_users) LICENSE_TYPE = false ->
  has_column (strip_columns df_users) USER_NAME = true ->
  has_column (strip_columns df_license_master) USER_NAME = false ->
  well_labelled df_users df_license_master ->
  has_column (strip_columns df_license_master) LICENSE = false ->
  ascii_cells df_users TCODE ->
  ascii_cells df_license_master TCODE ->
  exists manual report,
    builds df_users df_license_master choice manual report
    /\ (forall r, In r report ->
          current_spec (weighted_licenses df_users df_license_master
                          (Some (r_user_name r))) (r_current r))
    /\ current_spec (weighted_licenses df_users df_license_master (a_user manual))
         (a_current manual).
Proof.
  intros H1 H2 H3 H4 H5 H6 H7 HL H8 _ _.
  destruct (run_ok df_users df_license_master H1 H2 H3 H4 H5 H6 H7 HL choice)
    as (i & j & pu & manual & report & Hi & Hj & Hpu & Hne & _ & Hb & _ & _ & Hrows & Hman).
  exists manual, report. split; [exact Hb|].
  pose proof (activity_columns df_users) as Hcols.
  pose proof (activity_rect df_users H1) as Hrect.
  assert (Hcat : has_column (cleaned_master df_license_master) LICENSE = false)
    by now rewrite catalog_has.
  assert (Hgen : forall u v,
            current_license
              (select_rows (joined (cleaned_users df_users)
                              (cleaned_master df_license_master) i j) pu u) = Ok v ->
            current_spec (weighted_licenses df_users df_license_master u) v).
  { intros u v Hcur.
    set (J := joined (cleaned_users df_users) (cleaned_master df_license_master) i j) in *.
    destruct (current_license_spec (select_rows J pu u)) as (v' & Hv' & Hspec).
    rewrite Hcur in Hv'. injection Hv' as <-.
    change (columns (select_rows J pu u)) with (columns J) in Hspec.
    unfold weighted_licenses. cbv zeta. rewrite Hcols, Hpu.
    destruct (position LICENSE (columns (strip_columns df_users))) as [q|] eqn:Hq.
    - assert (HqJ : position LICENSE (columns J) = Some q).
      { apply joined_position_left; [reflexivity | now rewrite Hcols | exact Hcat]. }
      rewrite HqJ in Hspec.
      assert (Hcells :
        map (fun r : list cell => nth q r None) (rows (select_rows J pu u))
        = flat_map (fun l : list cell =>
                      repeat (nth q l None) (match_weight df_users df_license_master l))
            (filter (fun l : list cell => cell_is u (nth pu l None))
                    (rows (cleaned_users df_users)))).
      { etransitivity.
        - apply (joined_select_column (cleaned_users df_users)
                   (cleaned_master df_license_master) i j Hrect).
          + rewrite Hcols. now apply position_Some in Hpu.
          + rewrite Hcols. now apply position_Some in Hq.
        - apply flat_map_ext. intros l. f_equal. now apply copies_match_weight. }
      now rewrite Hcells in Hspec.
    - assert (HJ : has_column J LICENSE = false).
      { apply joined_has_neither; try reflexivity.
        - unfold has_column. now rewrite Hcols, Hq.
        - exact Hcat. }
      unfold has_column in HJ.
      destruct (position LICENSE (columns J)); [discriminate|].
      left. now split. }
  split; [intros r Hr; apply Hgen, Hrows, Hr | apply Hgen, Hman].
Qed.

Lemma current_license_counts_matches_witness :
  exists manual report,
    builds dup_users dup_master 0 manual report
    /\ forall r, In r report ->
         current_spec (weighted_licenses dup_users dup_master (Some (r_user_name r)))
           (r_current r).
Proof.
  destruct (current_license_counts_matches dup_users dup_master 0)
    as (manual & report & Hb & Hrows & _); try reflexivity.
  - unfold rectangular, dup_users. simpl. repeat constructor.
  - solve_well_labelled.
  - solve_ascii_cells.
  - solve_ascii_cells.
  - exists manual, report. split; [exact Hb | exact Hrows].
Defined.

(** X21: the cleaning of the master's [License Type] on load changes
    nothing for ASCII text: the cleaned cell normalises, once or twice, to
    what the cell as written normalises to, so the three normalisations
    between the sheet and the priority table amount to one. *)
Theorem clean_license_type_redundant (s : str) :
  ascii_text s ->
  clean_license_type (Some s) = Some (title (strip s))
  /\ normalize_license (to_value (clean_license_type (Some s)))
     = normalize_license (PStr s)
  /\ normalize_license (normalize_license (to_value (clean_license_type (Some s))))
     = normalize_license (PStr s).
Proof.
  intros Hs. split; [reflexivity|].
  assert (E : normalize_license (to_value (clean_license_type (Some s)))
              = normalize_license (PStr s)).
  { unfold normalize_license. simpl. f_equal. now apply title_strip_idempotent. }
  split; [exact E|]. rewrite E.
  unfold normalize_license. simpl. f_equal. now apply title_strip_idempotent.
Qed.

Lemma clean_license_type_redundant_witness :
  normalize_license (to_value (clean_license_type (Some (lit " functional "))))
  = normalize_license (PStr (lit " functional ")).
Proof.
  apply (proj1 (proj2 (clean_license_type_redundant (lit " functional ")
                         ltac:(unfold ascii_text; simpl; repeat constructor)))).
Defined.
